(** * Page workspace of the PDF tools: selection, transforms, export

    A shallow embedding of the page-range selection, the split / rotate /
    merge handlers and the download helper of the React components
    [SplitPDF], [RotatePDF] and [MergePDF], with the properties the
    specification states about them.

    JavaScript values are modelled as follows.
    - integers held in a JS number: [Z] (exact below 2^53, which page
      numbers are);
    - a JS number produced by division or multiplication: [Q], rounded by
      an explicit rounding function (section [Float]);
    - a string: [string], one [ascii] per code unit;
    - [NaN] out of [parseInt]: [None];
    - [Set<number>]: the list of its elements in insertion order;
    - React state: a record, one field per [useState] variable;
    - the browser and the PDF libraries: a [World] record holding the log
      of calls made and the object URLs that are alive. *)

From Stdlib Require Import ZArith QArith Qround List String Ascii Bool Lia.
From Stdlib Require Import Permutation Sorted.
Import ListNotations.

Local Open Scope Z_scope.

(** ** JavaScript built-ins used by the components *)

Module JS.

(** [WhiteSpace] and [LineTerminator] code units below 256. *)
Definition isWhiteSpace (c : ascii) : bool :=
  let n := nat_of_ascii c in
  ((n =? 9) || (n =? 10) || (n =? 11) || (n =? 12) || (n =? 13)
   || (n =? 32) || (n =? 160))%nat.

Fixpoint trimStart (s : string) : string :=
  match s with
  | EmptyString => EmptyString
  | String c s' => if isWhiteSpace c then trimStart s' else s
  end.

Fixpoint trimEnd (s : string) : string :=
  match s with
  | EmptyString => EmptyString
  | String c s' =>
      match trimEnd s' with
      | EmptyString =>
          if isWhiteSpace c then EmptyString else String c EmptyString
      | t => String c t
      end
  end.

(** [String.prototype.trim] *)
Definition trim (s : string) : string := trimEnd (trimStart s).

(** [s.split(sep)] for a one-character separator. *)
Fixpoint split (sep : ascii) (s : string) : list string :=
  match s with
  | EmptyString => [EmptyString]
  | String c s' =>
      if Ascii.eqb c sep then EmptyString :: split sep s'
      else match split sep s' with
           | [] => [String c EmptyString]
           | p :: ps => String c p :: ps
           end
  end.

(** [s.includes(c)] for a one-character needle. *)
Fixpoint includes (c : ascii) (s : string) : bool :=
  match s with
  | EmptyString => false
  | String d s' => Ascii.eqb d c || includes c s'
  end.

(** [parts.join(sep)] *)
Fixpoint join (sep : string) (l : list string) : string :=
  match l with
  | [] => EmptyString
  | x :: rest =>
      match rest with
      | [] => x
      | _ :: _ => (x ++ sep ++ join sep rest)%string
      end
  end.

(** Value of a digit in [parseInt]: 0-9, a-z and A-Z. *)
Definition digitValue (c : ascii) : option Z :=
  let n := Z.of_nat (nat_of_ascii c) in
  if (48 <=? n) && (n <=? 57) then Some (n - 48)
  else if (97 <=? n) && (n <=? 122) then Some (n - 87)
  else if (65 <=? n) && (n <=? 90) then Some (n - 55)
  else None.

(** The longest prefix of radix-[R] digits, read as a number; [None]
    when that prefix is empty. *)
Fixpoint parseDigits (R : Z) (s : string) (acc : Z) (seen : bool)
  : option Z :=
  let stop := if seen then Some acc else None in
  match s with
  | EmptyString => stop
  | String c s' =>
      match digitValue c with
      | Some d => if d <? R then parseDigits R s' (acc * R + d) true
                  else stop
      | None => stop
      end
  end.

(** [parseInt(s)] with no radix argument: leading white space, an
    optional sign, an optional [0x] prefix, then digits. [None] is
    [NaN]. The value is the integer the digits spell; JS gives the
    nearest double, which is that integer up to
    [Number.MAX_SAFE_INTEGER] in absolute value. *)
Definition parseInt (s : string) : option Z :=
  let s1 := trimStart s in
  let '(sign, s2) :=
    match s1 with
    | String "-"%char r => (-1, r)
    | String "+"%char r => (1, r)
    | _ => (1, s1)
    end in
  let '(R, s3) :=
    match s2 with
    | String "0"%char (String "x"%char r) => (16, r)
    | String "0"%char (String "X"%char r) => (16, r)
    | _ => (10, s2)
    end in
  option_map (Z.mul sign) (parseDigits R s3 0 false).

Definition digitChar (d : Z) : ascii := ascii_of_nat (48 + Z.to_nat d).

Fixpoint digitsOf (fuel : nat) (n : Z) (acc : string) : string :=
  match fuel with
  | O => acc
  | S f =>
      let acc' := String (digitChar (n mod 10)) acc in
      if n / 10 =? 0 then acc' else digitsOf f (n / 10) acc'
  end.

(** [Number.prototype.toString] on an integer (the template literal
    [`${n}`]): its decimal digits, which is what JS prints for integers
    below 1e21. The fuel is enough: a number below [2^k] has at most [k]
    digits. *)
Definition toString (n : Z) : string :=
  if n <? 0
  then String "-"%char (digitsOf (S (Z.to_nat (Z.log2 (- n)))) (- n) "")
  else digitsOf (S (Z.to_nat (Z.log2 n))) n "".

(** [Set<number>]: elements in insertion order, each once. *)
Definition NumSet := list Z.

Definition has (s : NumSet) (x : Z) : bool := existsb (Z.eqb x) s.
Definition add (x : Z) (s : NumSet) : NumSet :=
  if has s x then s else s ++ [x].
Definition delete (x : Z) (s : NumSet) : NumSet :=
  filter (fun y => negb (y =? x)) s.

(** [arr.sort((a, b) => a - b)]: ascending, stable. *)
Fixpoint insert (x : Z) (l : list Z) : list Z :=
  match l with
  | [] => [x]
  | y :: l' => if x <? y then x :: l else y :: insert x l'
  end.

Definition sort (l : list Z) : list Z := fold_left (fun acc x => insert x acc) l [].

(** *** Numbers that are not integers

    A division or multiplication of doubles yields the real result
    rounded to a double; [fl] is that rounding. *)
Section Float.
Variable fl : Q -> Q.

Definition fdiv (x y : Q) : Q := fl (x / y).
Definition fmul (x y : Q) : Q := fl (x * y).
Definition fsub (x y : Q) : Q := fl (x - y).
End Float.

(** What the proofs below need of rounding to nearest: it is monotone
    and leaves the integers that a double holds exactly alone. *)
Record Rounding (fl : Q -> Q) : Prop := {
  fl_mono : forall x y : Q, (x <= y)%Q -> (fl x <= fl y)%Q;
  fl_int : forall z : Z, Z.abs z <= 2 ^ 53 -> (fl (inject_Z z) == inject_Z z)%Q
}.

(** [Math.round]: the nearest integer, halves going up. *)
Definition Math_round (x : Q) : Z := Qfloor (x + (1 # 2)).

(** [s.replace(pat, "")] for a string pattern: the first occurrence of
    [pat] is removed. *)
Fixpoint stripPrefix (pat s : string) : option string :=
  match pat, s with
  | EmptyString, _ => Some s
  | String p pat', String c s' =>
      if Ascii.eqb p c then stripPrefix pat' s' else None
  | String _ _, EmptyString => None
  end.

Fixpoint removeFirst (pat s : string) : string :=
  match stripPrefix pat s with
  | Some rest => rest
  | None =>
      match s with
      | EmptyString => EmptyString
      | String c s' => String c (removeFirst pat s')
      end
  end.

(** *** Arrays *)

(** [arr[i]]; [None] is [undefined]. *)
Definition item {A : Type} (arr : list A) (i : Z) : option A :=
  if i <? 0 then None else nth_error arr (Z.to_nat i).

(** [arr[i] = v] for an index inside the array (one past the end
    appends; further out JS leaves holes, which no handler does). *)
Definition assign {A : Type} (arr : list A) (i : Z) (v : A) : list A :=
  let k := Z.to_nat i in
  firstn k arr ++ v :: skipn (S k) arr.

(** [arr.splice(start, deleteCount, ...items)]: a negative [start]
    counts from the end, and [start] is clamped to the array. *)
Definition splice {A : Type} (arr : list A) (start : Z) (deleteCount : nat)
    (items : list A) : list A :=
  let len := Z.of_nat (List.length arr) in
  let k := Z.to_nat (if start <? 0 then Z.max (len + start) 0
                     else Z.min start len) in
  firstn k arr ++ items ++ skipn (k + deleteCount) arr.

Fixpoint findIndexFrom {A : Type} (p : A -> bool) (arr : list A) (i : Z) : Z :=
  match arr with
  | [] => -1
  | a :: rest => if p a then i else findIndexFrom p rest (i + 1)
  end.

(** [arr.findIndex(p)] *)
Definition findIndex {A : Type} (p : A -> bool) (arr : list A) : Z :=
  findIndexFrom p arr 0.

End JS.

(** ** Handlers as state transformers that may throw *)

Module Eff.

Inductive Outcome (A : Type) : Type :=
| Returned (a : A)
| Thrown.
Arguments Returned {A} a.
Arguments Thrown {A}.

Definition M (S A : Type) : Type := S -> Outcome A * S.

Definition ret {S A : Type} (a : A) : M S A := fun s => (Returned a, s).

Definition bind {S A B : Type} (m : M S A) (k : A -> M S B) : M S B :=
  fun s =>
    match m s with
    | (Returned a, s') => k a s'
    | (Thrown, s') => (Thrown, s')
    end.

Definition throw {S A : Type} : M S A := fun s => (Thrown, s).

Definition gets {S A : Type} (f : S -> A) : M S A :=
  fun s => (Returned (f s), s).

Definition modify {S : Type} (f : S -> S) : M S unit :=
  fun s => (Returned tt, f s).

(** An awaited promise that rejects, or a call that raises. *)
Definition orThrow {S A : Type} (o : option A) : M S A :=
  match o with
  | Some a => ret a
  | None => throw
  end.

(** [try { body } catch { handler }] *)
Definition tryCatch {S A : Type} (body handler : M S A) : M S A :=
  fun s =>
    match body s with
    | (Thrown, s') => handler s'
    | r => r
    end.

(** [try { body } finally { cleanup }] *)
Definition tryFinally {S A : Type} (body : M S A) (cleanup : M S unit)
  : M S A :=
  fun s =>
    let '(r, s') := body s in
    match cleanup s' with
    | (Returned _, s'') => (r, s'')
    | (Thrown, s'') => (Thrown, s'')
    end.

(** The state a handler leaves behind. *)
Definition exec {S A : Type} (m : M S A) (s : S) : S := snd (m s).

Declare Scope eff_scope.
Delimit Scope eff_scope with eff.
Notation "x <- c1 ;; c2" := (bind c1 (fun x => c2))
  (at level 61, c1 at next level, right associativity) : eff_scope.
Notation "c1 ;; c2" := (bind c1 (fun _ => c2))
  (at level 61, right associativity) : eff_scope.

End Eff.

(** ** The browser and the PDF libraries *)

Module Browser.
Import Eff.
Local Open Scope eff_scope.

Record File := {
  name : string;
  type : string;
  size : Z;
  data : nat  (* stands for the bytes *)
}.

(** Text drawn on a page by [page.drawText]. *)
Record Text := {
  text : string;
  x : Q;
  y : Q;
  textSize : Q;
  color : Q * Q * Q
}.

(** A page of a decoded document. *)
Record Page := {
  content : nat;  (* stands for the page's objects *)
  width : Q;
  height : Q;
  rotation : Z;
  drawn : list Text
}.

(** An open [PDFDocument] is its page sequence, and [save()] is taken to
    serialise exactly that sequence. *)
Definition Document := list Page.

Inductive Blob :=
| PdfBlob (doc : Document)
| ZipBlob (entries : list (string * Document)).

(** Calls that leave the component, in the order they are made. *)
Inductive Event :=
| GetDocument (f : File)            (* pdfjsLib.getDocument *)
| RenderPage (f : File) (i : Z)     (* page.render *)
| LoadDocument (f : File)           (* PDFDocument.load *)
| SaveDocument (doc : Document)     (* PDFDocument.save *)
| Download (href : nat) (b : Blob) (download : string)  (* link.click() *)
| Alert (msg : string)
| SetTimeout (ms : Z)
| Progress (p : Z).                 (* a value given to the progress readout *)

Record World := {
  log : list Event;
  liveURLs : list (nat * Blob);   (* object URLs created and not revoked *)
  nextURL : nat;
  now : Z                         (* new Date().getTime() *)
}.

(** A mounted component: its React state and the world around it. *)
Record St (C : Type) := mkSt { ui : C; world : World }.
Arguments mkSt {C} ui world.
Arguments ui {C} s.
Arguments world {C} s.

Section Ops.
Context {C : Type}.

Definition setState (f : C -> C) : M (St C) unit :=
  modify (fun s => mkSt (f (ui s)) (world s)).

Definition emit (e : Event) : M (St C) unit :=
  modify (fun s =>
    let w := world s in
    mkSt (ui s)
      {| log := log w ++ [e]; liveURLs := liveURLs w;
         nextURL := nextURL w; now := now w |}).

(** [URL.createObjectURL(blob)] *)
Definition createObjectURL (b : Blob) : M (St C) nat :=
  u <- gets (fun s => nextURL (world s)) ;;
  modify (fun s =>
    let w := world s in
    mkSt (ui s)
      {| log := log w; liveURLs := (u, b) :: liveURLs w;
         nextURL := S u; now := now w |}) ;;
  ret u.

(** [URL.revokeObjectURL(url)] *)
Definition revokeObjectURL (u : nat) : M (St C) unit :=
  modify (fun s =>
    let w := world s in
    mkSt (ui s)
      {| log := log w;
         liveURLs := filter (fun e => negb (Nat.eqb (fst e) u)) (liveURLs w);
         nextURL := nextURL w; now := now w |}).

(** The anchor element with [href] and [download] set, appended,
    clicked and removed. *)
Definition clickLink (href : nat) (download : string) : M (St C) unit :=
  w <- gets (fun s => world s) ;;
  match find (fun e => Nat.eqb (fst e) href) (liveURLs w) with
  | Some (_, b) => emit (Download href b download)
  | None => ret tt
  end.
End Ops.

(** The libraries, as far as the handlers see them. [None] is a rejected
    promise. [formatSize] is the components' display helper, which goes
    through [Math.log] and [toFixed]. *)
Record Libs := {
  getDocument : File -> option Z;          (* numPages *)
  renderPage : File -> Z -> option string; (* canvas.toDataURL *)
  loadDocument : File -> option Document;
  widthOfTextAtSize : string -> Q -> Q;
  formatSize : Z -> string
}.

(** Modelled from the spec: the document codec (pdf-lib) is an external
    library and is not part of the sources; section 6 gives
    [copyPages(sourceDoc, indices[]) -> pages[]]. The pages at [indices],
    in that order; the call raises when an index has no page. *)
Fixpoint copyPages (src : Document) (indices : list Z) : option (list Page) :=
  match indices with
  | [] => Some []
  | i :: rest =>
      if i <? 0 then None
      else match nth_error src (Z.to_nat i), copyPages src rest with
           | Some p, Some ps => Some (p :: ps)
           | _, _ => None
           end
  end.

End Browser.

(** ** SplitPDF: the page selection and its range text *)

Module SplitPDF.
Import JS Eff Browser.
Local Open Scope eff_scope.

(** The template literals of [updateRangeFromSet]. *)
Definition rangeToken (start end_ : Z) : string :=
  if start =? end_ then toString (start + 1)
  else (toString (start + 1) ++ "-" ++ toString (end_ + 1))%string.

(** The [for] loop of [updateRangeFromSet] over [sorted[1..]], and the
    [push] after it. *)
Fixpoint rangesLoop (rest : list Z) (start end_ : Z) (ranges : list string)
  : list string :=
  match rest with
  | [] => ranges ++ [rangeToken start end_]
  | x :: rest' =>
      if x =? end_ + 1 then rangesLoop rest' start x ranges
      else rangesLoop rest' x x (ranges ++ [rangeToken start end_])
  end.

(** [updateRangeFromSet]: the text handed to [setRangeText]. *)
Definition updateRangeFromSet (set : NumSet) : string :=
  match sort set with
  | [] => EmptyString
  | first :: rest => join ", " (rangesLoop rest first first [])
  end.

(** The inner [for] loop of [parseRangeText], [i] running from
    [Math.min(start, end)] for [n] more iterations. This is the loop of
    the source as long as [i++] is exact, that is for bounds up to
    [Number.MAX_SAFE_INTEGER] in absolute value; beyond that the counter
    of the source stops advancing and its loop does not end. *)
Fixpoint addPagesFrom (n : nat) (i max : Z) (pages : NumSet) : NumSet :=
  match n with
  | O => pages
  | S n' =>
      addPagesFrom n' (i + 1) max
        (if (0 <? i) && (i <=? max) then add (i - 1) pages else pages)
  end.

(** The body of [parts.forEach] in [parseRangeText]. *)
Definition parsePart (max : Z) (pages : NumSet) (part : string) : NumSet :=
  if includes "-" part then
    match map parseInt (split "-" part) with
    | Some start :: Some end_ :: _ =>
        let lo := Z.min start end_ in
        let hi := Z.max start end_ in
        addPagesFrom (Z.to_nat (hi - lo + 1)) lo max pages
    | _ => pages
    end
  else
    match parseInt part with
    | Some page =>
        if (0 <? page) && (page <=? max) then add (page - 1) pages
        else pages
    | None => pages
    end.

Definition parseRangeText (text : string) (max : Z) : list Z :=
  let parts := map trim (split "," text) in
  sort (fold_left (parsePart max) parts []).

(** *** Component state *)

Record PDFMetadata := {
  name : string;
  size : string;
  pageCount : Z;
  file : File
}.

Inductive SplitMode := range | all.

Record State := {
  pdfInfo : option PDFMetadata;
  splitMode : SplitMode;
  selectedPages : NumSet;
  rangeText : string;
  thumbnails : list string;
  isProcessing : bool;
  progress : Z;
  error : option string
}.

Definition setPdfInfo (v : option PDFMetadata) : M (St State) unit :=
  setState (fun c =>
    {| pdfInfo := v; splitMode := splitMode c;
       selectedPages := selectedPages c; rangeText := rangeText c;
       thumbnails := thumbnails c; isProcessing := isProcessing c;
       progress := progress c; error := error c |}).

Definition setSelectedPages (v : NumSet) : M (St State) unit :=
  setState (fun c =>
    {| pdfInfo := pdfInfo c; splitMode := splitMode c;
       selectedPages := v; rangeText := rangeText c;
       thumbnails := thumbnails c; isProcessing := isProcessing c;
       progress := progress c; error := error c |}).

Definition setRangeText (v : string) : M (St State) unit :=
  setState (fun c =>
    {| pdfInfo := pdfInfo c; splitMode := splitMode c;
       selectedPages := selectedPages c; rangeText := v;
       thumbnails := thumbnails c; isProcessing := isProcessing c;
       progress := progress c; error := error c |}).

Definition setThumbnails (v : list string) : M (St State) unit :=
  setState (fun c =>
    {| pdfInfo := pdfInfo c; splitMode := splitMode c;
       selectedPages := selectedPages c; rangeText := rangeText c;
       thumbnails := v; isProcessing := isProcessing c;
       progress := progress c; error := error c |}).

Definition setIsProcessing (v : bool) : M (St State) unit :=
  setState (fun c =>
    {| pdfInfo := pdfInfo c; splitMode := splitMode c;
       selectedPages := selectedPages c; rangeText := rangeText c;
       thumbnails := thumbnails c; isProcessing := v;
       progress := progress c; error := error c |}).

(** [setProgress]; the value also goes to the log, which keeps the
    sequence of values the readout was given. *)
Definition setProgress (v : Z) : M (St State) unit :=
  setState (fun c =>
    {| pdfInfo := pdfInfo c; splitMode := splitMode c;
       selectedPages := selectedPages c; rangeText := rangeText c;
       thumbnails := thumbnails c; isProcessing := isProcessing c;
       progress := v; error := error c |}) ;;
  emit (Progress v).

Definition setError (v : option string) : M (St State) unit :=
  setState (fun c =>
    {| pdfInfo := pdfInfo c; splitMode := splitMode c;
       selectedPages := selectedPages c; rangeText := rangeText c;
       thumbnails := thumbnails c; isProcessing := isProcessing c;
       progress := progress c; error := v |}).

(** [onClick] of the two mode buttons. *)
Definition setSplitMode (v : SplitMode) : M (St State) unit :=
  setState (fun c =>
    {| pdfInfo := pdfInfo c; splitMode := v;
       selectedPages := selectedPages c; rangeText := rangeText c;
       thumbnails := thumbnails c; isProcessing := isProcessing c;
       progress := progress c; error := error c |}).

(** *** Selection handlers *)

Definition togglePage (index : Z) : M (St State) unit :=
  selected <- gets (fun s => selectedPages (ui s)) ;;
  let newSet :=
    if has selected index then delete index selected
    else add index selected in
  setSelectedPages newSet ;;
  setRangeText (updateRangeFromSet newSet).

(** The [for] loop of [selectAll]. *)
Fixpoint allPages (n : nat) (i : Z) (all : NumSet) : NumSet :=
  match n with
  | O => all
  | S n' => allPages n' (i + 1) (add i all)
  end.

Definition selectAll : M (St State) unit :=
  info <- gets (fun s => pdfInfo (ui s)) ;;
  match info with
  | None => ret tt
  | Some info =>
      let all := allPages (Z.to_nat (pageCount info)) 0 [] in
      setSelectedPages all ;;
      setRangeText (updateRangeFromSet all)
  end.

Definition clearSelection : M (St State) unit :=
  setSelectedPages [] ;;
  setRangeText "".

(** [onChange] of the range text input. *)
Definition onRangeTextChange (value : string) : M (St State) unit :=
  setRangeText value.

(** [onClick] of the Clear button beside the title. *)
Definition onClearClick : M (St State) unit := setPdfInfo None.

Definition downloadBlob {C : Type} (blob : Blob) (filename : string)
  : M (St C) unit :=
  url <- createObjectURL blob ;;
  clickLink url filename ;;
  revokeObjectURL url.

Definition MAX_SIZE : Z := 100 * 1024 * 1024.

(** [indices] in [handleSplit]: the range text when there is one, the
    clicked set otherwise. *)
Definition resolveIndices (c : State) (info : PDFMetadata) : list Z :=
  match rangeText c with
  | EmptyString => selectedPages c
  | _ => parseRangeText (rangeText c) (pageCount info)
  end.

Section Handlers.
Variable fl : Q -> Q.
Variable L : Libs.

(** The thumbnail loop of [handleFileChange], [i] running up to
    [limit = Math.min(pdf.numPages, 50)]. *)
Fixpoint thumbLoop (f : File) (n : nat) (i limit : Z) (thumbs : list string)
  : M (St State) (list string) :=
  match n with
  | O => ret thumbs
  | S n' =>
      emit (RenderPage f i) ;;
      t <- orThrow (renderPage L f i) ;;
      setProgress
        (Math_round (fmul fl (fdiv fl (inject_Z i) (inject_Z limit)) 100)) ;;
      thumbLoop f n' (i + 1) limit (thumbs ++ [t])
  end.

(** [handleFileChange], given [e.target.files?.[0]]. *)
Definition handleFileChange (file0 : option File) : M (St State) unit :=
  match file0 with
  | None => ret tt
  | Some f =>
      if negb (String.eqb (type f) "application/pdf") then ret tt
      else if Browser.size f >? MAX_SIZE then
        setError (Some "File is too large for browser processing. Please use files under 100MB."%string)
      else
        setIsProcessing true ;;
        setError None ;;
        setThumbnails [] ;;
        setSelectedPages [] ;;
        setRangeText "" ;;
        tryFinally
          (tryCatch
             (emit (GetDocument f) ;;
              numPages <- orThrow (getDocument L f) ;;
              setPdfInfo (Some {| name := Browser.name f;
                                  size := formatSize L (Browser.size f);
                                  pageCount := numPages;
                                  file := f |}) ;;
              let limit := Z.min numPages 50 in
              thumbs <- thumbLoop f (Z.to_nat limit) 1 limit [] ;;
              setThumbnails thumbs)
             (setError (Some "Could not load PDF. It might be corrupted or protected."%string)))
          (setIsProcessing false ;; setProgress 0)
  end.

(** The loop of the burst branch of [handleSplit]. *)
Fixpoint burstLoop (src : Document) (n : nat) (i count : Z)
    (zip : list (string * Document))
  : M (St State) (list (string * Document)) :=
  match n with
  | O => ret zip
  | S n' =>
      copied <- orThrow (copyPages src [i]) ;;
      let newPdf := firstn 1 copied in
      emit (SaveDocument newPdf) ;;
      let entry := (("Page_" ++ toString (i + 1) ++ ".pdf")%string, newPdf) in
      setProgress
        (Math_round
           (fmul fl (fdiv fl (inject_Z (i + 1)) (inject_Z count)) 100)) ;;
      burstLoop src n' (i + 1) count (zip ++ [entry])
  end.

(** The timer callback armed in the [finally] of [handleSplit]. *)
Definition handleSplit_timeout : M (St State) unit :=
  setIsProcessing false ;; setProgress 0.

Definition handleSplit : M (St State) unit :=
  c <- gets (fun s => ui s) ;;
  match pdfInfo c with
  | None => ret tt
  | Some info =>
      setIsProcessing true ;;
      setProgress 0 ;;
      setError None ;;
      tryFinally
        (tryCatch
           (emit (LoadDocument (file info)) ;;
            sourcePdf <- orThrow (loadDocument L (file info)) ;;
            match splitMode c with
            | range =>
                let indices := resolveIndices c info in
                match indices with
                | [] =>
                    setError (Some "Please select at least one page to extract."%string) ;;
                    setIsProcessing false
                | _ :: _ =>
                    copiedPages <- orThrow (copyPages sourcePdf indices) ;;
                    let newPdf := copiedPages in
                    emit (SaveDocument newPdf) ;;
                    downloadBlob (PdfBlob newPdf)
                      ("Extracted_" ++ name info)%string ;;
                    setProgress 100
                end
            | all =>
                zip <- burstLoop sourcePdf (Z.to_nat (pageCount info)) 0
                         (pageCount info) [] ;;
                downloadBlob (ZipBlob zip)
                  (removeFirst ".pdf" (name info) ++ "_individual_pages.zip")%string
            end)
           (setError (Some "An error occurred during splitting."%string)))
        (emit (SetTimeout 500))
  end.
End Handlers.

End SplitPDF.


(** ** RotatePDF *)

Module RotatePDF.
Import JS Eff Browser.
Local Open Scope eff_scope.

Record PDFMetadata := {
  name : string;
  size : string;
  pageCount : Z;
  file : File
}.

Record State := {
  pdfInfo : option PDFMetadata;
  selectedPages : NumSet;
  thumbnails : list string;
  isProcessing : bool;
  rotationProgress : Z;
  error : option string
}.

Definition setPdfInfo (v : option PDFMetadata) : M (St State) unit :=
  setState (fun c =>
    {| pdfInfo := v; selectedPages := selectedPages c;
       thumbnails := thumbnails c; isProcessing := isProcessing c;
       rotationProgress := rotationProgress c; error := error c |}).

Definition setSelectedPages (v : NumSet) : M (St State) unit :=
  setState (fun c =>
    {| pdfInfo := pdfInfo c; selectedPages := v;
       thumbnails := thumbnails c; isProcessing := isProcessing c;
       rotationProgress := rotationProgress c; error := error c |}).

Definition setThumbnails (v : list string) : M (St State) unit :=
  setState (fun c =>
    {| pdfInfo := pdfInfo c; selectedPages := selectedPages c;
       thumbnails := v; isProcessing := isProcessing c;
       rotationProgress := rotationProgress c; error := error c |}).

Definition setIsProcessing (v : bool) : M (St State) unit :=
  setState (fun c =>
    {| pdfInfo := pdfInfo c; selectedPages := selectedPages c;
       thumbnails := thumbnails c; isProcessing := v;
       rotationProgress := rotationProgress c; error := error c |}).

Definition setRotationProgress (v : Z) : M (St State) unit :=
  setState (fun c =>
    {| pdfInfo := pdfInfo c; selectedPages := selectedPages c;
       thumbnails := thumbnails c; isProcessing := isProcessing c;
       rotationProgress := v; error := error c |}) ;;
  emit (Progress v).

Definition setError (v : option string) : M (St State) unit :=
  setState (fun c =>
    {| pdfInfo := pdfInfo c; selectedPages := selectedPages c;
       thumbnails := thumbnails c; isProcessing := isProcessing c;
       rotationProgress := rotationProgress c; error := v |}).

Definition togglePage (index : Z) : M (St State) unit :=
  selected <- gets (fun s => selectedPages (ui s)) ;;
  setSelectedPages
    (if has selected index then delete index selected
     else add index selected).

(** Modelled from the spec: [page.setRotation(angle)] of the document
    codec (section 6), which is not part of the sources. The angle
    replaces the page's rotation; the codec accepts multiples of 90
    only. *)
Definition setRotation (angle : Z) (p : Page) : option Page :=
  if angle mod 90 =? 0 then
    Some {| content := content p; width := width p; height := height p;
            rotation := angle; drawn := drawn p |}
  else None.

(** The body of [selectedPages.forEach] in [handleRotate]; [pages[i]] is
    [undefined] outside the document, and reading its rotation raises. *)
Definition rotateOne (angle : Z) (pages : Document) (pageIndex : Z)
  : option Document :=
  if pageIndex <? 0 then None
  else
    let k := Z.to_nat pageIndex in
    match nth_error pages k with
    | None => None
    | Some page =>
        match setRotation (rotation page + angle) page with
        | None => None
        | Some page' => Some (firstn k pages ++ page' :: skipn (S k) pages)
        end
    end.

Fixpoint rotateEach (angle : Z) (pages : Document) (selected : list Z)
  : option Document :=
  match selected with
  | [] => Some pages
  | i :: rest =>
      match rotateOne angle pages i with
      | None => None
      | Some pages' => rotateEach angle pages' rest
      end
  end.

Section Handlers.
Variable L : Libs.

Fixpoint thumbLoop (f : File) (n : nat) (i : Z) (thumbs : list string)
  : M (St State) (list string) :=
  match n with
  | O => ret thumbs
  | S n' =>
      emit (RenderPage f i) ;;
      t <- orThrow (renderPage L f i) ;;
      thumbLoop f n' (i + 1) (thumbs ++ [t])
  end.

Definition handleFileChange (file0 : option File) : M (St State) unit :=
  match file0 with
  | None => ret tt
  | Some f =>
      if negb (String.eqb (type f) "application/pdf") then ret tt
      else
        setIsProcessing true ;;
        setError None ;;
        setThumbnails [] ;;
        setSelectedPages [] ;;
        tryFinally
          (tryCatch
             (emit (GetDocument f) ;;
              numPages <- orThrow (getDocument L f) ;;
              setPdfInfo (Some {| name := Browser.name f;
                                  size := formatSize L (Browser.size f);
                                  pageCount := numPages;
                                  file := f |}) ;;
              let limit := Z.min numPages 50 in
              thumbs <- thumbLoop f (Z.to_nat limit) 1 [] ;;
              setThumbnails thumbs)
             (setError (Some "Could not load PDF. It might be corrupted or protected."%string)))
          (setIsProcessing false)
  end.

Definition handleRotate (angle : Z) : M (St State) unit :=
  c <- gets (fun s => ui s) ;;
  match pdfInfo c with
  | None => ret tt
  | Some info =>
      match selectedPages c with
      | [] => setError (Some "Please select at least one page to rotate."%string)
      | _ :: _ =>
          setIsProcessing true ;;
          setRotationProgress 0 ;;
          setError None ;;
          tryFinally
            (tryCatch
               (emit (LoadDocument (file info)) ;;
                pdfDoc <- orThrow (loadDocument L (file info)) ;;
                rotated <- orThrow (rotateEach angle pdfDoc (selectedPages c)) ;;
                emit (SaveDocument rotated) ;;
                url <- createObjectURL (PdfBlob rotated) ;;
                clickLink url ("Rotated_" ++ name info)%string ;;
                revokeObjectURL url)
               (setError (Some "An error occurred during rotation."%string)))
            (setIsProcessing false)
      end
  end.
End Handlers.

(** The [for] loop of [selectAll]. *)
Fixpoint allPages (n : nat) (i : Z) (all : NumSet) : NumSet :=
  match n with
  | O => all
  | S n' => allPages n' (i + 1) (add i all)
  end.

Definition selectAll : M (St State) unit :=
  info <- gets (fun s => pdfInfo (ui s)) ;;
  match info with
  | None => ret tt
  | Some info => setSelectedPages (allPages (Z.to_nat (pageCount info)) 0 [])
  end.

(** [onClick] of Deselect All. *)
Definition deselectAll : M (St State) unit := setSelectedPages [].

End RotatePDF.

(** ** MergePDF *)

Module MergePDF.
Import JS Eff Browser.
Local Open Scope eff_scope.

Record FileItem := {
  id : string;
  file : File;
  name : string;
  size : string;
  sizeRaw : Z
}.

Inductive Position :=
| bottom_center | bottom_right | bottom_left
| top_right | top_left | top_center.

Record NumberingOptions := {
  enabled : bool;
  position : Position;
  fontSize : Q;
  color : string
}.

Record State := {
  files : list FileItem;
  isMerging : bool;
  mergeProgress : Z;
  isDraggingOver : bool;
  draggedIndex : option Z;
  errorMessage : option string;
  showOptions : bool;
  options : NumberingOptions
}.

Definition setFiles (v : list FileItem) : M (St State) unit :=
  setState (fun c =>
    {| files := v; isMerging := isMerging c;
       mergeProgress := mergeProgress c; isDraggingOver := isDraggingOver c;
       draggedIndex := draggedIndex c; errorMessage := errorMessage c;
       showOptions := showOptions c; options := options c |}).

Definition setIsMerging (v : bool) : M (St State) unit :=
  setState (fun c =>
    {| files := files c; isMerging := v;
       mergeProgress := mergeProgress c; isDraggingOver := isDraggingOver c;
       draggedIndex := draggedIndex c; errorMessage := errorMessage c;
       showOptions := showOptions c; options := options c |}).

Definition setMergeProgress (v : Z) : M (St State) unit :=
  setState (fun c =>
    {| files := files c; isMerging := isMerging c;
       mergeProgress := v; isDraggingOver := isDraggingOver c;
       draggedIndex := draggedIndex c; errorMessage := errorMessage c;
       showOptions := showOptions c; options := options c |}) ;;
  emit (Progress v).

Definition setDraggedIndex (v : option Z) : M (St State) unit :=
  setState (fun c =>
    {| files := files c; isMerging := isMerging c;
       mergeProgress := mergeProgress c; isDraggingOver := isDraggingOver c;
       draggedIndex := v; errorMessage := errorMessage c;
       showOptions := showOptions c; options := options c |}).

(** *** Reordering the queue *)

Inductive Direction := up | down.

Definition moveFile (id0 : string) (direction : Direction)
  : M (St State) unit :=
  files0 <- gets (fun s => files (ui s)) ;;
  let index := findIndex (fun f => String.eqb (id f) id0) files0 in
  if index <? 0 then ret tt
  else
    let newFiles := files0 in
    let targetIndex :=
      match direction with
      | up => index - 1
      | down => index + 1
      end in
    if (targetIndex >=? 0) && (targetIndex <? Z.of_nat (List.length newFiles))
    then
      match item newFiles targetIndex, item newFiles index with
      | Some a, Some b =>
          setFiles (assign (assign newFiles index a) targetIndex b)
      | _, _ => ret tt
      end
    else ret tt.

Definition onDragStartItem (index : Z) : M (St State) unit :=
  setDraggedIndex (Some index).

(** [onDragOverItem]. When [draggedIndex] is outside the array,
    [newFiles[draggedIndex]] is [undefined]; the handler would splice
    it into the list and the next render, which reads [item.id], would
    raise. The model raises there. *)
Definition onDragOverItem (index : Z) : M (St State) unit :=
  c <- gets (fun s => ui s) ;;
  match draggedIndex c with
  | None => ret tt
  | Some dragged =>
      if dragged =? index then ret tt
      else
        let newFiles := files c in
        draggedItem <- orThrow (item newFiles dragged) ;;
        let newFiles := splice newFiles dragged 1 [] in
        let newFiles := splice newFiles index 0 [draggedItem] in
        setDraggedIndex (Some index) ;;
        setFiles newFiles
  end.

Definition onDragEndItem : M (St State) unit := setDraggedIndex None.

(** *** Merging *)

(** [pdf.getPageIndices()] *)
Definition getPageIndices (doc : Document) : list Z :=
  map Z.of_nat (seq 0 (List.length doc)).

(** Modelled from the spec: the codec's text drawing "with
    font/size/color/position" (section 6), which is not part of the
    sources. [page.drawText(text, options)] adds one text to the page. *)
Definition drawText (p : Page) (t : Text) : Page :=
  {| content := content p; width := width p; height := height p;
     rotation := rotation p; drawn := drawn p ++ [t] |}.

Definition hexPair (a b : ascii) : option Z :=
  match digitValue a, digitValue b with
  | Some h, Some l => if (h <? 16) && (l <? 16) then Some (16 * h + l) else None
  | _, _ => None
  end.

Section Handlers.
Variable fl : Q -> Q.
Variable L : Libs.

(** [hexToRgb]: an optional [#] and exactly six hexadecimal digits. *)
Definition hexToRgb (hex : string) : Q * Q * Q :=
  let body := match hex with
              | String "#"%char r => r
              | _ => hex
              end in
  match body with
  | String a (String b (String c (String d (String e (String f EmptyString))))) =>
      match hexPair a b, hexPair c d, hexPair e f with
      | Some r, Some g, Some bl =>
          (fdiv fl (inject_Z r) 255, fdiv fl (inject_Z g) 255,
           fdiv fl (inject_Z bl) 255)
      | _, _, _ => (0, 0, 0)%Q
      end
  | _ => (0, 0, 0)%Q
  end.

(** The first loop of [handleMerge], over [files[i..]]. *)
Fixpoint mergeLoop (items : list FileItem) (i len : Z) (mergedPdf : Document)
  : M (St State) Document :=
  match items with
  | [] => ret mergedPdf
  | item :: rest =>
      emit (LoadDocument (file item)) ;;
      pdf <- orThrow (loadDocument L (file item)) ;;
      copiedPages <- orThrow (copyPages pdf (getPageIndices pdf)) ;;
      let mergedPdf := mergedPdf ++ copiedPages in
      setMergeProgress
        (Math_round (fmul fl (fdiv fl (inject_Z (i + 1)) (inject_Z len)) 50)) ;;
      mergeLoop rest (i + 1) len mergedPdf
  end.

(** Where the label goes: the [switch] on [options.position]. *)
Definition labelPosition (pos : Position) (width height textWidth fontSize : Q)
  : Q * Q :=
  let margin := 20%Q in
  match pos with
  | bottom_center =>
      (fsub fl (fdiv fl width 2) (fdiv fl textWidth 2), margin)
  | bottom_right =>
      (fsub fl (fsub fl width textWidth) margin, margin)
  | bottom_left => (margin, margin)
  | top_center =>
      (fsub fl (fdiv fl width 2) (fdiv fl textWidth 2),
       fsub fl (fsub fl height margin) fontSize)
  | top_right =>
      (fsub fl (fsub fl width textWidth) margin,
       fsub fl (fsub fl height margin) fontSize)
  | top_left => (margin, fsub fl (fsub fl height margin) fontSize)
  end.

Definition pageLabel (i totalPages : Z) : string :=
  ("Page " ++ toString (i + 1) ++ " of " ++ toString totalPages)%string.

(** One iteration of the numbering loop, up to [drawText]. *)
Definition numberPage (opts : NumberingOptions) (totalPages i : Z) (page : Page)
  : Page :=
  let text := pageLabel i totalPages in
  let textWidth := widthOfTextAtSize L text (fontSize opts) in
  let '(x, y) :=
    labelPosition (position opts) (width page) (height page) textWidth
      (fontSize opts) in
  drawText page
    {| text := text; x := x; y := y; textSize := fontSize opts;
       Browser.color := hexToRgb (color opts) |}.

(** The numbering loop of [handleMerge], over [pages[i..]]. *)
Fixpoint numberLoop (opts : NumberingOptions) (pages : list Page)
    (i totalPages : Z) (numbered : list Page) : M (St State) (list Page) :=
  match pages with
  | [] => ret numbered
  | page :: rest =>
      let page' := numberPage opts totalPages i page in
      setMergeProgress
        (50 + Math_round
                (fmul fl (fdiv fl (inject_Z (i + 1)) (inject_Z totalPages)) 50)) ;;
      numberLoop opts rest (i + 1) totalPages (numbered ++ [page'])
  end.

(** The timer callback armed at the end of a successful merge. *)
Definition handleMerge_timeout : M (St State) unit := setIsMerging false.

Definition handleMerge : M (St State) unit :=
  c <- gets (fun s => ui s) ;;
  if Z.of_nat (List.length (files c)) <? 2 then
    emit (Alert "Please add at least two PDF files to merge.")
  else
    setIsMerging true ;;
    setMergeProgress 0 ;;
    tryCatch
      (mergedPdf <- mergeLoop (files c) 0 (Z.of_nat (List.length (files c))) [] ;;
       mergedPdf <-
         (if enabled (options c) then
            numberLoop (options c) mergedPdf 0
              (Z.of_nat (List.length mergedPdf)) []
          else
            setMergeProgress 100 ;; ret mergedPdf) ;;
       emit (SaveDocument mergedPdf) ;;
       url <- createObjectURL (PdfBlob mergedPdf) ;;
       t <- gets (fun s => now (world s)) ;;
       clickLink url ("Noobu_Merged_" ++ toString t ++ ".pdf")%string ;;
       emit (SetTimeout 500))
      (emit (Alert "Failed to merge PDFs. Please ensure files are not password protected.") ;;
       setIsMerging false).
End Handlers.

(** *** Admission to the queue and removal from it *)

Definition MAX_FILE_SIZE_MB : Z := 50.
Definition MAX_FILE_SIZE_BYTES : Z := MAX_FILE_SIZE_MB * 1024 * 1024.

Definition setErrorMessage (v : option string) : M (St State) unit :=
  setState (fun c =>
    {| files := files c; isMerging := isMerging c;
       mergeProgress := mergeProgress c; isDraggingOver := isDraggingOver c;
       draggedIndex := draggedIndex c; errorMessage := v;
       showOptions := showOptions c; options := options c |}).

Definition setIsDraggingOver (v : bool) : M (St State) unit :=
  setState (fun c =>
    {| files := files c; isMerging := isMerging c;
       mergeProgress := mergeProgress c; isDraggingOver := v;
       draggedIndex := draggedIndex c; errorMessage := errorMessage c;
       showOptions := showOptions c; options := options c |}).

Definition isPdf (f : File) : bool := String.eqb (type f) "application/pdf".

Section Admission.
Variable L : Libs.

(** [randomId k] is what [Math.random().toString(36).substr(2, 9)] gives
    the [k]-th time it is evaluated during one call of [addFiles]. *)
Variable randomId : nat -> string.

(** [validFiles.map(f => ({ id, file, name, size, sizeRaw }))], from the
    [k]-th file on. *)
Fixpoint newItemsFrom (k : nat) (validFiles : list File) : list FileItem :=
  match validFiles with
  | [] => []
  | f :: rest =>
      {| id := randomId k; file := f; name := Browser.name f;
         size := formatSize L (Browser.size f); sizeRaw := Browser.size f |}
      :: newItemsFrom (S k) rest
  end.

Definition addFiles (newFiles : list File) : M (St State) unit :=
  setErrorMessage None ;;
  let pdfFiles := filter isPdf newFiles in
  let tooLarge :=
    filter (fun f => Browser.size f >? MAX_FILE_SIZE_BYTES) pdfFiles in
  (if 0 <? Z.of_nat (List.length tooLarge) then
     setErrorMessage
       (Some (toString (Z.of_nat (List.length tooLarge))
              ++ " file(s) skipped. Maximum size per file is "
              ++ toString MAX_FILE_SIZE_MB ++ "MB.")%string)
   else ret tt) ;;
  let validFiles :=
    filter (fun f => Browser.size f <=? MAX_FILE_SIZE_BYTES) pdfFiles in
  let newItems := newItemsFrom 0 validFiles in
  prev <- gets (fun s => files (ui s)) ;;
  setFiles (prev ++ newItems).

(** [handleFileChange], given [e.target.files]. *)
Definition handleFileChange (files0 : option (list File)) : M (St State) unit :=
  match files0 with
  | Some fs => addFiles fs
  | None => ret tt
  end.

Definition onMainDragOver : M (St State) unit := setIsDraggingOver true.
Definition onMainDragLeave : M (St State) unit := setIsDraggingOver false.

(** [onMainDrop], given [e.dataTransfer.files]. *)
Definition onMainDrop (files0 : option (list File)) : M (St State) unit :=
  setIsDraggingOver false ;;
  match files0 with
  | Some fs => addFiles fs
  | None => ret tt
  end.
End Admission.

Definition removeFile (id0 : string) : M (St State) unit :=
  prev <- gets (fun s => files (ui s)) ;;
  setFiles (filter (fun f => negb (String.eqb (id f) id0)) prev).

(** [onClick] of Clear All. *)
Definition onClearAll : M (St State) unit :=
  setFiles [] ;; setErrorMessage None.

End MergePDF.

(** ** JPGToPDF: the image queue and its previews *)

Module JPGToPDF.
Import JS Eff Browser.
Local Open Scope eff_scope.

Record ImageItem := {
  id : string;
  file : File;
  preview : nat   (* the object URL shown as the thumbnail *)
}.

Inductive PageLayout := original | a4.
Inductive PageMargin := none | small | large.

Record State := {
  images : list ImageItem;
  isProcessing : bool;
  layout : PageLayout;
  margin : PageMargin
}.

(** The mounted component and the object URLs that stand for files:
    those created and not revoked, oldest first. *)
Record St := mkSt {
  ui : State;
  fileURLs : list (nat * File);
  nextURL : nat
}.

Definition setImages (v : list ImageItem) : M St unit :=
  modify (fun s =>
    mkSt {| images := v; isProcessing := isProcessing (ui s);
            layout := layout (ui s); margin := margin (ui s) |}
         (fileURLs s) (nextURL s)).

(** [URL.createObjectURL(f)] for a file. *)
Definition createObjectURL (f : File) : M St nat :=
  u <- gets nextURL ;;
  modify (fun s => mkSt (ui s) (fileURLs s ++ [(u, f)]) (S u)) ;;
  ret u.

(** [URL.revokeObjectURL(url)] *)
Definition revokeObjectURL (u : nat) : M St unit :=
  modify (fun s =>
    mkSt (ui s) (filter (fun e => negb (Nat.eqb (fst e) u)) (fileURLs s))
         (nextURL s)).

Section Previews.
(** [randomId k] is what [Math.random().toString(36).substr(2, 9)] gives
    the [k]-th time it is evaluated during one call of
    [handleFileChange]. *)
Variable randomId : nat -> string.

(** [Array.from(e.target.files).map(f => ({ id, file, preview }))], from
    the [k]-th file on. *)
Fixpoint newImagesFrom (k : nat) (fs : list File) : M St (list ImageItem) :=
  match fs with
  | [] => ret []
  | f :: rest =>
      u <- createObjectURL f ;;
      items <- newImagesFrom (S k) rest ;;
      ret ({| id := randomId k; file := f; preview := u |} :: items)
  end.

(** [handleFileChange], given [e.target.files]. *)
Definition handleFileChange (files0 : option (list File)) : M St unit :=
  match files0 with
  | Some fs =>
      newImages <- newImagesFrom 0 fs ;;
      prev <- gets (fun s => images (ui s)) ;;
      setImages (prev ++ newImages)
  | None => ret tt
  end.
End Previews.

Definition removeImage (id0 : string) : M St unit :=
  prev <- gets (fun s => images (ui s)) ;;
  let filtered := filter (fun img => negb (String.eqb (id img) id0)) prev in
  let removed := find (fun img => String.eqb (id img) id0) prev in
  match removed with
  | Some removed => revokeObjectURL (preview removed)
  | None => ret tt
  end ;;
  setImages filtered.

End JPGToPDF.

(** ** Vocabulary of the statements *)

Module Spec.
Import JS Browser.

(** Every code unit of [s] satisfies [p]. *)
Fixpoint allChars (p : ascii -> bool) (s : string) : bool :=
  match s with
  | EmptyString => true
  | String c s' => p c && allChars p s'
  end.

Definition isDigit (c : ascii) : bool :=
  let n := nat_of_ascii c in ((48 <=? n) && (n <=? 57))%nat.

Definition isTokenChar (c : ascii) : bool :=
  isDigit c || Ascii.eqb c "-".

(** [start; start + 1; ...], [n] numbers. *)
Fixpoint zrange (start : Z) (n : nat) : list Z :=
  match n with
  | O => []
  | S n' => start :: zrange (start + 1) n'
  end.

(** The runs [(start, end)] that [updateRangeFromSet] finds, as
    [SplitPDF.rangesLoop] pushes their tokens. *)
Fixpoint runsLoop (rest : list Z) (start end_ : Z) (runs : list (Z * Z))
  : list (Z * Z) :=
  match rest with
  | [] => runs ++ [(start, end_)]
  | x :: rest' =>
      if x =? end_ + 1 then runsLoop rest' start x runs
      else runsLoop rest' x x (runs ++ [(start, end_)])
  end.

Definition runToken (r : Z * Z) : string := SplitPDF.rangeToken (fst r) (snd r).

Definition runPages (r : Z * Z) : list Z :=
  zrange (fst r) (Z.to_nat (snd r - fst r + 1)).

(** The values given to the progress readout, oldest first. *)
Fixpoint progressValues (l : list Event) : list Z :=
  match l with
  | [] => []
  | Progress p :: l' => p :: progressValues l'
  | _ :: l' => progressValues l'
  end.

(** The downloads triggered, oldest first. *)
Fixpoint downloads (l : list Event) : list (Blob * string) :=
  match l with
  | [] => []
  | Download _ b n :: l' => (b, n) :: downloads l'
  | _ :: l' => downloads l'
  end.

(** The documents handed to a decoder ([getDocument] or [load]). *)
Fixpoint decoded (l : list Event) : list File :=
  match l with
  | [] => []
  | GetDocument f :: l' => f :: decoded l'
  | LoadDocument f :: l' => f :: decoded l'
  | _ :: l' => decoded l'
  end.

Fixpoint saved (l : list Event) : list Document :=
  match l with
  | [] => []
  | SaveDocument d :: l' => d :: saved l'
  | _ :: l' => saved l'
  end.

Fixpoint nondecreasing (l : list Z) : Prop :=
  match l with
  | [] => True
  | a :: l' => match l' with
               | [] => True
               | b :: _ => a <= b
               end /\ nondecreasing l'
  end.

(** [Math.round((i / n) * w)], the share of [w] that [i] of [n] steps
    have earned, as the handlers write it. *)
Definition share (fl : Q -> Q) (i n : Z) (w : Q) : Z :=
  Math_round (fmul fl (fdiv fl (inject_Z i) (inject_Z n)) w).

(** A selection over a document of [N] pages. *)
Definition validSelection (S : NumSet) (N : Z) : Prop :=
  NoDup S /\ forall i, In i S -> 0 <= i < N.

(** The range text of [SplitPDF], parsed against the page count, is the
    selected set. *)
Definition synced (c : SplitPDF.State) : Prop :=
  match SplitPDF.pdfInfo c with
  | Some info =>
      SplitPDF.parseRangeText (SplitPDF.rangeText c) (SplitPDF.pageCount info)
      = sort (SplitPDF.selectedPages c)
  | None => True
  end.

(** The part of [SplitPDF]'s state that describes the loaded document. *)
Definition splitDocState (c : SplitPDF.State) :=
  (SplitPDF.pdfInfo c, SplitPDF.thumbnails c, SplitPDF.selectedPages c,
   SplitPDF.rangeText c).

Definition rotateDocState (c : RotatePDF.State) :=
  (RotatePDF.pdfInfo c, RotatePDF.thumbnails c, RotatePDF.selectedPages c).

(** [l] without its element at position [k]. *)
Definition without {A : Type} (k : nat) (l : list A) : list A :=
  firstn k l ++ skipn (S k) l.

(** The values the readout gets from a loop that reports [share] after
    each of [k] steps, the counter standing at [i] before the first. *)
Fixpoint shares (fl : Q -> Q) (k : nat) (i n : Z) (w : Q) : list Z :=
  match k with
  | O => []
  | S k' => share fl (i + 1) n w :: shares fl k' (i + 1) n w
  end.

(** The pages of the numbering pass, page [i] first. *)
Fixpoint numberFrom (fl : Q -> Q) (L : Libs) (opts : MergePDF.NumberingOptions)
    (totalPages i : Z) (pages : list Page) : list Page :=
  match pages with
  | [] => []
  | page :: rest =>
      MergePDF.numberPage fl L opts totalPages i page
      :: numberFrom fl L opts totalPages (i + 1) rest
  end.

(** Between [st] and [st'] a handler of MergePDF has done no more than
    report progress and call the decoder. *)
Definition mergeFrame (st st' : St MergePDF.State) : Prop :=
  MergePDF.files (ui st') = MergePDF.files (ui st) /\
  MergePDF.options (ui st') = MergePDF.options (ui st) /\
  liveURLs (world st') = liveURLs (world st) /\
  nextURL (world st') = nextURL (world st) /\
  now (world st') = now (world st) /\
  downloads (log (world st')) = downloads (log (world st)) /\
  saved (log (world st')) = saved (log (world st)).

(** The same for SplitPDF. *)
Definition splitFrame (st st' : St SplitPDF.State) : Prop :=
  splitDocState (ui st') = splitDocState (ui st) /\
  SplitPDF.splitMode (ui st') = SplitPDF.splitMode (ui st) /\
  liveURLs (world st') = liveURLs (world st) /\
  nextURL (world st') = nextURL (world st) /\
  downloads (log (world st')) = downloads (log (world st)).

(** Every queued file decodes, [docs] being the documents in order. *)
Definition allLoad (L : Libs) (items : list MergePDF.FileItem)
    (docs : list Document) : Prop :=
  Forall2 (fun item doc => loadDocument L (MergePDF.file item) = Some doc)
    items docs.

(** Runs that follow a run ending at [prev], each starting at least two
    after the end of the one before. *)
Fixpoint separatedFrom (prev : Z) (runs : list (Z * Z)) : Prop :=
  match runs with
  | [] => True
  | r :: rest => prev + 1 < fst r /\ fst r <= snd r /\ separatedFrom (snd r) rest
  end.

(** Runs in ascending order that could not be merged any further. *)
Definition separated (runs : list (Z * Z)) : Prop :=
  match runs with
  | [] => True
  | r :: rest => fst r <= snd r /\ separatedFrom (snd r) rest
  end.

(** A page turned by [angle] more. *)
Definition turned (angle : Z) (p : Page) : Page :=
  {| content := content p; width := width p; height := height p;
     rotation := rotation p + angle; drawn := drawn p |}.

(** The entry the burst puts in the archive for page [i] (from 0). *)
Definition burstEntry (i : nat) (p : Page) : string * Document :=
  (("Page_" ++ toString (Z.of_nat i + 1) ++ ".pdf")%string, [p]).

(** [burstEntry] for the pages of a document, page [i] first. *)
Fixpoint burstEntries (i : nat) (pages : list Page) : list (string * Document) :=
  match pages with
  | [] => []
  | p :: rest => burstEntry i p :: burstEntries (S i) rest
  end.

(** Between [st] and [st'] SplitPDF has done no more than report
    progress and render pages. *)
Definition splitQuiet (st st' : St SplitPDF.State) : Prop :=
  splitFrame st st' /\
  SplitPDF.isProcessing (ui st') = SplitPDF.isProcessing (ui st) /\
  SplitPDF.error (ui st') = SplitPDF.error (ui st) /\
  decoded (log (world st')) = decoded (log (world st)) /\
  saved (log (world st')) = saved (log (world st)).

(** Between [st] and [st'] RotatePDF has done no more than render
    pages. *)
Definition rotateQuiet (st st' : St RotatePDF.State) : Prop :=
  ui st' = ui st /\
  liveURLs (world st') = liveURLs (world st) /\
  nextURL (world st') = nextURL (world st) /\
  downloads (log (world st')) = downloads (log (world st)) /\
  decoded (log (world st')) = decoded (log (world st)) /\
  saved (log (world st')) = saved (log (world st)).

(** [ts] are the renders of pages [i], [i + 1], ... of [f]. *)
Definition rendersFrom (L : Libs) (f : File) (i : Z) (ts : list string) : Prop :=
  Forall2 (fun j t => renderPage L f j = Some t)
    (zrange i (List.length ts)) ts.

(** The texts [parseInt] is given for one part of a range text: the
    pieces around "-" when the part has one, the part itself
    otherwise. *)
Definition partNumerals (part : string) : list string :=
  if includes "-"%char part then split "-"%char part else [part].

(** [Number.MAX_SAFE_INTEGER] *)
Definition MAX_SAFE_INTEGER : Z := 2 ^ 53 - 1.

(** Every number written in [text] is at most [MAX_SAFE_INTEGER] in
    absolute value: [parseInt] then reads it exactly and the loop over a
    range ends. *)
Definition safeText (text : string) : bool :=
  forallb
    (fun part =>
       forallb
         (fun piece =>
            match parseInt piece with
            | Some v => Z.abs v <=? MAX_SAFE_INTEGER
            | None => true
            end)
         (partNumerals part))
    (map trim (split ","%char text)).

(** The preview of a queued image, as the browser holds it. *)
Definition previewOf (it : JPGToPDF.ImageItem) : nat * File :=
  (JPGToPDF.preview it, JPGToPDF.file it).

(** The object URLs alive are the previews of the queued images, one
    each, in queue order, and no URL number is in use twice or still to
    be handed out. *)
Definition previewsTracked (s : JPGToPDF.St) : Prop :=
  map previewOf (JPGToPDF.images (JPGToPDF.ui s)) = JPGToPDF.fileURLs s /\
  NoDup (map fst (JPGToPDF.fileURLs s)) /\
  forall e, In e (JPGToPDF.fileURLs s) -> (fst e < JPGToPDF.nextURL s)%nat.

(** What one run of [RotatePDF.handleRotate] hands to the browser, read
    off the loaded document and the selection. *)
Definition rotateOutput (L : Libs) (c : RotatePDF.State) (angle : Z)
  : list (Blob * string) :=
  match RotatePDF.pdfInfo c, RotatePDF.selectedPages c with
  | Some info, _ :: _ =>
      match loadDocument L (RotatePDF.file info) with
      | Some doc =>
          match RotatePDF.rotateEach angle doc (RotatePDF.selectedPages c) with
          | Some rotated =>
              [(PdfBlob rotated, ("Rotated_" ++ RotatePDF.name info)%string)]
          | None => []
          end
      | None => []
      end
  | _, _ => []
  end.

End Spec.

(** ** Sample files and states, for evaluating the handlers *)

Module Sample.
Import JS Eff Browser.

(** Exact arithmetic as the rounding function. *)
Definition exact (x : Q) : Q := x.

Definition page (k : nat) : Page :=
  {| content := k; width := 612; height := 792; rotation := 0; drawn := [] |}.

Definition pagesOf (f : File) : option Document :=
  match data f with
  | 1%nat => Some [page 10; page 11; page 12; page 13; page 14]
  | 2%nat => Some [page 20; page 21]
  | 3%nat => Some [page 30; page 31; page 32]
  | 4%nat => Some [page 40]
  | _ => None
  end.

Definition report : File :=
  {| name := "report.pdf"; type := "application/pdf"; size := 2048; data := 1 |}.
Definition notes : File :=
  {| name := "notes.pdf"; type := "application/pdf"; size := 1024; data := 2 |}.
Definition appendix : File :=
  {| name := "appendix.pdf"; type := "application/pdf"; size := 4096; data := 3 |}.
Definition huge : File :=
  {| name := "huge.pdf"; type := "application/pdf";
     size := 100 * 1024 * 1024 + 1; data := 4 |}.
Definition corrupt : File :=
  {| name := "corrupt.pdf"; type := "application/pdf"; size := 512; data := 0 |}.

Definition libs : Libs :=
  {| getDocument := fun f => option_map (fun d => Z.of_nat (List.length d)) (pagesOf f);
     renderPage := fun f i => Some ("thumb" ++ toString i)%string;
     loadDocument := pagesOf;
     widthOfTextAtSize := fun t s => (inject_Z (Z.of_nat (String.length t)) * s / 2)%Q;
     formatSize := fun n => (toString n ++ " Bytes")%string |}.

(** Libraries whose reader opens a file that the codec rejects, as with
    an encrypted document. *)
Definition strictLibs : Libs :=
  {| getDocument := getDocument libs;
     renderPage := renderPage libs;
     loadDocument := fun _ => None;
     widthOfTextAtSize := widthOfTextAtSize libs;
     formatSize := formatSize libs |}.

Definition photo : File :=
  {| name := "photo.jpg"; type := "image/jpeg"; size := 300; data := 7 |}.
Definition scan : File :=
  {| name := "scan.png"; type := "image/png"; size := 900; data := 8 |}.

(** JPGToPDF as mounted. *)
Definition jpg0 : JPGToPDF.St :=
  JPGToPDF.mkSt
    {| JPGToPDF.images := []; JPGToPDF.isProcessing := false;
       JPGToPDF.layout := JPGToPDF.a4; JPGToPDF.margin := JPGToPDF.small |}
    [] 0.

Definition world0 : World :=
  {| log := []; liveURLs := []; nextURL := 0; now := 1700000000000 |}.

(** The components as mounted. *)
Definition split0 : St SplitPDF.State :=
  mkSt {| SplitPDF.pdfInfo := None; SplitPDF.splitMode := SplitPDF.range;
          SplitPDF.selectedPages := []; SplitPDF.rangeText := "";
          SplitPDF.thumbnails := []; SplitPDF.isProcessing := false;
          SplitPDF.progress := 0; SplitPDF.error := None |} world0.

Definition rotate0 : St RotatePDF.State :=
  mkSt {| RotatePDF.pdfInfo := None; RotatePDF.selectedPages := [];
          RotatePDF.thumbnails := []; RotatePDF.isProcessing := false;
          RotatePDF.rotationProgress := 0; RotatePDF.error := None |} world0.

Definition queued (k : string) (f : File) : MergePDF.FileItem :=
  {| MergePDF.id := k; MergePDF.file := f; MergePDF.name := name f;
     MergePDF.size := formatSize libs (size f); MergePDF.sizeRaw := size f |}.

Definition merge0 (numbering : bool) (q : list MergePDF.FileItem)
  : St MergePDF.State :=
  mkSt {| MergePDF.files := q; MergePDF.isMerging := false;
          MergePDF.mergeProgress := 0; MergePDF.isDraggingOver := false;
          MergePDF.draggedIndex := None; MergePDF.errorMessage := None;
          MergePDF.showOptions := false;
          MergePDF.options :=
            {| MergePDF.enabled := numbering;
               MergePDF.position := MergePDF.bottom_center;
               MergePDF.fontSize := 10; MergePDF.color := "#6366f1" |} |}
       world0.

Definition reportInfo : SplitPDF.PDFMetadata :=
  {| SplitPDF.name := "report.pdf"; SplitPDF.size := "2048 Bytes";
     SplitPDF.pageCount := 5; SplitPDF.file := report |}.

(** [report.pdf] loaded into SplitPDF. *)
Definition splitLoaded : St SplitPDF.State :=
  exec (SplitPDF.handleFileChange exact libs (Some report)) split0.

Definition reportPages : Document :=
  [page 10; page 11; page 12; page 13; page 14].

Definition rotateReportInfo : RotatePDF.PDFMetadata :=
  {| RotatePDF.name := "report.pdf"; RotatePDF.size := "2048 Bytes";
     RotatePDF.pageCount := 5; RotatePDF.file := report |}.

(** [report.pdf] loaded into RotatePDF. *)
Definition rotateLoaded : St RotatePDF.State :=
  exec (RotatePDF.handleFileChange libs (Some report)) rotate0.

End Sample.

(** * Properties *)

Arguments JS.digitChar : simpl never.
Arguments JS.digitValue : simpl never.
Arguments JS.isWhiteSpace : simpl never.
Arguments JS.toString : simpl never.
Arguments Spec.isDigit : simpl never.

(** ** Sorting and sets *)

Section SortFacts.
Import JS.

Lemma insert_perm (x : Z) (l : list Z) : Permutation (insert x l) (x :: l).
Proof.
  induction l as [|y l IH]; simpl; [reflexivity|].
  destruct (x <? y); [reflexivity|].
  rewrite IH. apply perm_swap.
Qed.

Lemma fold_insert_perm (l acc : list Z) :
  Permutation (fold_left (fun a x => insert x a) l acc) (acc ++ l).
Proof.
  revert acc. induction l as [|x l IH]; intros acc; simpl.
  - now rewrite app_nil_r.
  - rewrite IH, insert_perm.
    change (x :: acc) with ([x] ++ acc).
    rewrite <- Permutation_middle. reflexivity.
Qed.

Lemma sort_perm (l : list Z) : Permutation (sort l) l.
Proof. unfold sort. now rewrite fold_insert_perm. Qed.

Lemma insert_sorted (x : Z) (l : list Z) :
  StronglySorted Z.le l -> StronglySorted Z.le (insert x l).
Proof.
  induction 1 as [|y l Hs IH Hy]; simpl.
  - repeat constructor.
  - destruct (x <? y) eqn:E.
    + apply Z.ltb_lt in E. constructor; [now constructor|].
      constructor; [lia|]. eapply Forall_impl; [|exact Hy]. simpl; lia.
    + apply Z.ltb_ge in E. constructor; [exact IH|].
      eapply Permutation_Forall; [symmetry; apply insert_perm|].
      now constructor.
Qed.

Lemma sort_sorted (l : list Z) : StronglySorted Z.le (sort l).
Proof.
  unfold sort.
  assert (H : forall acc, StronglySorted Z.le acc ->
              StronglySorted Z.le (fold_left (fun a x => insert x a) l acc)).
  { induction l as [|x l IH]; intros acc Ha; simpl; [exact Ha|].
    apply IH, insert_sorted, Ha. }
  apply H. constructor.
Qed.

Lemma insert_last (x : Z) (l : list Z) :
  Forall (fun y => y <= x) l -> insert x l = l ++ [x].
Proof.
  induction 1 as [|y l Hy _ IH]; simpl; [reflexivity|].
  destruct (x <? y) eqn:E; [apply Z.ltb_lt in E; lia|].
  now rewrite IH.
Qed.

Lemma fold_insert_sorted (l acc : list Z) :
  StronglySorted Z.le (acc ++ l) ->
  fold_left (fun a x => insert x a) l acc = acc ++ l.
Proof.
  revert acc. induction l as [|x l IH]; intros acc H; simpl.
  - now rewrite app_nil_r.
  - assert (Hx : Forall (fun y => y <= x) acc).
    { clear IH. induction acc as [|a acc IHa]; [constructor|].
      simpl in H. inversion H as [|? ? Hs Hf]; subst.
      constructor.
      - rewrite Forall_forall in Hf. apply Hf, in_or_app. right. now left.
      - now apply IHa. }
    rewrite (insert_last _ _ Hx).
    rewrite IH; rewrite <- app_assoc; [reflexivity|exact H].
Qed.

(** Sorting an ascending array changes nothing. *)
Lemma sort_id (l : list Z) : StronglySorted Z.le l -> sort l = l.
Proof. intros H. unfold sort. now rewrite fold_insert_sorted. Qed.

Lemma sort_NoDup (l : list Z) : NoDup l -> NoDup (sort l).
Proof.
  intros H. eapply Permutation_NoDup; [symmetry; apply sort_perm|exact H].
Qed.

Lemma has_true_iff (s : NumSet) (x : Z) : has s x = true <-> In x s.
Proof.
  unfold has. rewrite existsb_exists. split.
  - intros [y [Hy E]]. apply Z.eqb_eq in E. now subst.
  - intros H. exists x. split; [exact H|apply Z.eqb_refl].
Qed.

Lemma has_false_iff (s : NumSet) (x : Z) : has s x = false <-> ~ In x s.
Proof.
  rewrite <- has_true_iff. destruct (has s x); split; congruence.
Qed.

Lemma add_In (x y : Z) (s : NumSet) : In y (add x s) <-> y = x \/ In y s.
Proof.
  unfold add. destruct (has s x) eqn:E.
  - apply has_true_iff in E. split; [now right|]. intros [->|H]; assumption.
  - rewrite in_app_iff. simpl. intuition.
Qed.

Lemma add_NoDup (x : Z) (s : NumSet) : NoDup s -> NoDup (add x s).
Proof.
  intros H. unfold add. destruct (has s x) eqn:E; [exact H|].
  apply has_false_iff in E.
  apply NoDup_app; [exact H|repeat constructor; simpl; tauto|].
  intros y Hy [<-|[]]. contradiction.
Qed.

Lemma delete_In (x y : Z) (s : NumSet) : In y (delete x s) <-> In y s /\ y <> x.
Proof.
  unfold delete. rewrite filter_In. rewrite negb_true_iff, Z.eqb_neq. tauto.
Qed.

Lemma delete_NoDup (x : Z) (s : NumSet) : NoDup s -> NoDup (delete x s).
Proof. apply NoDup_filter. Qed.

(** Adding, in order, elements that are new and distinct appends them. *)
Lemma fold_add_fresh (l acc : list Z) :
  NoDup (acc ++ l) -> fold_left (fun p x => add x p) l acc = acc ++ l.
Proof.
  revert acc. induction l as [|x l IH]; intros acc H; simpl.
  - now rewrite app_nil_r.
  - assert (Hx : has acc x = false).
    { apply has_false_iff. intros Hin.
      apply NoDup_remove_2 in H. apply H, in_or_app. now left. }
    unfold add at 2. rewrite Hx.
    rewrite IH; rewrite <- app_assoc; [reflexivity|exact H].
Qed.

End SortFacts.

(** ** Strings, digits and [parseInt] *)

Section StringFacts.
Import JS Spec.
Local Open Scope string_scope.
Local Open Scope Z_scope.

Lemma app_assoc_s (a b c : string) : (a ++ b) ++ c = a ++ (b ++ c).
Proof. induction a as [|x a IH]; simpl; [reflexivity|now rewrite IH]. Qed.

Lemma app_nil_r_s (a : string) : a ++ "" = a.
Proof. induction a as [|x a IH]; simpl; [reflexivity|now rewrite IH]. Qed.

Lemma length_app_s (a b : string) :
  String.length (a ++ b) = (String.length a + String.length b)%nat.
Proof. induction a as [|x a IH]; simpl; [reflexivity|now rewrite IH]. Qed.

Lemma allChars_app (p : ascii -> bool) (a b : string) :
  allChars p (a ++ b) = allChars p a && allChars p b.
Proof.
  induction a as [|x a IH]; simpl; [reflexivity|].
  now rewrite IH, andb_assoc.
Qed.

Lemma allChars_impl (p q : ascii -> bool) (s : string) :
  (forall c, p c = true -> q c = true) ->
  allChars p s = true -> allChars q s = true.
Proof.
  intros Hpq. induction s as [|c s IH]; simpl; [reflexivity|].
  rewrite !andb_true_iff. intros [Hc Hs]. split; auto.
Qed.

(** The ten digits, and what the other tests say about them. *)
Lemma isDigit_cases (c : ascii) :
  isDigit c = true ->
  In c ["0"; "1"; "2"; "3"; "4"; "5"; "6"; "7"; "8"; "9"]%char.
Proof.
  destruct c as [[] [] [] [] [] [] [] []]; intros H; try discriminate H;
    simpl; tauto.
Qed.

Ltac digit_cases c H :=
  apply isDigit_cases in H; simpl in H;
  repeat (destruct H as [H|H]; [subst c|]); [..|contradiction].

Lemma digit_not_space (c : ascii) : isDigit c = true -> isWhiteSpace c = false.
Proof. intros H. digit_cases c H; reflexivity. Qed.

Lemma digit_not_comma (c : ascii) : isDigit c = true -> Ascii.eqb c "," = false.
Proof. intros H. digit_cases c H; reflexivity. Qed.

Lemma digit_not_hyphen (c : ascii) : isDigit c = true -> Ascii.eqb c "-" = false.
Proof. intros H. digit_cases c H; reflexivity. Qed.

Lemma digitChar_isDigit (d : Z) : 0 <= d < 10 -> isDigit (digitChar d) = true.
Proof.
  intros H.
  assert (Hd : In d [0; 1; 2; 3; 4; 5; 6; 7; 8; 9]) by (simpl; lia).
  simpl in Hd.
  repeat (destruct Hd as [Hd|Hd]; [subst d; reflexivity|]). contradiction.
Qed.

Lemma digitChar_value (d : Z) : 0 <= d < 10 -> digitValue (digitChar d) = Some d.
Proof.
  intros H.
  assert (Hd : In d [0; 1; 2; 3; 4; 5; 6; 7; 8; 9]) by (simpl; lia).
  simpl in Hd.
  repeat (destruct Hd as [Hd|Hd]; [subst d; reflexivity|]). contradiction.
Qed.

(** [digitsOf] puts the decimal digits of [n] in front of [acc], and
    reading them back gives [n]. *)
Lemma digitsOf_spec (fuel : nat) :
  forall (n : Z) (acc : string),
    0 <= n < 2 ^ Z.of_nat fuel -> (0 < fuel)%nat ->
    exists ds : string,
      digitsOf fuel n acc = ds ++ acc /\ ds <> "" /\
      allChars isDigit ds = true /\
      forall (rest : string) (a : Z) (seen : bool),
        parseDigits 10 (ds ++ rest) a seen =
        parseDigits 10 rest (a * 10 ^ Z.of_nat (String.length ds) + n) true.
Proof.
  induction fuel as [|f IH]; intros n acc Hn Hf; [lia|].
  assert (Hm : 0 <= n mod 10 < 10) by (apply Z.mod_pos_bound; lia).
  assert (Hdiv : n = 10 * (n / 10) + n mod 10) by (apply Z.div_mod; lia).
  assert (Hlast : forall rest a seen,
             parseDigits 10 (String (digitChar (n mod 10)) rest) a seen =
             parseDigits 10 rest (a * 10 + n mod 10) true).
  { intros rest a seen. cbn [parseDigits].
    rewrite digitChar_value by exact Hm.
    destruct (n mod 10 <? 10) eqn:E10; [reflexivity|].
    apply Z.ltb_ge in E10. lia. }
  cbn [digitsOf]. destruct (n / 10 =? 0) eqn:E.
  - apply Z.eqb_eq in E.
    exists (String (digitChar (n mod 10)) ""). split; [|split; [|split]].
    + reflexivity.
    + discriminate.
    + cbn [allChars]. rewrite digitChar_isDigit by exact Hm. reflexivity.
    + intros rest a seen. cbn [append String.length]. rewrite Hlast.
      f_equal. change (Z.of_nat 1) with 1. rewrite Z.pow_1_r. lia.
  - apply Z.eqb_neq in E.
    assert (Hq : 0 <= n / 10) by (apply Z.div_pos; lia).
    assert (Hlt : n / 10 < 2 ^ Z.of_nat f).
    { apply Z.div_lt_upper_bound; [lia|].
      rewrite Nat2Z.inj_succ, Z.pow_succ_r in Hn by lia.
      assert (0 < 2 ^ Z.of_nat f) by (apply Z.pow_pos_nonneg; lia). lia. }
    assert (Hf' : (0 < f)%nat).
    { destruct f; [|lia]. change (2 ^ Z.of_nat 0) with 1 in Hlt. lia. }
    destruct (IH (n / 10) (String (digitChar (n mod 10)) acc)
                (conj Hq Hlt) Hf') as [ds [Heq [Hne [Hall Hparse]]]].
    exists (ds ++ String (digitChar (n mod 10)) ""). split; [|split; [|split]].
    + rewrite Heq, app_assoc_s. reflexivity.
    + destruct ds; [congruence|discriminate].
    + rewrite allChars_app, Hall. cbn [allChars].
      rewrite digitChar_isDigit by exact Hm. reflexivity.
    + intros rest a seen. rewrite app_assoc_s, Hparse.
      cbn [append]. rewrite Hlast.
      f_equal. rewrite length_app_s. cbn [String.length].
      rewrite Nat2Z.inj_add, Z.pow_add_r by lia.
      change (Z.of_nat 1) with 1. rewrite Z.pow_1_r. lia.
Qed.

Lemma toString_spec (n : Z) :
  0 <= n ->
  toString n <> "" /\ allChars isDigit (toString n) = true /\
  parseDigits 10 (toString n) 0 false = Some n.
Proof.
  intros Hn. unfold toString.
  destruct (n <? 0) eqn:E; [apply Z.ltb_lt in E; lia|].
  assert (Hb : 0 <= n < 2 ^ Z.of_nat (S (Z.to_nat (Z.log2 n)))).
  { split; [exact Hn|].
    rewrite Nat2Z.inj_succ, Z2Nat.id by apply Z.log2_nonneg.
    destruct (Z.eq_dec n 0) as [->|Hz]; [reflexivity|].
    apply Z.log2_spec. lia. }
  destruct (digitsOf_spec _ n "" Hb (Nat.lt_0_succ _))
    as [ds [Heq [Hne [Hall Hparse]]]].
  rewrite Heq, app_nil_r_s. split; [exact Hne|]. split; [exact Hall|].
  specialize (Hparse "" 0 false). rewrite app_nil_r_s in Hparse.
  rewrite Hparse. cbn [parseDigits]. f_equal; lia.
Qed.

(** On a string of digits [parseInt] reads the whole string in base 10. *)
Lemma parseInt_digits (s : string) :
  s <> "" -> allChars isDigit s = true ->
  parseInt s = parseDigits 10 s 0 false.
Proof.
  intros Hne Hall. destruct s as [|c s]; [congruence|].
  simpl in Hall. apply andb_true_iff in Hall. destruct Hall as [Hc Hs].
  assert (Hid : forall o : option Z, option_map (Z.mul 1) o = o).
  { intros [[|p|p]|]; reflexivity. }
  digit_cases c Hc; try (unfold parseInt; simpl trimStart; cbv iota beta; apply Hid).
  unfold parseInt; simpl trimStart.
  destruct s as [|c2 s]; [apply Hid|].
  simpl in Hs. apply andb_true_iff in Hs. destruct Hs as [Hc2 Hs].
  digit_cases c2 Hc2; cbv iota beta; apply Hid.
Qed.

Lemma parseInt_toString (n : Z) : 0 <= n -> parseInt (toString n) = Some n.
Proof.
  intros Hn. destruct (toString_spec n Hn) as [Hne [Hall Hparse]].
  now rewrite parseInt_digits.
Qed.

End StringFacts.

(** ** Splitting, joining and trimming tokens *)

Section TokenFacts.
Import JS Spec.

Lemma tokenChar_not_space (c : ascii) :
  isTokenChar c = true -> isWhiteSpace c = false.
Proof.
  unfold isTokenChar. intros H. apply orb_true_iff in H.
  destruct H as [H|H]; [now apply digit_not_space|].
  apply Ascii.eqb_eq in H. subst c. reflexivity.
Qed.

Lemma tokenChar_not_comma (c : ascii) :
  isTokenChar c = true -> Ascii.eqb c "," = false.
Proof.
  unfold isTokenChar. intros H. apply orb_true_iff in H.
  destruct H as [H|H]; [now apply digit_not_comma|].
  apply Ascii.eqb_eq in H. subst c. reflexivity.
Qed.

Lemma includes_false (p : ascii -> bool) (sep : ascii) (s : string) :
  (forall c, p c = true -> Ascii.eqb c sep = false) ->
  allChars p s = true -> includes sep s = false.
Proof.
  intros Hp. induction s as [|c s IH]; simpl; [reflexivity|].
  intros H. apply andb_true_iff in H. destruct H as [Hc Hs].
  now rewrite (Hp c Hc), IH.
Qed.

Lemma includes_app_sep (sep : ascii) (a b : string) :
  includes sep (a ++ String sep b)%string = true.
Proof.
  induction a as [|c a IH]; simpl.
  - now rewrite Ascii.eqb_refl.
  - rewrite IH. apply orb_true_r.
Qed.

Lemma split_nosep (sep : ascii) (s : string) :
  includes sep s = false -> split sep s = [s].
Proof.
  induction s as [|c s IH]; simpl; [reflexivity|].
  intros H. apply orb_false_iff in H. destruct H as [Hc Hs].
  now rewrite Hc, IH.
Qed.

Lemma split_app_sep (sep : ascii) (a b : string) :
  includes sep a = false ->
  split sep (a ++ String sep b)%string = a :: split sep b.
Proof.
  induction a as [|c a IH]; simpl.
  - intros _. now rewrite Ascii.eqb_refl.
  - intros H. apply orb_false_iff in H. destruct H as [Hc Ha].
    now rewrite Hc, IH.
Qed.

Lemma trimEnd_id (s : string) :
  allChars (fun c => negb (isWhiteSpace c)) s = true -> trimEnd s = s.
Proof.
  induction s as [|c s IH]; simpl; [reflexivity|].
  intros H. apply andb_true_iff in H. destruct H as [Hc Hs].
  rewrite (IH Hs). apply negb_true_iff in Hc. rewrite Hc.
  destruct s; reflexivity.
Qed.

Lemma trimStart_id (s : string) :
  allChars (fun c => negb (isWhiteSpace c)) s = true -> trimStart s = s.
Proof.
  destruct s as [|c s]; simpl; [reflexivity|].
  intros H. apply andb_true_iff in H. destruct H as [Hc _].
  apply negb_true_iff in Hc. now rewrite Hc.
Qed.

Lemma token_no_space (t : string) :
  allChars isTokenChar t = true ->
  allChars (fun c => negb (isWhiteSpace c)) t = true.
Proof.
  apply allChars_impl. intros c Hc.
  now rewrite (tokenChar_not_space c Hc).
Qed.

Lemma trim_token (t : string) : allChars isTokenChar t = true -> trim t = t.
Proof.
  intros H. apply token_no_space in H. unfold trim.
  now rewrite (trimStart_id t H), (trimEnd_id t H).
Qed.

Lemma trim_space (s : string) : trim (String " " s) = trim s.
Proof. reflexivity. Qed.

(** Splitting the joined text at the commas and trimming gives the
    tokens back. *)
Lemma split_join_tokens (toks : list string) :
  toks <> [] ->
  Forall (fun t => allChars isTokenChar t = true) toks ->
  map trim (split "," (join ", " toks)) = toks.
Proof.
  induction toks as [|t toks IH]; [congruence|].
  intros _ H. inversion H as [|? ? Ht Hts]; subst.
  assert (Hnc : includes "," t = false).
  { eapply includes_false; [apply tokenChar_not_comma|exact Ht]. }
  destruct toks as [|t2 toks].
  - simpl. rewrite (split_nosep _ _ Hnc). simpl. now rewrite trim_token.
  - specialize (IH ltac:(discriminate) Hts).
    change (join ", " (t :: t2 :: toks))
      with (t ++ String "," (String " " (join ", " (t2 :: toks))))%string.
    rewrite (split_app_sep _ _ _ Hnc).
    cbn [split]. change (Ascii.eqb " " ",") with false. cbv iota.
    destruct (split "," (join ", " (t2 :: toks))) as [|p ps]; [discriminate IH|].
    cbn [map] in *. rewrite trim_space, (trim_token t Ht). now rewrite IH.
Qed.

Lemma rangeToken_chars (s e : Z) :
  0 <= s <= e -> allChars isTokenChar (SplitPDF.rangeToken s e) = true.
Proof.
  intros H. unfold SplitPDF.rangeToken.
  assert (Hd : forall n, 0 <= n ->
             allChars isTokenChar (toString n) = true).
  { intros n Hn. destruct (toString_spec n Hn) as [_ [Ha _]].
    revert Ha. apply allChars_impl. intros c Hc.
    unfold isTokenChar. now rewrite Hc. }
  destruct (s =? e); [apply Hd; lia|].
  rewrite !allChars_app, !Hd by lia. reflexivity.
Qed.

Lemma toString_no_hyphen (n : Z) : 0 <= n -> includes "-" (toString n) = false.
Proof.
  intros Hn. destruct (toString_spec n Hn) as [_ [Ha _]].
  eapply includes_false; [apply digit_not_hyphen|exact Ha].
Qed.

(** What [parsePart] does with a token that [updateRangeFromSet] wrote. *)
Lemma parsePart_rangeToken (max s e : Z) (pages : NumSet) :
  0 <= s <= e ->
  SplitPDF.parsePart max pages (SplitPDF.rangeToken s e) =
  SplitPDF.addPagesFrom (Z.to_nat (e - s + 1)) (s + 1) max pages.
Proof.
  intros H. unfold SplitPDF.parsePart, SplitPDF.rangeToken.
  destruct (s =? e) eqn:E.
  - apply Z.eqb_eq in E. subst e.
    rewrite toString_no_hyphen, parseInt_toString by lia.
    replace (Z.to_nat (s - s + 1)) with 1%nat by lia.
    reflexivity.
  - apply Z.eqb_neq in E.
    change (toString (s + 1) ++ "-" ++ toString (e + 1))%string
      with (toString (s + 1) ++ String "-" (toString (e + 1)))%string.
    rewrite includes_app_sep.
    rewrite split_app_sep by (apply toString_no_hyphen; lia).
    rewrite split_nosep by (apply toString_no_hyphen; lia).
    cbn [map]. rewrite !parseInt_toString by lia.
    rewrite Z.min_l, Z.max_r by lia.
    f_equal. lia.
Qed.

Lemma zrange_In (x s : Z) (n : nat) :
  In x (zrange s n) <-> s <= x < s + Z.of_nat n.
Proof.
  revert s. induction n as [|n IH]; intros s; simpl zrange.
  - simpl. lia.
  - cbn [In]. rewrite IH. lia.
Qed.

Lemma zrange_snoc (s : Z) (n : nat) :
  zrange s (S n) = zrange s n ++ [s + Z.of_nat n].
Proof.
  revert s. induction n as [|n IH]; intros s.
  - simpl. f_equal. lia.
  - change (zrange s (S (S n))) with (s :: zrange (s + 1) (S n)).
    rewrite IH. cbn [zrange app]. do 3 f_equal. lia.
Qed.

Lemma addPagesFrom_range (max : Z) (n : nat) :
  forall (i : Z) (pages : NumSet),
    0 < i -> i + Z.of_nat n - 1 <= max ->
    SplitPDF.addPagesFrom n i max pages =
    fold_left (fun p x => add x p) (zrange (i - 1) n) pages.
Proof.
  induction n as [|n IH]; intros i pages Hi Hm; [reflexivity|].
  cbn [SplitPDF.addPagesFrom zrange fold_left].
  destruct (0 <? i) eqn:E1; [|apply Z.ltb_ge in E1; lia].
  destruct (i <=? max) eqn:E2; [|apply Z.leb_gt in E2; lia].
  cbn [andb]. rewrite IH by lia.
  replace (i + 1 - 1) with (i - 1 + 1) by lia. reflexivity.
Qed.

End TokenFacts.

(** ** The range text of a selection *)

Section RangeText.
Import JS Spec.

Lemma rangesLoop_runs (rest : list Z) :
  forall (s e : Z) (runs : list (Z * Z)),
    SplitPDF.rangesLoop rest s e (map runToken runs) =
    map runToken (runsLoop rest s e runs).
Proof.
  induction rest as [|x rest IH]; intros s e runs; simpl.
  - now rewrite map_app.
  - destruct (x =? e + 1); [apply IH|].
    rewrite <- IH, map_app. reflexivity.
Qed.

(** The runs, written out, are the array the loop went through. *)
Lemma runsLoop_pages (rest : list Z) :
  forall (s e : Z) (runs : list (Z * Z)),
    s <= e ->
    flat_map runPages (runsLoop rest s e runs) =
    flat_map runPages runs ++ zrange s (Z.to_nat (e - s + 1)) ++ rest.
Proof.
  induction rest as [|x rest IH]; intros s e runs Hse; simpl.
  - rewrite flat_map_app. simpl. unfold runPages at 2. simpl.
    now rewrite !app_nil_r.
  - destruct (x =? e + 1) eqn:E.
    + apply Z.eqb_eq in E. subst x. rewrite IH by lia.
      replace (Z.to_nat (e + 1 - s + 1)) with (S (Z.to_nat (e - s + 1))) by lia.
      rewrite zrange_snoc, <- app_assoc. simpl.
      do 3 f_equal. lia.
    + rewrite IH by lia. rewrite flat_map_app, <- app_assoc. simpl.
      unfold runPages at 2. simpl.
      replace (Z.to_nat (x - x + 1)) with 1%nat by lia.
      now rewrite app_nil_r.
Qed.

Lemma runsLoop_ordered (rest : list Z) :
  forall (s e : Z) (runs : list (Z * Z)),
    s <= e -> Forall (fun r => fst r <= snd r) runs ->
    Forall (fun r => fst r <= snd r) (runsLoop rest s e runs).
Proof.
  induction rest as [|x rest IH]; intros s e runs Hse Hr; simpl.
  - apply Forall_app. split; [exact Hr|]. now repeat constructor.
  - destruct (x =? e + 1) eqn:E.
    + apply Z.eqb_eq in E. apply IH; [lia|exact Hr].
    + apply IH; [lia|]. apply Forall_app. split; [exact Hr|].
      now repeat constructor.
Qed.

Lemma runsLoop_nonempty (rest : list Z) :
  forall (s e : Z) (runs : list (Z * Z)), runsLoop rest s e runs <> [].
Proof.
  induction rest as [|x rest IH]; intros s e runs; simpl.
  - destruct runs; discriminate.
  - destruct (x =? e + 1); apply IH.
Qed.

Lemma run_ends_In (r : Z * Z) :
  fst r <= snd r -> In (fst r) (runPages r) /\ In (snd r) (runPages r).
Proof. intros H. unfold runPages. rewrite !zrange_In. lia. Qed.

(** Parsing the tokens of in-range runs adds the pages of the runs, in
    order. *)
Lemma fold_parsePart_runs (max : Z) (runs : list (Z * Z)) :
  forall pages : NumSet,
    Forall (fun r => 0 <= fst r <= snd r /\ snd r < max) runs ->
    fold_left (SplitPDF.parsePart max) (map runToken runs) pages =
    fold_left (fun p x => add x p) (flat_map runPages runs) pages.
Proof.
  induction runs as [|[s e] runs IH]; intros pages H; [reflexivity|].
  inversion H as [|? ? [Hse He] Hrest]; subst. simpl in Hse, He.
  cbn [map fold_left flat_map]. rewrite fold_left_app.
  change (runToken (s, e)) with (SplitPDF.rangeToken s e).
  change (runPages (s, e)) with (zrange s (Z.to_nat (e - s + 1))).
  rewrite parsePart_rangeToken by lia.
  rewrite addPagesFrom_range by lia.
  replace (s + 1 - 1) with s by lia.
  apply IH, Hrest.
Qed.

(** The round trip on an ascending array without repetitions. *)
Lemma parse_update_sorted (l : list Z) (N : Z) :
  l <> [] -> StronglySorted Z.le l -> NoDup l ->
  (forall i, In i l -> 0 <= i < N) ->
  fold_left (SplitPDF.parsePart N)
    (map trim (split ","
       (join ", " (SplitPDF.rangesLoop (tl l) (hd 0 l) (hd 0 l) []))))
    [] = l.
Proof.
  intros Hne Hs Hnd Hin. destruct l as [|first rest]; [congruence|].
  cbn [hd tl].
  change (@nil string) with (map runToken []).
  rewrite rangesLoop_runs.
  set (runs := runsLoop rest first first []).
  assert (Hpages : flat_map runPages runs = first :: rest).
  { unfold runs. rewrite runsLoop_pages by lia.
    replace (Z.to_nat (first - first + 1)) with 1%nat by lia. reflexivity. }
  assert (Hord : Forall (fun r => fst r <= snd r) runs).
  { unfold runs. apply runsLoop_ordered; [lia|constructor]. }
  assert (Hvalid : Forall (fun r => 0 <= fst r <= snd r /\ snd r < N) runs).
  { rewrite Forall_forall in *. intros r Hr.
    specialize (Hord r Hr). destruct (run_ends_In r Hord) as [Hf Hl].
    assert (In (fst r) (first :: rest)).
    { rewrite <- Hpages. apply in_flat_map. now exists r. }
    assert (In (snd r) (first :: rest)).
    { rewrite <- Hpages. apply in_flat_map. now exists r. }
    pose proof (Hin (fst r) ltac:(assumption)).
    pose proof (Hin (snd r) ltac:(assumption)). lia. }
  rewrite split_join_tokens.
  - rewrite fold_parsePart_runs by exact Hvalid.
    rewrite Hpages. now apply fold_add_fresh.
  - intros E. apply map_eq_nil in E. revert E. apply runsLoop_nonempty.
  - rewrite Forall_map. eapply Forall_impl; [|exact Hvalid].
    intros [s e] [H1 H2]. apply rangeToken_chars. simpl in *. lia.
Qed.

Lemma parse_empty_text (N : Z) : SplitPDF.parseRangeText "" N = [].
Proof. reflexivity. Qed.

(** The round trip for any set whose members are page indices. *)
Lemma parse_update (S : NumSet) (N : Z) :
  NoDup S -> (forall i, In i S -> 0 <= i < N) ->
  SplitPDF.parseRangeText (SplitPDF.updateRangeFromSet S) N = sort S.
Proof.
  intros Hnd Hin. unfold SplitPDF.updateRangeFromSet.
  pose proof (sort_sorted S) as Hs.
  pose proof (sort_NoDup S Hnd) as Hnd'.
  assert (Hin' : forall i, In i (sort S) -> 0 <= i < N).
  { intros i Hi. apply Hin. eapply Permutation_in; [apply sort_perm|exact Hi]. }
  destruct (sort S) as [|first rest] eqn:E; [apply parse_empty_text|].
  unfold SplitPDF.parseRangeText.
  pose proof (parse_update_sorted (first :: rest) N ltac:(discriminate)
                Hs Hnd' Hin') as Hrt.
  cbn [hd tl] in Hrt. rewrite Hrt.
  now apply sort_id.
Qed.

End RangeText.

(** ** The selection and its text stay together *)

Section Selection.
Import JS Eff Browser Spec.

Lemma add_valid (x N : Z) (S : NumSet) :
  0 <= x < N -> validSelection S N -> validSelection (add x S) N.
Proof.
  intros Hx [Hnd Hin]. split; [now apply add_NoDup|].
  intros i Hi. apply add_In in Hi. destruct Hi as [->|Hi]; auto.
Qed.

Lemma delete_valid (x N : Z) (S : NumSet) :
  validSelection S N -> validSelection (delete x S) N.
Proof.
  intros [Hnd Hin]. split; [now apply delete_NoDup|].
  intros i Hi. apply delete_In in Hi. now apply Hin.
Qed.

Lemma addPagesFrom_valid (max : Z) (n : nat) :
  forall (i : Z) (pages : NumSet),
    validSelection pages max ->
    validSelection (SplitPDF.addPagesFrom n i max pages) max.
Proof.
  induction n as [|n IH]; intros i pages H; [exact H|].
  cbn [SplitPDF.addPagesFrom]. apply IH.
  destruct (0 <? i) eqn:E1; [|exact H].
  destruct (i <=? max) eqn:E2; [|exact H].
  apply Z.ltb_lt in E1. apply Z.leb_le in E2.
  cbn [andb]. apply add_valid; [lia|exact H].
Qed.

Lemma parsePart_valid (max : Z) (pages : NumSet) (part : string) :
  validSelection pages max ->
  validSelection (SplitPDF.parsePart max pages part) max.
Proof.
  intros H. unfold SplitPDF.parsePart.
  destruct (includes "-" part).
  - destruct (map parseInt (split "-" part)) as [|[a|] [|[b|] l]]; try exact H.
    now apply addPagesFrom_valid.
  - destruct (parseInt part) as [page|]; [|exact H].
    destruct (0 <? page) eqn:E1; [|exact H].
    destruct (page <=? max) eqn:E2; [|exact H].
    apply Z.ltb_lt in E1. apply Z.leb_le in E2.
    cbn [andb]. apply add_valid; [lia|exact H].
Qed.

(** Whatever the text, the parsed array is an ascending selection over
    the document. *)
Lemma parseRangeText_valid (s : string) (N : Z) :
  validSelection (SplitPDF.parseRangeText s N) N /\
  StronglySorted Z.le (SplitPDF.parseRangeText s N).
Proof.
  unfold SplitPDF.parseRangeText. split; [|apply sort_sorted].
  assert (H : forall parts pages, validSelection pages N ->
              validSelection (fold_left (SplitPDF.parsePart N) parts pages) N).
  { induction parts as [|p parts IH]; intros pages Hp; [exact Hp|].
    simpl. apply IH. now apply parsePart_valid. }
  specialize (H (map trim (split "," s)) []
                (conj (NoDup_nil Z) (fun i (Hi : In i []) => match Hi with end))).
  destruct H as [Hnd Hin]. split; [now apply sort_NoDup|].
  intros i Hi. apply Hin. eapply Permutation_in; [apply sort_perm|exact Hi].
Qed.

(** Normalising a text and parsing the result gives what parsing the
    text gave. *)
Lemma reparse_stable (s : string) (N : Z) :
  SplitPDF.parseRangeText
    (SplitPDF.updateRangeFromSet (SplitPDF.parseRangeText s N)) N
  = SplitPDF.parseRangeText s N.
Proof.
  destruct (parseRangeText_valid s N) as [[Hnd Hin] Hs].
  rewrite parse_update by assumption. now apply sort_id.
Qed.

Lemma zrange_NoDup (n : nat) : forall s, NoDup (zrange s n).
Proof.
  induction n as [|n IH]; intros s; simpl; constructor; [|apply IH].
  rewrite zrange_In. lia.
Qed.

Lemma allPages_zrange (n : nat) :
  forall (i : Z) (all : NumSet),
    SplitPDF.allPages n i all =
    fold_left (fun p x => add x p) (zrange i n) all.
Proof.
  induction n as [|n IH]; intros i all; [reflexivity|].
  simpl. apply IH.
Qed.

Lemma allPages_all (N : Z) :
  SplitPDF.allPages (Z.to_nat N) 0 [] = zrange 0 (Z.to_nat N).
Proof.
  rewrite allPages_zrange. apply (fold_add_fresh _ []), zrange_NoDup.
Qed.

End Selection.

(** C1. For a set [S] of page indices of a document with [N] pages
    (each index once, each within [0, N)), parsing the range text that
    [updateRangeFromSet] derives from [S] yields exactly [S]: the array
    returned is [S] in ascending order, and it has the members of [S]
    and no others. *)
Theorem range_text_round_trip (S : JS.NumSet) (N : Z) :
  NoDup S -> (forall i, In i S -> 0 <= i < N) ->
  SplitPDF.parseRangeText (SplitPDF.updateRangeFromSet S) N = JS.sort S /\
  (forall i,
      In i (SplitPDF.parseRangeText (SplitPDF.updateRangeFromSet S) N)
      <-> In i S).
Proof.
  intros Hnd Hin. rewrite parse_update by assumption. split; [reflexivity|].
  intros i. split; apply Permutation_in;
    [apply sort_perm|symmetry; apply sort_perm].
Qed.

Lemma range_text_round_trip_witness :
  NoDup [4; 0; 2; 1] /\ (forall i, In i [4; 0; 2; 1] -> 0 <= i < 5) /\
  SplitPDF.parseRangeText (SplitPDF.updateRangeFromSet [4; 0; 2; 1]) 5
  = JS.sort [4; 0; 2; 1].
Proof.
  assert (Hnd : NoDup [4; 0; 2; 1]).
  { repeat constructor; simpl; lia. }
  assert (Hin : forall i, In i [4; 0; 2; 1] -> 0 <= i < 5).
  { simpl. intros i H. lia. }
  split; [exact Hnd|]. split; [exact Hin|].
  exact (proj1 (range_text_round_trip [4; 0; 2; 1] 5 Hnd Hin)).
Defined.

Lemma togglePage_ui (index : Z) (st : Browser.St SplitPDF.State) :
  let c := Browser.ui st in
  let newSet := if JS.has (SplitPDF.selectedPages c) index
                then JS.delete index (SplitPDF.selectedPages c)
                else JS.add index (SplitPDF.selectedPages c) in
  Browser.ui (Eff.exec (SplitPDF.togglePage index) st) =
  {| SplitPDF.pdfInfo := SplitPDF.pdfInfo c;
     SplitPDF.splitMode := SplitPDF.splitMode c;
     SplitPDF.selectedPages := newSet;
     SplitPDF.rangeText := SplitPDF.updateRangeFromSet newSet;
     SplitPDF.thumbnails := SplitPDF.thumbnails c;
     SplitPDF.isProcessing := SplitPDF.isProcessing c;
     SplitPDF.progress := SplitPDF.progress c;
     SplitPDF.error := SplitPDF.error c |}.
Proof. reflexivity. Qed.

(** C2, as the code has it. With a document of [pageCount] pages loaded
    and a selection of its page indices: after [togglePage] of a page
    index, after [selectAll] and after [clearSelection] the range text,
    parsed against the page count, is the selected set (and the set is
    still a selection of the document; after [selectAll] it holds every
    page index). Editing the range text directly stores the text and
    leaves the selected set as it was. *)
Theorem selection_buttons_keep_text_synced
    (st : Browser.St SplitPDF.State) (info : SplitPDF.PDFMetadata) :
  SplitPDF.pdfInfo (Browser.ui st) = Some info ->
  Spec.validSelection (SplitPDF.selectedPages (Browser.ui st))
    (SplitPDF.pageCount info) ->
  (forall index, 0 <= index < SplitPDF.pageCount info ->
     let c := Browser.ui (Eff.exec (SplitPDF.togglePage index) st) in
     Spec.synced c /\
     Spec.validSelection (SplitPDF.selectedPages c) (SplitPDF.pageCount info)) /\
  (let c := Browser.ui (Eff.exec SplitPDF.selectAll st) in
   Spec.synced c /\
   Spec.validSelection (SplitPDF.selectedPages c) (SplitPDF.pageCount info) /\
   forall i, In i (SplitPDF.selectedPages c) <-> 0 <= i < SplitPDF.pageCount info) /\
  (let c := Browser.ui (Eff.exec SplitPDF.clearSelection st) in
   Spec.synced c /\ SplitPDF.selectedPages c = []) /\
  (forall value,
     let c := Browser.ui (Eff.exec (SplitPDF.onRangeTextChange value) st) in
     SplitPDF.rangeText c = value /\
     SplitPDF.selectedPages c = SplitPDF.selectedPages (Browser.ui st) /\
     SplitPDF.pdfInfo c = SplitPDF.pdfInfo (Browser.ui st)).
Proof.
  intros Hinfo Hvalid. split; [|split; [|split]].
  - intros index Hindex c.
    assert (Hnew : Spec.validSelection (SplitPDF.selectedPages c)
                     (SplitPDF.pageCount info)).
    { subst c. rewrite togglePage_ui. cbn [SplitPDF.selectedPages].
      destruct (JS.has _ index);
        [now apply delete_valid|now apply add_valid]. }
    split; [|exact Hnew].
    destruct Hnew as [Hnd Hin]. revert Hnd Hin. subst c.
    rewrite togglePage_ui. unfold Spec.synced.
    cbn [SplitPDF.selectedPages SplitPDF.pdfInfo SplitPDF.rangeText].
    rewrite Hinfo. intros Hnd Hin. now apply parse_update.
  - unfold SplitPDF.selectAll, Eff.exec, Eff.bind, Eff.gets. cbn [fst snd].
    rewrite Hinfo. cbn. rewrite Hinfo.
    rewrite allPages_all.
    assert (Hall : Spec.validSelection
                     (Spec.zrange 0 (Z.to_nat (SplitPDF.pageCount info)))
                     (SplitPDF.pageCount info)).
    { split; [apply zrange_NoDup|]. intros i Hi.
      apply zrange_In in Hi. lia. }
    split; [|split; [exact Hall|]].
    + destruct Hall as [Hnd Hin]. now apply parse_update.
    + intros i. rewrite zrange_In. lia.
  - cbn. rewrite Hinfo. split; reflexivity.
  - intros value. cbn. repeat split.
Qed.

Lemma selection_buttons_keep_text_synced_witness :
  SplitPDF.pdfInfo (Browser.ui Sample.splitLoaded) <> None /\
  Spec.validSelection (SplitPDF.selectedPages (Browser.ui Sample.splitLoaded)) 5 /\
  Spec.synced
    (Browser.ui (Eff.exec (SplitPDF.togglePage 2) Sample.splitLoaded)).
Proof.
  assert (Hv : Spec.validSelection
                 (SplitPDF.selectedPages (Browser.ui Sample.splitLoaded)) 5).
  { split; [constructor|]. intros i []. }
  assert (Hi : SplitPDF.pdfInfo (Browser.ui Sample.splitLoaded)
               = Some Sample.reportInfo) by (vm_compute; reflexivity).
  split; [rewrite Hi; discriminate|]. split; [exact Hv|].
  refine (proj1 (proj1 (selection_buttons_keep_text_synced Sample.splitLoaded
            Sample.reportInfo Hi Hv) 2 _)).
  vm_compute. split; [discriminate|reflexivity].
Defined.

(** C2 as stated fails on a direct edit: with [report.pdf] loaded and
    page 1 selected (text "1"), typing "2" into the range input leaves a
    text that parses to page index 1 while the selected set is still
    page index 0. *)
Lemma direct_edit_breaks_sync :
  let st := Eff.exec (SplitPDF.togglePage 0) Sample.splitLoaded in
  let st' := Eff.exec (SplitPDF.onRangeTextChange "2") st in
  Spec.synced (Browser.ui st) /\
  SplitPDF.parseRangeText (SplitPDF.rangeText (Browser.ui st')) 5 = [1] /\
  SplitPDF.selectedPages (Browser.ui st') = [0] /\
  ~ Spec.synced (Browser.ui st').
Proof.
  cbv zeta. split; [vm_compute; reflexivity|].
  split; [vm_compute; reflexivity|]. split; [vm_compute; reflexivity|].
  vm_compute. discriminate.
Qed.

(** ** Reading the log *)

Section LogFacts.
Import Browser Spec.

Lemma progressValues_app (l l' : list Event) :
  progressValues (l ++ l') = progressValues l ++ progressValues l'.
Proof.
  induction l as [|e l IH]; [reflexivity|].
  destruct e; simpl; now rewrite IH.
Qed.

Lemma downloads_app (l l' : list Event) :
  downloads (l ++ l') = downloads l ++ downloads l'.
Proof.
  induction l as [|e l IH]; [reflexivity|].
  destruct e; simpl; now rewrite IH.
Qed.

Lemma decoded_app (l l' : list Event) :
  decoded (l ++ l') = decoded l ++ decoded l'.
Proof.
  induction l as [|e l IH]; [reflexivity|].
  destruct e; simpl; now rewrite IH.
Qed.

Lemma saved_app (l l' : list Event) :
  saved (l ++ l') = saved l ++ saved l'.
Proof.
  induction l as [|e l IH]; [reflexivity|].
  destruct e; simpl; now rewrite IH.
Qed.

End LogFacts.

Arguments SplitPDF.resolveIndices : simpl never.
Arguments SplitPDF.parseRangeText : simpl never.
Arguments SplitPDF.updateRangeFromSet : simpl never.
Arguments JS.Math_round : simpl never.
Arguments SplitPDF.MAX_SIZE : simpl never.

(** When the range text is there, the pages to extract are in ascending
    order whatever the order of the clicks. *)
Lemma resolveIndices_text_ascending
    (c : SplitPDF.State) (info : SplitPDF.PDFMetadata) :
  SplitPDF.rangeText c <> EmptyString ->
  StronglySorted Z.le (SplitPDF.resolveIndices c info).
Proof.
  intros H. unfold SplitPDF.resolveIndices.
  destruct (SplitPDF.rangeText c); [congruence|].
  apply parseRangeText_valid.
Qed.

(** Pages 3 and 1 clicked in that order, text left as the clicks wrote
    it: the extract has page 1 before page 3. *)
Lemma extract_2_0_with_text :
  let st := Eff.exec (SplitPDF.togglePage 0)
              (Eff.exec (SplitPDF.togglePage 2) Sample.splitLoaded) in
  SplitPDF.selectedPages (Browser.ui st) = [2; 0] /\
  SplitPDF.rangeText (Browser.ui st) = "1, 3"%string /\
  Spec.downloads
    (Browser.log (Browser.world
       (Eff.exec (SplitPDF.handleSplit Sample.exact Sample.libs) st)))
  = [(Browser.PdfBlob [Sample.page 10; Sample.page 12],
      "Extracted_report.pdf"%string)].
Proof. vm_compute. repeat split. Qed.

(** C3, where the code departs from it. Pages 3 and 1 are clicked in that
    order and the range input is then emptied. [handleSplit] falls back
    on [Array.from(selectedPages)], which is in click order and is not
    sorted: the extract has page 3 before page 1. *)
Theorem extract_in_click_order_when_text_empty :
  let st := Eff.exec (SplitPDF.onRangeTextChange "")
              (Eff.exec (SplitPDF.togglePage 0)
                 (Eff.exec (SplitPDF.togglePage 2) Sample.splitLoaded)) in
  SplitPDF.selectedPages (Browser.ui st) = [2; 0] /\
  SplitPDF.rangeText (Browser.ui st) = EmptyString /\
  Spec.downloads
    (Browser.log (Browser.world
       (Eff.exec (SplitPDF.handleSplit Sample.exact Sample.libs) st)))
  = [(Browser.PdfBlob [Sample.page 12; Sample.page 10],
      "Extracted_report.pdf"%string)].
Proof. vm_compute. repeat split. Qed.

(** ** Refusals *)

(** What holds of C4 on both handlers. With a document loaded, an
    extract or a rotation asked for with an empty resolved selection
    fails: an error is set, nothing is saved,
    no download is triggered, no object URL is created, and the document
    state (metadata, thumbnails, selected set, range text) is as it was.
    The error is the "select at least one page" message; [handleRotate]
    tests the selection first, [handleSplit] tests it right after
    [PDFDocument.load], so there the message is that one when the load
    succeeds. *)
Theorem empty_selection_is_refused (fl : Q -> Q) (L : Browser.Libs) :
  (forall (st : Browser.St SplitPDF.State) info,
      SplitPDF.pdfInfo (Browser.ui st) = Some info ->
      SplitPDF.splitMode (Browser.ui st) = SplitPDF.range ->
      SplitPDF.resolveIndices (Browser.ui st) info = [] ->
      let st' := Eff.exec (SplitPDF.handleSplit fl L) st in
      SplitPDF.error (Browser.ui st') <> None /\
      (forall doc,
          Browser.loadDocument L (SplitPDF.file info) = Some doc ->
          SplitPDF.error (Browser.ui st')
          = Some "Please select at least one page to extract."%string) /\
      Spec.saved (Browser.log (Browser.world st'))
      = Spec.saved (Browser.log (Browser.world st)) /\
      Spec.downloads (Browser.log (Browser.world st'))
      = Spec.downloads (Browser.log (Browser.world st)) /\
      Browser.liveURLs (Browser.world st') = Browser.liveURLs (Browser.world st) /\
      Spec.splitDocState (Browser.ui st') = Spec.splitDocState (Browser.ui st)) /\
  (forall (st : Browser.St RotatePDF.State) info angle,
      RotatePDF.pdfInfo (Browser.ui st) = Some info ->
      RotatePDF.selectedPages (Browser.ui st) = [] ->
      let st' := Eff.exec (RotatePDF.handleRotate L angle) st in
      RotatePDF.error (Browser.ui st')
      = Some "Please select at least one page to rotate."%string /\
      Browser.world st' = Browser.world st /\
      Spec.rotateDocState (Browser.ui st') = Spec.rotateDocState (Browser.ui st)).
Proof.
  split.
  - intros [c w] info Hinfo Hmode Hres. cbn [Browser.ui] in *.
    unfold SplitPDF.handleSplit, Eff.exec. cbn -[SplitPDF.resolveIndices].
    rewrite Hinfo. cbn.
    destruct (Browser.loadDocument L (SplitPDF.file info)) as [src|].
    + cbn. rewrite Hmode, Hres. cbn.
      rewrite !saved_app, !downloads_app. cbn. rewrite !app_nil_r.
      unfold Spec.splitDocState. cbn.
      split; [discriminate|]. repeat split.
    + cbn. rewrite !saved_app, !downloads_app. cbn. rewrite !app_nil_r.
      unfold Spec.splitDocState. cbn.
      split; [discriminate|]. split; [intros doc Hd; discriminate Hd|].
      repeat split.
  - intros [c w] info angle Hinfo Hsel. cbn [Browser.ui] in *.
    unfold RotatePDF.handleRotate, Eff.exec. cbn.
    rewrite Hinfo, Hsel. cbn.
    unfold Spec.rotateDocState. cbn. repeat split.
Qed.

Lemma empty_selection_is_refused_witness :
  (SplitPDF.resolveIndices (Browser.ui Sample.splitLoaded) Sample.reportInfo = [] /\
   SplitPDF.error
     (Browser.ui
        (Eff.exec (SplitPDF.handleSplit Sample.exact Sample.libs)
           Sample.splitLoaded))
   = Some "Please select at least one page to extract."%string) /\
  (RotatePDF.selectedPages (Browser.ui Sample.rotateLoaded) = [] /\
   RotatePDF.error
     (Browser.ui
        (Eff.exec (RotatePDF.handleRotate Sample.libs 90) Sample.rotateLoaded))
   = Some "Please select at least one page to rotate."%string).
Proof.
  destruct (empty_selection_is_refused Sample.exact Sample.libs) as [HS HR].
  assert (H1 : SplitPDF.pdfInfo (Browser.ui Sample.splitLoaded)
               = Some Sample.reportInfo) by (vm_compute; reflexivity).
  assert (H2 : SplitPDF.splitMode (Browser.ui Sample.splitLoaded)
               = SplitPDF.range) by (vm_compute; reflexivity).
  assert (H3 : SplitPDF.resolveIndices (Browser.ui Sample.splitLoaded)
                 Sample.reportInfo = []) by (vm_compute; reflexivity).
  assert (H4 : Browser.loadDocument Sample.libs (SplitPDF.file Sample.reportInfo)
               = Some Sample.reportPages) by (vm_compute; reflexivity).
  assert (H5 : RotatePDF.pdfInfo (Browser.ui Sample.rotateLoaded)
               = Some Sample.rotateReportInfo) by (vm_compute; reflexivity).
  assert (H6 : RotatePDF.selectedPages (Browser.ui Sample.rotateLoaded) = [])
    by (vm_compute; reflexivity).
  split.
  - split; [exact H3|].
    exact (proj1 (proj2 (HS Sample.splitLoaded Sample.reportInfo H1 H2 H3))
             Sample.reportPages H4).
  - split; [exact H6|].
    exact (proj1 (HR Sample.rotateLoaded Sample.rotateReportInfo 90 H5 H6)).
Defined.

(** C4, where the code departs from it. [report.pdf] is a file the reader
    opens and the codec rejects, as an encrypted document is. It is
    loaded into SplitPDF from a fresh mount, nothing is selected and the
    range text is empty, and Split is clicked. [handleSplit] hands the
    file to the codec before it looks at the selection, so the error
    shown is the splitting error of the catch block and not the "select
    at least one page" message. [handleRotate], with the same file loaded
    and nothing selected, tests the selection first: it shows its "select
    at least one page" message and never calls the codec. *)
Theorem empty_selection_masked_by_load_failure :
  let st := Eff.exec (SplitPDF.handleFileChange Sample.exact Sample.strictLibs
                        (Some Sample.report)) Sample.split0 in
  let st' := Eff.exec (SplitPDF.handleSplit Sample.exact Sample.strictLibs) st in
  let rt := Eff.exec (RotatePDF.handleFileChange Sample.strictLibs
                        (Some Sample.report)) Sample.rotate0 in
  let rt' := Eff.exec (RotatePDF.handleRotate Sample.strictLibs 90) rt in
  SplitPDF.pdfInfo (Browser.ui st) = Some Sample.reportInfo /\
  SplitPDF.error (Browser.ui st) = None /\
  SplitPDF.splitMode (Browser.ui st) = SplitPDF.range /\
  SplitPDF.selectedPages (Browser.ui st) = [] /\
  SplitPDF.rangeText (Browser.ui st) = EmptyString /\
  SplitPDF.resolveIndices (Browser.ui st) Sample.reportInfo = [] /\
  Browser.loadDocument Sample.strictLibs Sample.report = None /\
  SplitPDF.error (Browser.ui st')
  = Some "An error occurred during splitting."%string /\
  SplitPDF.error (Browser.ui st')
  <> Some "Please select at least one page to extract."%string /\
  Browser.log (Browser.world st')
  = Browser.log (Browser.world st)
    ++ [Browser.Progress 0; Browser.LoadDocument Sample.report;
        Browser.SetTimeout 500] /\
  RotatePDF.pdfInfo (Browser.ui rt) = Some Sample.rotateReportInfo /\
  RotatePDF.selectedPages (Browser.ui rt) = [] /\
  RotatePDF.error (Browser.ui rt')
  = Some "Please select at least one page to rotate."%string /\
  Browser.world rt' = Browser.world rt.
Proof.
  cbv zeta. do 8 (split; [vm_compute; reflexivity|]).
  split; [vm_compute; discriminate|].
  do 4 (split; [vm_compute; reflexivity|]).
  vm_compute. reflexivity.
Qed.

(** SplitPDF turns an oversize file away before anything else: only the
    error message changes, and no library is called. *)
Lemma split_rejects_oversize (fl : Q -> Q) (L : Browser.Libs)
    (st : Browser.St SplitPDF.State) (f : Browser.File) :
  Browser.type f = "application/pdf"%string ->
  Browser.size f > SplitPDF.MAX_SIZE ->
  let st' := Eff.exec (SplitPDF.handleFileChange fl L (Some f)) st in
  Browser.world st' = Browser.world st /\
  Spec.splitDocState (Browser.ui st') = Spec.splitDocState (Browser.ui st) /\
  SplitPDF.error (Browser.ui st')
  = Some "File is too large for browser processing. Please use files under 100MB."%string.
Proof.
  intros Ht Hs. destruct st as [c w].
  unfold SplitPDF.handleFileChange, Eff.exec. rewrite Ht.
  change (negb (String.eqb "application/pdf" "application/pdf")) with false.
  cbv iota.
  destruct (Browser.size f >? SplitPDF.MAX_SIZE) eqn:E.
  - cbn. repeat split.
  - rewrite Z.gtb_ltb in E. apply Z.ltb_ge in E. lia.
Qed.

(** C5, where the code departs from it. RotatePDF has had a document
    loaded and page 2 selected, and the Clear button has brought the file
    input back; a PDF of 100 MB and one byte is then chosen.
    [RotatePDF.handleFileChange] has no size check: no error is set, the
    selection is emptied, the file goes to the decoder and becomes the
    loaded document. On a fresh mount the file is decoded just the
    same. *)
Theorem rotate_load_has_no_size_check :
  let st := Eff.exec (RotatePDF.setPdfInfo None)
              (Eff.exec (RotatePDF.togglePage 1) Sample.rotateLoaded) in
  let st' := Eff.exec (RotatePDF.handleFileChange Sample.libs (Some Sample.huge)) st in
  let fresh' := Eff.exec (RotatePDF.handleFileChange Sample.libs (Some Sample.huge))
                  Sample.rotate0 in
  Browser.size Sample.huge > SplitPDF.MAX_SIZE /\
  In Sample.huge (Spec.decoded (Browser.log (Browser.world st'))) /\
  RotatePDF.error (Browser.ui st') = None /\
  RotatePDF.selectedPages (Browser.ui st) = [1] /\
  RotatePDF.selectedPages (Browser.ui st') = [] /\
  option_map RotatePDF.file (RotatePDF.pdfInfo (Browser.ui st')) = Some Sample.huge /\
  Spec.decoded (Browser.log (Browser.world fresh')) = [Sample.huge] /\
  RotatePDF.error (Browser.ui fresh') = None.
Proof.
  cbv zeta. split; [reflexivity|]. split; [vm_compute; tauto|].
  vm_compute. repeat split.
Qed.

(** C6 as stated fails. SplitPDF has had [report.pdf] loaded and page 3
    selected, and the Clear button beside the title has taken the
    document away, which is when the file input is on screen again; the
    selection, the range text and the thumbnails are still in the state.
    Choosing [corrupt.pdf], which the decoder rejects, empties all
    three. *)
Lemma failed_load_clears_selection :
  let st := Eff.exec (SplitPDF.togglePage 2) Sample.splitLoaded in
  let cleared := Eff.exec SplitPDF.onClearClick st in
  let cleared' := Eff.exec (SplitPDF.handleFileChange Sample.exact Sample.libs
                              (Some Sample.corrupt)) cleared in
  Browser.getDocument Sample.libs Sample.corrupt = None /\
  SplitPDF.pdfInfo (Browser.ui cleared) = None /\
  SplitPDF.pdfInfo (Browser.ui cleared') = None /\
  SplitPDF.selectedPages (Browser.ui cleared) = [2] /\
  SplitPDF.selectedPages (Browser.ui cleared') = [] /\
  SplitPDF.rangeText (Browser.ui cleared) = "3"%string /\
  SplitPDF.rangeText (Browser.ui cleared') = EmptyString /\
  List.length (SplitPDF.thumbnails (Browser.ui cleared)) = 5%nat /\
  SplitPDF.thumbnails (Browser.ui cleared') = [] /\
  Spec.splitDocState (Browser.ui cleared')
  <> Spec.splitDocState (Browser.ui cleared).
Proof.
  cbv zeta. do 9 (split; [vm_compute; reflexivity|]).
  vm_compute. discriminate.
Qed.

(** C6, as the code has it. When the decoder rejects the chosen file, the
    document metadata is left as it was and the error message is set; the
    thumbnails, the selected set and (in SplitPDF) the range text are
    empty, having been reset before the decoder was called. Nothing is
    saved and nothing is downloaded. *)
Theorem failed_load_keeps_document_resets_selection
    (fl : Q -> Q) (L : Browser.Libs) (f : Browser.File) :
  Browser.type f = "application/pdf"%string ->
  Browser.getDocument L f = None ->
  (forall st : Browser.St SplitPDF.State,
      Browser.size f <= SplitPDF.MAX_SIZE ->
      let st' := Eff.exec (SplitPDF.handleFileChange fl L (Some f)) st in
      SplitPDF.pdfInfo (Browser.ui st') = SplitPDF.pdfInfo (Browser.ui st) /\
      SplitPDF.selectedPages (Browser.ui st') = [] /\
      SplitPDF.rangeText (Browser.ui st') = EmptyString /\
      SplitPDF.thumbnails (Browser.ui st') = [] /\
      SplitPDF.isProcessing (Browser.ui st') = false /\
      SplitPDF.error (Browser.ui st')
      = Some "Could not load PDF. It might be corrupted or protected."%string /\
      Spec.downloads (Browser.log (Browser.world st'))
      = Spec.downloads (Browser.log (Browser.world st)) /\
      Spec.saved (Browser.log (Browser.world st'))
      = Spec.saved (Browser.log (Browser.world st))) /\
  (forall st : Browser.St RotatePDF.State,
      let st' := Eff.exec (RotatePDF.handleFileChange L (Some f)) st in
      RotatePDF.pdfInfo (Browser.ui st') = RotatePDF.pdfInfo (Browser.ui st) /\
      RotatePDF.selectedPages (Browser.ui st') = [] /\
      RotatePDF.thumbnails (Browser.ui st') = [] /\
      RotatePDF.isProcessing (Browser.ui st') = false /\
      RotatePDF.error (Browser.ui st')
      = Some "Could not load PDF. It might be corrupted or protected."%string /\
      Spec.downloads (Browser.log (Browser.world st'))
      = Spec.downloads (Browser.log (Browser.world st)) /\
      Spec.saved (Browser.log (Browser.world st'))
      = Spec.saved (Browser.log (Browser.world st))).
Proof.
  intros Ht Hload. split.
  - intros [c w] Hs.
    unfold SplitPDF.handleFileChange, Eff.exec. rewrite Ht.
    change (negb (String.eqb "application/pdf" "application/pdf")) with false.
    cbv iota.
    destruct (Browser.size f >? SplitPDF.MAX_SIZE) eqn:E.
    { rewrite Z.gtb_ltb in E. apply Z.ltb_lt in E. lia. }
    cbn. rewrite Hload. cbn.
    rewrite !downloads_app, !saved_app. cbn. rewrite !app_nil_r. repeat split.
  - intros [c w].
    unfold RotatePDF.handleFileChange, Eff.exec. rewrite Ht.
    change (negb (String.eqb "application/pdf" "application/pdf")) with false.
    cbv iota. cbn. rewrite Hload. cbn.
    rewrite !downloads_app, !saved_app. cbn. rewrite !app_nil_r. repeat split.
Qed.

Lemma failed_load_keeps_document_resets_selection_witness :
  let cleared := Eff.exec SplitPDF.onClearClick
                   (Eff.exec (SplitPDF.togglePage 2) Sample.splitLoaded) in
  let cleared' := Eff.exec (SplitPDF.handleFileChange Sample.exact Sample.libs
                              (Some Sample.corrupt)) cleared in
  let fresh' := Eff.exec (RotatePDF.handleFileChange Sample.libs
                            (Some Sample.corrupt)) Sample.rotate0 in
  Browser.getDocument Sample.libs Sample.corrupt = None /\
  SplitPDF.pdfInfo (Browser.ui cleared) = None /\
  SplitPDF.pdfInfo (Browser.ui cleared') = None /\
  SplitPDF.selectedPages (Browser.ui cleared') = [] /\
  SplitPDF.error (Browser.ui cleared')
  = Some "Could not load PDF. It might be corrupted or protected."%string /\
  Spec.saved (Browser.log (Browser.world cleared'))
  = Spec.saved (Browser.log (Browser.world cleared)) /\
  RotatePDF.pdfInfo (Browser.ui fresh') = None /\
  Spec.saved (Browser.log (Browser.world fresh')) = [].
Proof.
  cbv zeta.
  set (cleared := Eff.exec SplitPDF.onClearClick
                    (Eff.exec (SplitPDF.togglePage 2) Sample.splitLoaded)).
  assert (H1 : Browser.type Sample.corrupt = "application/pdf"%string)
    by reflexivity.
  assert (H2 : Browser.getDocument Sample.libs Sample.corrupt = None)
    by reflexivity.
  assert (H3 : Browser.size Sample.corrupt <= SplitPDF.MAX_SIZE)
    by (vm_compute; discriminate).
  assert (H4 : SplitPDF.pdfInfo (Browser.ui cleared) = None)
    by (vm_compute; reflexivity).
  destruct (failed_load_keeps_document_resets_selection
              Sample.exact Sample.libs Sample.corrupt H1 H2) as [HS HR].
  destruct (HS cleared H3) as [S1 [S2 [_ [_ [_ [S6 [_ S8]]]]]]].
  destruct (HR Sample.rotate0) as [R1 [_ [_ [_ [_ [_ R7]]]]]].
  split; [exact H2|]. split; [exact H4|].
  split; [rewrite S1; exact H4|]. split; [exact S2|]. split; [exact S6|].
  split; [exact S8|]. split; [exact R1|exact R7].
Defined.

(** ** Reordering the merge queue *)

Section Queue.
Import JS Eff Browser MergePDF.
Context {A : Type}.

Lemma nth_error_cut (l : list A) (k : nat) (x : A) :
  nth_error l k = Some x -> l = firstn k l ++ x :: skipn (S k) l.
Proof.
  revert k. induction l as [|a l IH]; intros [|k] H; try discriminate.
  - now inversion H.
  - simpl. f_equal. now apply IH.
Qed.

Lemma firstn_app_exact (a b : list A) : firstn (List.length a) (a ++ b) = a.
Proof. induction a; simpl; [now destruct b|now f_equal]. Qed.

Lemma skipn_app_exact (a b : list A) : skipn (List.length a) (a ++ b) = b.
Proof. induction a; simpl; [reflexivity|assumption]. Qed.

Lemma item_app (a b : list A) (x : A) :
  item (a ++ x :: b) (Z.of_nat (List.length a)) = Some x.
Proof.
  assert (H : nth_error (a ++ x :: b) (List.length a) = Some x).
  { induction a; simpl; [reflexivity|assumption]. }
  unfold item. destruct (Z.of_nat (List.length a) <? 0) eqn:E;
    [apply Z.ltb_lt in E; lia|].
  now rewrite Nat2Z.id.
Qed.

Lemma item_Some (l : list A) (i : Z) (x : A) :
  item l i = Some x ->
  0 <= i < Z.of_nat (List.length l) /\ nth_error l (Z.to_nat i) = Some x.
Proof.
  unfold item. destruct (i <? 0) eqn:E; [discriminate|].
  apply Z.ltb_ge in E. intros H. split; [|exact H].
  assert (Hlt : (Z.to_nat i < List.length l)%nat).
  { apply nth_error_Some. congruence. }
  lia.
Qed.

Lemma item_in_range (l : list A) (i : Z) :
  0 <= i < Z.of_nat (List.length l) -> exists x, item l i = Some x.
Proof.
  intros H. unfold item. destruct (i <? 0) eqn:E; [apply Z.ltb_lt in E; lia|].
  destruct (nth_error l (Z.to_nat i)) as [x|] eqn:En; [now exists x|].
  apply nth_error_None in En. lia.
Qed.

Lemma assign_app (a b : list A) (x v : A) :
  assign (a ++ x :: b) (Z.of_nat (List.length a)) v = a ++ v :: b.
Proof.
  unfold assign. rewrite Nat2Z.id, firstn_app_exact.
  change (S (List.length a)) with (1 + List.length a)%nat.
  now rewrite <- skipn_skipn, skipn_app_exact.
Qed.

Lemma findIndexFrom_spec (p : A -> bool) (l : list A) :
  forall i : Z,
    (findIndexFrom p l i = -1 /\ forall x, In x l -> p x = false) \/
    (exists a x b, l = a ++ x :: b /\ p x = true /\
                   (forall y, In y a -> p y = false) /\
                   findIndexFrom p l i = i + Z.of_nat (List.length a)).
Proof.
  induction l as [|y l IH]; intros i; simpl.
  - left. split; [reflexivity|]. intros x [].
  - destruct (p y) eqn:E.
    + right. exists [], y, l. repeat split; auto; [intros ? []|simpl; lia].
    + destruct (IH (i + 1)) as [[H1 H2]|[a [x [b [-> [Hx [Ha Hi]]]]]]].
      * left. split; [exact H1|]. intros x [<-|Hx]; auto.
      * right. exists (y :: a), x, b. repeat split; auto.
        -- intros z [<-|Hz]; auto.
        -- rewrite Hi. simpl List.length. lia.
Qed.

End Queue.

Section Reorder.
Import JS Eff Browser MergePDF.

Lemma swap_perm {A : Type} (l1 l2 : list A) (x y : A) :
  Permutation (l1 ++ y :: x :: l2) (l1 ++ x :: y :: l2).
Proof. apply Permutation_app_head, perm_swap. Qed.

(** What [moveFile] leaves in [files]: either the array as it was, or the
    array with the entry found and its neighbour exchanged. *)
Lemma moveFile_swaps (c : State) (w : World) (id0 : string) (dir : Direction) :
  let fs := files c in
  let fs' := files (ui (exec (moveFile id0 dir) (mkSt c w))) in
  let index := findIndex (fun f => String.eqb (id f) id0) fs in
  let target := match dir with up => index - 1 | down => index + 1 end in
  (index = -1 /\ (forall f, In f fs -> id f <> id0) /\ fs' = fs) \/
  (0 <= index < Z.of_nat (List.length fs) /\
   (target < 0 \/ Z.of_nat (List.length fs) <= target) /\ fs' = fs) \/
  (0 <= index < Z.of_nat (List.length fs) /\
   0 <= target < Z.of_nat (List.length fs) /\
   exists l1 x y l2,
     fs = l1 ++ x :: y :: l2 /\ fs' = l1 ++ y :: x :: l2 /\
     Z.of_nat (List.length l1) = Z.min index target /\
     id (match dir with up => y | down => x end) = id0).
Proof.
  intros fs fs' index target.
  assert (Hfs' : fs' =
    files (ui (snd (
      if index <? 0 then ret tt (mkSt c w)
      else if (target >=? 0) && (target <? Z.of_nat (List.length fs))
      then match item fs target, item fs index with
           | Some a, Some b =>
               setFiles (assign (assign fs index a) target b) (mkSt c w)
           | _, _ => ret tt (mkSt c w)
           end
      else ret tt (mkSt c w))))).
  { subst fs' index target fs. unfold moveFile, exec, bind, gets. cbn [ui].
    destruct (findIndex _ (files c) <? 0); [reflexivity|].
    destruct dir; destruct (andb _ _); try reflexivity;
      destruct (item _ _); try reflexivity; destruct (item _ _); reflexivity. }
  destruct (findIndexFrom_spec (fun f => String.eqb (id f) id0) fs 0)
    as [[Hi Hnone]|[a [x [b [Hsplit [Hx [Ha Hi]]]]]]].
  - left. fold (findIndex (fun f => String.eqb (id f) id0) fs) in Hi.
    fold index in Hi. split; [exact Hi|]. split.
    + intros f Hf E. specialize (Hnone f Hf). cbv beta in Hnone.
      rewrite E, String.eqb_refl in Hnone. discriminate.
    + rewrite Hfs', Hi. reflexivity.
  - right.
    fold (findIndex (fun f => String.eqb (id f) id0) fs) in Hi.
    fold index in Hi. cbn [Z.add] in Hi.
    apply String.eqb_eq in Hx.
    assert (Hlen : List.length fs = (List.length a + S (List.length b))%nat).
    { rewrite Hsplit, length_app. reflexivity. }
    assert (Hpos : (index <? 0) = false) by (apply Z.ltb_ge; lia).
    rewrite Hpos in Hfs'.
    destruct dir.
    + (* up *)
      destruct a as [|y a' _] using rev_ind.
      * left. split; [lia|]. split; [left; subst target; simpl in Hi; lia|].
        rewrite Hfs'. subst target. rewrite Hi. reflexivity.
      * right. rewrite length_app in Hi, Hlen. simpl in Hi, Hlen.
        assert (Ht : target = Z.of_nat (List.length a')) by (subst target; lia).
        assert (Hix : index = Z.of_nat (List.length (a' ++ [y]))).
        { rewrite length_app. simpl. lia. }
        split; [lia|]. split; [lia|].
        exists a', y, x, b.
        assert (Hfs2 : fs = a' ++ y :: x :: b).
        { rewrite Hsplit, <- app_assoc. reflexivity. }
        split; [exact Hfs2|]. split; [|split; [lia|exact Hx]].
        rewrite Hfs'.
        replace ((target >=? 0) && (target <? Z.of_nat (List.length fs)))
          with true by (symmetry; apply andb_true_iff; split;
                        [apply Z.geb_le|apply Z.ltb_lt]; lia).
        rewrite Ht at 1. rewrite Hfs2 at 1. rewrite item_app.
        rewrite Hix at 1. rewrite Hsplit at 1. rewrite item_app.
        cbn [snd ui files setFiles setState modify].
        rewrite Hix, Hsplit, assign_app, <- app_assoc. cbn [app].
        rewrite Ht, assign_app. reflexivity.
    + (* down *)
      destruct b as [|y b'].
      * left. simpl in Hlen. split; [lia|]. split; [right; subst target; lia|].
        rewrite Hfs'.
        replace (target <? Z.of_nat (List.length fs)) with false
          by (symmetry; apply Z.ltb_ge; subst target; lia).
        rewrite andb_false_r. reflexivity.
      * right. simpl in Hlen.
        assert (Hix : index = Z.of_nat (List.length a)) by lia.
        assert (Ht : target = Z.of_nat (List.length (a ++ [x]))).
        { rewrite length_app. simpl. subst target. lia. }
        rewrite length_app in Ht. simpl in Ht.
        split; [lia|]. split; [lia|].
        exists a, x, y, b'.
        split; [exact Hsplit|]. split; [|split; [lia|exact Hx]].
        assert (Hfs2 : fs = (a ++ [x]) ++ y :: b').
        { rewrite Hsplit, <- app_assoc. reflexivity. }
        assert (Ht2 : target = Z.of_nat (List.length (a ++ [x]))).
        { rewrite length_app. simpl. lia. }
        rewrite Hfs'.
        replace ((target >=? 0) && (target <? Z.of_nat (List.length fs)))
          with true by (symmetry; apply andb_true_iff; split;
                        [apply Z.geb_le|apply Z.ltb_lt]; lia).
        rewrite Ht2 at 1. rewrite Hfs2 at 1. rewrite item_app.
        rewrite Hix at 1. rewrite Hsplit at 1. rewrite item_app.
        cbn [snd ui files setFiles setState modify].
        rewrite Hix, Hsplit, assign_app.
        change (a ++ y :: y :: b') with (a ++ [y] ++ y :: b').
        rewrite app_assoc.
        replace target with (Z.of_nat (List.length (a ++ [y])))
          by (rewrite length_app; simpl; lia).
        rewrite assign_app, <- app_assoc. reflexivity.
Qed.

Lemma findIndex_absent (fs : list FileItem) (id0 : string) :
  (forall f, In f fs -> id f <> id0) ->
  findIndex (fun f => String.eqb (id f) id0) fs = -1.
Proof.
  intros H. unfold findIndex.
  destruct (findIndexFrom_spec (fun f => String.eqb (id f) id0) fs 0)
    as [[Hi _]|[a [x [b [Hsplit [Hx _]]]]]]; [exact Hi|].
  apply String.eqb_eq in Hx. exfalso. apply (H x); [|exact Hx].
  rewrite Hsplit. apply in_or_app. right. now left.
Qed.

(** What [onDragOverItem] does when an entry is dragged over another
    one: the dragged entry is taken out and put back at the hovered
    position. *)
Lemma dragOver_moves (c : State) (w : World) (d index : Z) :
  draggedIndex c = Some d -> d <> index ->
  0 <= d < Z.of_nat (List.length (files c)) ->
  0 <= index < Z.of_nat (List.length (files c)) ->
  exists x,
    item (files c) d = Some x /\
    onDragOverItem index (mkSt c w) =
    (Returned tt,
     mkSt {| files := firstn (Z.to_nat index) (Spec.without (Z.to_nat d) (files c))
                      ++ x :: skipn (Z.to_nat index)
                                (Spec.without (Z.to_nat d) (files c));
             isMerging := isMerging c; mergeProgress := mergeProgress c;
             isDraggingOver := isDraggingOver c; draggedIndex := Some index;
             errorMessage := errorMessage c; showOptions := showOptions c;
             options := options c |} w).
Proof.
  intros Hd Hne Hdr Hir.
  destruct (item_in_range (files c) d Hdr) as [x Hx].
  exists x. split; [exact Hx|].
  unfold onDragOverItem, bind, gets. cbn [ui]. rewrite Hd.
  destruct (d =? index) eqn:E; [apply Z.eqb_eq in E; contradiction|].
  rewrite Hx. cbn [orThrow ret].
  assert (Hs1 : splice (files c) d 1 [] = Spec.without (Z.to_nat d) (files c)).
  { unfold splice, Spec.without.
    destruct (d <? 0) eqn:E1; [apply Z.ltb_lt in E1; lia|].
    rewrite Z.min_l by lia. cbn [app]. now rewrite Nat.add_1_r. }
  rewrite Hs1.
  assert (Hlen : List.length (Spec.without (Z.to_nat d) (files c))
                 = (List.length (files c) - 1)%nat).
  { unfold Spec.without. rewrite length_app, length_firstn, length_skipn. lia. }
  assert (Hs2 : splice (Spec.without (Z.to_nat d) (files c)) index 0 [x]
                = firstn (Z.to_nat index) (Spec.without (Z.to_nat d) (files c))
                  ++ x :: skipn (Z.to_nat index)
                            (Spec.without (Z.to_nat d) (files c))).
  { unfold splice. rewrite Hlen.
    destruct (index <? 0) eqn:E1; [apply Z.ltb_lt in E1; lia|].
    rewrite Z.min_l by lia. now rewrite Nat.add_0_r. }
  rewrite Hs2. reflexivity.
Qed.

Lemma without_insert {A : Type} (k : nat) (m : list A) (x : A) :
  (k <= List.length m)%nat ->
  Spec.without k (firstn k m ++ x :: skipn k m) = m /\
  nth_error (firstn k m ++ x :: skipn k m) k = Some x.
Proof.
  intros Hk.
  assert (Hl : List.length (firstn k m) = k) by (rewrite length_firstn; lia).
  assert (Hm : firstn k m ++ skipn k m = m) by apply firstn_skipn.
  remember (firstn k m) as a eqn:Ea. remember (skipn k m) as b eqn:Eb.
  clear Ea Eb Hk. subst k. split.
  - unfold Spec.without. rewrite firstn_app_exact.
    change (S (List.length a)) with (1 + List.length a)%nat.
    rewrite <- skipn_skipn, skipn_app_exact. exact Hm.
  - rewrite nth_error_app2 by lia. now rewrite Nat.sub_diag.
Qed.

End Reorder.

(** C10. Both ways of reordering the merge queue permute it: the array
    afterwards has the same length and the same entries.
    [moveFile(id, direction)] leaves the array alone when no entry has
    the id or when the neighbour position is outside the array, and
    otherwise exchanges the first entry with that id and its neighbour
    (the one before for [up], the one after for [down]).
    [onDragOverItem(index)], for a dragged position and a hovered position
    inside the array, leaves the state alone when nothing is dragged or
    the entry is over itself, and otherwise puts the dragged entry at the
    hovered position, the other entries keeping their order, and records
    the hovered position as the dragged one. *)
Theorem reorder_is_permutation :
  (forall (c : MergePDF.State) (w : Browser.World) (id0 : string)
          (dir : MergePDF.Direction),
      let fs := MergePDF.files c in
      let fs' := MergePDF.files
                   (Browser.ui (Eff.exec (MergePDF.moveFile id0 dir)
                                  (Browser.mkSt c w))) in
      let index := JS.findIndex (fun f => String.eqb (MergePDF.id f) id0) fs in
      let target := match dir with
                    | MergePDF.up => index - 1
                    | MergePDF.down => index + 1
                    end in
      Permutation fs' fs /\ List.length fs' = List.length fs /\
      ((forall f, In f fs -> MergePDF.id f <> id0) -> fs' = fs) /\
      (target < 0 \/ Z.of_nat (List.length fs) <= target -> fs' = fs) /\
      (0 <= index -> 0 <= target < Z.of_nat (List.length fs) ->
       exists l1 x y l2,
         fs = l1 ++ x :: y :: l2 /\ fs' = l1 ++ y :: x :: l2 /\
         Z.of_nat (List.length l1) = Z.min index target /\
         MergePDF.id (match dir with MergePDF.up => y | MergePDF.down => x end)
         = id0)) /\
  (forall (c : MergePDF.State) (w : Browser.World) (index : Z),
      (forall d, MergePDF.draggedIndex c = Some d ->
                 0 <= d < Z.of_nat (List.length (MergePDF.files c))) ->
      0 <= index < Z.of_nat (List.length (MergePDF.files c)) ->
      let fs := MergePDF.files c in
      let r := MergePDF.onDragOverItem index (Browser.mkSt c w) in
      let fs' := MergePDF.files (Browser.ui (snd r)) in
      fst r = Eff.Returned tt /\
      Permutation fs' fs /\ List.length fs' = List.length fs /\
      match MergePDF.draggedIndex c with
      | None => snd r = Browser.mkSt c w
      | Some d =>
          if d =? index then snd r = Browser.mkSt c w
          else JS.item fs' index = JS.item fs d /\
               Spec.without (Z.to_nat index) fs' = Spec.without (Z.to_nat d) fs /\
               MergePDF.draggedIndex (Browser.ui (snd r)) = Some index
      end).
Proof.
  split.
  - intros c w id0 dir fs fs' index target.
    pose proof (moveFile_swaps c w id0 dir) as H. cbv zeta in H.
    fold fs fs' index target in H.
    destruct H as [[Hi [Hno E]]|[[Hi [Ht E]]|[Hi [Ht [l1 [x [y [l2 [E1 [E2 [E3 E4]]]]]]]]]]].
    + rewrite E. split; [reflexivity|]. split; [reflexivity|].
      split; [intros _; reflexivity|]. split; [intros _; reflexivity|].
      intros; lia.
    + rewrite E. split; [reflexivity|]. split; [reflexivity|].
      split; [intros _; reflexivity|]. split; [intros _; reflexivity|].
      intros; lia.
    + split; [rewrite E1, E2; apply swap_perm|].
      split; [rewrite E1, E2, !length_app; reflexivity|].
      split; [|split].
      * intros Hno. apply findIndex_absent in Hno. fold fs index in Hno. lia.
      * lia.
      * intros _ _. exists l1, x, y, l2. auto.
  - intros c w index Hd Hi fs r fs'. subst fs.
    destruct (MergePDF.draggedIndex c) as [d|] eqn:Ed.
    + destruct (d =? index) eqn:E.
      * subst fs' r. unfold MergePDF.onDragOverItem, Eff.bind, Eff.gets.
        cbn [Browser.ui]. rewrite Ed, E. cbn. auto.
      * apply Z.eqb_neq in E. specialize (Hd d eq_refl).
        destruct (dragOver_moves c w d index Ed E Hd Hi) as [x [Hx Hr]].
        subst fs' r. rewrite Hr. cbn [fst snd Browser.ui MergePDF.files
                                        MergePDF.draggedIndex].
        apply item_Some in Hx. destruct Hx as [_ Hx].
        pose proof (nth_error_cut _ _ _ Hx) as Hcut.
        set (m := Spec.without (Z.to_nat d) (MergePDF.files c)).
        assert (Hm : List.length m = (List.length (MergePDF.files c) - 1)%nat).
        { unfold m, Spec.without.
          rewrite length_app, length_firstn, length_skipn. lia. }
        assert (Hk : (Z.to_nat index <= List.length m)%nat)
          by (rewrite Hm; lia).
        destruct (without_insert (Z.to_nat index) m x Hk) as [Hw Hn].
        assert (Hperm : Permutation
                          (firstn (Z.to_nat index) m ++ x :: skipn (Z.to_nat index) m)
                          (MergePDF.files c)).
        { transitivity (x :: m).
          - rewrite <- Permutation_middle, firstn_skipn. reflexivity.
          - unfold m, Spec.without. rewrite Permutation_middle.
            rewrite <- Hcut. reflexivity. }
        split; [reflexivity|]. split; [exact Hperm|].
        split; [apply Permutation_length, Hperm|].
        split; [|split; [exact Hw|reflexivity]].
        unfold JS.item.
        destruct (index <? 0) eqn:E1; [apply Z.ltb_lt in E1; lia|].
        destruct (d <? 0) eqn:E2; [apply Z.ltb_lt in E2; lia|].
        now rewrite Hn, Hx.
    + subst fs' r. unfold MergePDF.onDragOverItem, Eff.bind, Eff.gets.
      cbn [Browser.ui]. rewrite Ed. cbn. auto.
Qed.

Lemma reorder_is_permutation_witness :
  let q := [Sample.queued "a" Sample.report; Sample.queued "b" Sample.notes;
            Sample.queued "c" Sample.appendix] in
  let c := Browser.ui (Eff.exec (MergePDF.onDragStartItem 2) (Sample.merge0 false q)) in
  0 <= 0 < Z.of_nat (List.length (MergePDF.files c)) /\
  MergePDF.draggedIndex c = Some 2 /\
  Permutation
    (MergePDF.files
       (Browser.ui (snd (MergePDF.onDragOverItem 0 (Browser.mkSt c Sample.world0)))))
    (MergePDF.files c).
Proof.
  cbv zeta.
  set (c := Browser.ui (Eff.exec (MergePDF.onDragStartItem 2) (Sample.merge0 false _))).
  assert (H1 : forall d, MergePDF.draggedIndex c = Some d ->
                         0 <= d < Z.of_nat (List.length (MergePDF.files c))).
  { intros d Hd. vm_compute in Hd. inversion Hd. vm_compute.
    split; [discriminate|reflexivity]. }
  assert (H2 : 0 <= 0 < Z.of_nat (List.length (MergePDF.files c))).
  { vm_compute. split; [discriminate|reflexivity]. }
  split; [exact H2|]. split; [reflexivity|].
  exact (proj1 (proj2 (proj2 reorder_is_permutation c Sample.world0 0 H1 H2))).
Defined.

(** ** Progress arithmetic *)

Section Shares.
Import JS Spec.
Variable fl : Q -> Q.
Hypothesis Hfl : Rounding fl.

Lemma fl_proper (x y : Q) : (x == y)%Q -> (fl x == fl y)%Q.
Proof.
  intros E. apply Qle_antisym; apply (fl_mono fl Hfl); rewrite E; apply Qle_refl.
Qed.

Lemma round_mono (x y : Q) : (x <= y)%Q -> Math_round x <= Math_round y.
Proof.
  intros H. unfold Math_round. apply Qfloor_resp_le.
  apply Qplus_le_compat; [exact H|apply Qle_refl].
Qed.

Lemma round_int (z : Z) (x : Q) : (x == inject_Z z)%Q -> Math_round x = z.
Proof.
  intros E. unfold Math_round.
  rewrite (Qfloor_comp _ (inject_Z z + (1 # 2))) by (now rewrite E).
  pose proof (Qfloor_le (inject_Z z + (1 # 2))) as H1.
  pose proof (Qlt_floor (inject_Z z + (1 # 2))) as H2.
  set (f := Qfloor (inject_Z z + (1 # 2))) in *.
  clearbody f. unfold Qle, Qlt, Qplus, inject_Z in H1, H2.
  simpl in H1, H2. clear - H1 H2. lia.
Qed.

Lemma ratio_mono (i j n : Z) :
  0 < n -> i <= j -> (inject_Z i / inject_Z n <= inject_Z j / inject_Z n)%Q.
Proof.
  intros Hn Hij. unfold Qdiv. apply Qmult_le_compat_r.
  - now rewrite <- Zle_Qle.
  - apply Qinv_le_0_compat. change 0%Q with (inject_Z 0).
    rewrite <- Zle_Qle. lia.
Qed.

Lemma share_mono (i j n : Z) (w : Q) :
  0 < n -> (0 <= w)%Q -> i <= j -> share fl i n w <= share fl j n w.
Proof.
  intros Hn Hw Hij. unfold share, fmul, fdiv.
  apply round_mono, (fl_mono fl Hfl), Qmult_le_compat_r; [|exact Hw].
  apply (fl_mono fl Hfl), ratio_mono; assumption.
Qed.

Lemma fl_small (z : Z) : Z.abs z <= 100 -> (fl (inject_Z z) == inject_Z z)%Q.
Proof.
  intros H. apply (fl_int fl Hfl).
  assert (100 <= 2 ^ 53) by (vm_compute; discriminate). lia.
Qed.

Lemma share_zero (n : Z) (w : Z) :
  0 < n -> 0 <= w <= 100 -> share fl 0 n (inject_Z w) = 0.
Proof.
  intros Hn Hw. unfold share, fmul, fdiv. apply round_int.
  assert (E : (fl (inject_Z 0 / inject_Z n) == 0)%Q).
  { rewrite (fl_proper _ (inject_Z 0)); [apply fl_small; simpl; lia|].
    unfold Qdiv. apply Qmult_0_l. }
  rewrite (fl_proper _ (inject_Z 0)); [apply fl_small; simpl; lia|].
  rewrite E. apply Qmult_0_l.
Qed.

Lemma share_full (n : Z) (w : Z) :
  0 < n -> 0 <= w <= 100 -> share fl n n (inject_Z w) = w.
Proof.
  intros Hn Hw. unfold share, fmul, fdiv. apply round_int.
  assert (E : (fl (inject_Z n / inject_Z n) == 1)%Q).
  { rewrite (fl_proper _ (inject_Z 1)); [apply fl_small; simpl; lia|].
    unfold Qdiv. apply Qmult_inv_r. intros E0.
    change 0%Q with (inject_Z 0) in E0.
    apply (proj1 (inject_Z_injective _ _)) in E0. lia. }
  rewrite (fl_proper _ (inject_Z w)); [apply fl_small; lia|].
  rewrite E. apply Qmult_1_l.
Qed.

Lemma share_bounds (i n : Z) (w : Z) :
  0 < n -> 0 <= w <= 100 -> 0 <= i <= n ->
  0 <= share fl i n (inject_Z w) <= w.
Proof.
  intros Hn Hw Hi.
  assert (Hq : (0 <= inject_Z w)%Q).
  { change 0%Q with (inject_Z 0). rewrite <- Zle_Qle. lia. }
  split.
  - rewrite <- (share_zero n w Hn Hw). apply share_mono; [exact Hn|exact Hq|lia].
  - rewrite <- (share_full n w Hn Hw) at 2.
    apply share_mono; [exact Hn|exact Hq|lia].
Qed.

Lemma nondecreasing_cons (a : Z) (l : list Z) :
  nondecreasing l -> (forall b, In b l -> a <= b) -> nondecreasing (a :: l).
Proof.
  intros Hl Ha. simpl. split; [|exact Hl].
  destruct l as [|b l]; [exact I|]. apply Ha. now left.
Qed.


(** The values of a reporting loop that stays within its [n] steps. *)
Lemma shares_props (w : Z) (n : Z) (k : nat) :
  forall i : Z,
    0 <= w <= 100 -> 0 <= i -> i + Z.of_nat k <= n ->
    nondecreasing (shares fl k i n (inject_Z w)) /\
    (forall v, In v (shares fl k i n (inject_Z w)) ->
               share fl (i + 1) n (inject_Z w) <= v <= w /\ 0 <= v) /\
    (k <> O -> i + Z.of_nat k = n ->
     last (shares fl k i n (inject_Z w)) 0 = w).
Proof.
  assert (Hq : 0 <= w -> (0 <= inject_Z w)%Q).
  { intros H. change 0%Q with (inject_Z 0). now rewrite <- Zle_Qle. }
  induction k as [|k IH]; intros i Hw Hi Hk.
  - simpl. split; [exact I|]. split; [intros v []|congruence].
  - assert (Hn : 0 < n) by lia.
    destruct (IH (i + 1) Hw ltac:(lia) ltac:(lia)) as [Hnd [Hin Hlast]].
    cbn [shares].
    pose proof (share_bounds (i + 1) n w Hn Hw ltac:(lia)) as Hb.
    split; [|split].
    + apply nondecreasing_cons; [exact Hnd|].
      intros b Hb'. destruct (Hin b Hb') as [[H1 _] _].
      etransitivity; [|exact H1].
      apply share_mono; [exact Hn|apply Hq; lia|lia].
    + intros v [<-|Hv]; [lia|].
      destruct (Hin v Hv) as [[H1 H2] H3]. split; [|exact H3].
      split; [|exact H2]. etransitivity; [|exact H1].
      apply share_mono; [exact Hn|apply Hq; lia|lia].
    + intros _ Hend. destruct k as [|k].
      * simpl. replace (i + 1) with n by lia. now apply share_full.
      * specialize (Hlast ltac:(discriminate) ltac:(lia)).
        cbn [shares] in *. exact Hlast.
Qed.

End Shares.

(** ** The loops of the transforms *)

Section Loops.
Import JS Eff Browser Spec.
Variable fl : Q -> Q.
Variable L : Libs.

Lemma copyPages_from (src : Document) (n : nat) :
  forall a : nat,
    (a + n <= List.length src)%nat ->
    copyPages src (map Z.of_nat (seq a n)) = Some (firstn n (skipn a src)).
Proof.
  induction n as [|n IH]; intros a Ha; [reflexivity|].
  cbn [seq map copyPages].
  destruct (Z.of_nat a <? 0) eqn:E; [apply Z.ltb_lt in E; lia|].
  rewrite Nat2Z.id, IH by lia.
  destruct (nth_error src a) as [p|] eqn:En;
    [|apply nth_error_None in En; lia].
  f_equal. clear IH E.
  revert a Ha En. induction src as [|q src IHs]; intros a Ha En.
  - destruct a; discriminate.
  - destruct a as [|a]; simpl in *.
    + now inversion En.
    + apply IHs; [lia|exact En].
Qed.

(** Copying the pages at all the indices of a document copies it. *)
Lemma copyPages_all (doc : Document) :
  copyPages doc (MergePDF.getPageIndices doc) = Some doc.
Proof.
  unfold MergePDF.getPageIndices.
  rewrite copyPages_from by lia. cbn [skipn]. now rewrite firstn_all.
Qed.

Lemma last_cons {A : Type} (x : A) (l : list A) (d : A) :
  last (x :: l) d = last l x.
Proof.
  revert x d. induction l as [|y l IH]; intros x d; [reflexivity|].
  change (last (x :: y :: l) d) with (last (y :: l) d).
  now rewrite !IH.
Qed.

Lemma mergeFrame_refl (st : St MergePDF.State) : mergeFrame st st.
Proof. repeat split. Qed.

Lemma mergeLoop_run (items : list MergePDF.FileItem) :
  forall (i len : Z) (merged : Document) (st : St MergePDF.State) r st',
    MergePDF.mergeLoop fl L items i len merged st = (r, st') ->
    mergeFrame st st' /\
    exists k : nat,
      (k <= List.length items)%nat /\
      progressValues (log (world st')) =
      progressValues (log (world st)) ++ shares fl k i len 50 /\
      MergePDF.mergeProgress (ui st') =
      last (shares fl k i len 50) (MergePDF.mergeProgress (ui st)) /\
      match r with
      | Returned _ => k = List.length items
      | Thrown => (k < List.length items)%nat
      end.
Proof.
  induction items as [|item rest IH]; intros i len merged st r st' H.
  - inversion H; subst. split; [apply mergeFrame_refl|].
    exists O. cbn. rewrite app_nil_r. auto.
  - cbn in H.
    destruct (loadDocument L (MergePDF.file item)) as [pdf|].
    + cbn in H. rewrite copyPages_all in H. cbn in H.
      apply IH in H. destruct H as [Hf [k [Hk [Hp [Hm Hr]]]]].
      split.
      * destruct Hf as [H1 [H2 [H3 [H4 [H5 [H6 H7]]]]]]. cbn in *.
        rewrite !downloads_app in H6. rewrite !saved_app in H7.
        cbn in *. rewrite ?app_nil_r in *. repeat split; assumption.
      * exists (S k). split; [cbn; lia|]. split; [|split].
        -- rewrite Hp. cbn. rewrite !progressValues_app. cbn.
           rewrite app_nil_r, <- app_assoc. reflexivity.
        -- rewrite Hm. cbn [shares ui MergePDF.mergeProgress].
           rewrite last_cons. reflexivity.
        -- destruct r; cbn; lia.
    + cbn in H. inversion H; subst. split.
      * unfold mergeFrame. cbn. rewrite !downloads_app, !saved_app. cbn.
        rewrite !app_nil_r. repeat split.
      * exists O. cbn. rewrite progressValues_app. cbn.
        split; [lia|]. split; [reflexivity|]. split; [reflexivity|lia].
Qed.

Lemma mergeLoop_ok (items : list MergePDF.FileItem) (docs : list Document) :
  allLoad L items docs ->
  forall (i len : Z) (merged : Document) (st : St MergePDF.State),
    fst (MergePDF.mergeLoop fl L items i len merged st) =
    Returned (merged ++ List.concat docs).
Proof.
  induction 1 as [|item doc items docs Hload _ IH]; intros i len merged st.
  - cbn. now rewrite app_nil_r.
  - cbn. rewrite Hload. cbn. rewrite copyPages_all. cbn.
    rewrite IH, <- app_assoc. reflexivity.
Qed.

Lemma numberLoop_run (opts : MergePDF.NumberingOptions) (pages : list Page) :
  forall (i total : Z) (numbered : list Page) (st : St MergePDF.State),
    exists st',
      MergePDF.numberLoop fl L opts pages i total numbered st =
      (Returned (numbered ++ numberFrom fl L opts total i pages), st') /\
      mergeFrame st st' /\
      progressValues (log (world st')) =
      progressValues (log (world st))
      ++ map (Z.add 50) (shares fl (List.length pages) i total 50) /\
      MergePDF.mergeProgress (ui st') =
      last (map (Z.add 50) (shares fl (List.length pages) i total 50))
        (MergePDF.mergeProgress (ui st)).
Proof.
  induction pages as [|page rest IH]; intros i total numbered st.
  - exists st. cbn. rewrite !app_nil_r. repeat split.
  - cbn -[MergePDF.numberPage Z.add].
    match goal with
    | |- context [MergePDF.numberLoop fl L opts rest ?i' total ?n' ?s'] =>
        destruct (IH i' total n' s') as [st' [Hrun [Hf [Hp Hm]]]]
    end.
    exists st'. split; [rewrite Hrun, <- app_assoc; reflexivity|].
    split; [|split].
    + destruct Hf as [H1 [H2 [H3 [H4 [H5 [H6 H7]]]]]]. cbn -[Z.add] in *.
      rewrite !downloads_app in H6. rewrite !saved_app in H7.
      cbn -[Z.add] in *. rewrite ?app_nil_r in *. repeat split; assumption.
    + rewrite Hp. cbn -[Z.add]. rewrite !progressValues_app. cbn -[Z.add].
      rewrite ?app_nil_r, <- app_assoc. reflexivity.
    + rewrite Hm. symmetry. apply last_cons.
Qed.

End Loops.

Section Runs.
Import JS Eff Browser Spec.
Variable fl : Q -> Q.
Variable L : Libs.

Lemma burstLoop_run (src : Document) (n : nat) :
  forall (i count : Z) (zip : list (string * Document))
         (st : St SplitPDF.State) r st',
    SplitPDF.burstLoop fl src n i count zip st = (r, st') ->
    splitFrame st st' /\
    exists k : nat,
      (k <= n)%nat /\
      progressValues (log (world st')) =
      progressValues (log (world st)) ++ shares fl k i count 100 /\
      match r with
      | Returned z => k = n /\ List.length z = (List.length zip + n)%nat
      | Thrown => (k < n)%nat
      end.
Proof.
  induction n as [|n IH]; intros i count zip st r st' H.
  - inversion H; subst. split; [repeat split|].
    exists O. cbn. rewrite app_nil_r. split; [lia|]. split; [reflexivity|].
    split; [reflexivity|lia].
  - cbn [SplitPDF.burstLoop] in H. destruct (copyPages src [i]) as [copied|].
    + cbn in H. apply IH in H. destruct H as [Hf [k [Hk [Hp Hr]]]].
      split.
      * destruct Hf as [H1 [H2 [H3 [H4 H5]]]]. cbn in *.
        rewrite !downloads_app in H5. cbn in H5. rewrite ?app_nil_r in H5.
        repeat split; assumption.
      * exists (S k). split; [lia|]. split.
        -- rewrite Hp. cbn. rewrite !progressValues_app. cbn.
           rewrite ?app_nil_r, <- app_assoc. reflexivity.
        -- destruct r as [z|]; [|lia]. destruct Hr as [-> Hz].
           split; [reflexivity|]. rewrite Hz, length_app. simpl. lia.
    + cbn in H. inversion H; subst. split; [repeat split|].
      exists O. cbn. rewrite app_nil_r. split; [lia|]. split; [reflexivity|lia].
Qed.


(** One run of [handleMerge] over a queue of at least two files: what it
    reports, and what it hands to the browser when every file decodes. *)
Lemma handleMerge_run (st : St MergePDF.State) :
  let c := ui st in
  let len := Z.of_nat (List.length (MergePDF.files c)) in
  let st' := exec (MergePDF.handleMerge fl L) st in
  2 <= len ->
  exists (k : nat) (tail : list Z),
    (k <= List.length (MergePDF.files c))%nat /\
    progressValues (log (world st')) =
    progressValues (log (world st)) ++ 0 :: shares fl k 0 len 50 ++ tail /\
    ((tail = [] /\
      downloads (log (world st')) = downloads (log (world st)) /\
      liveURLs (world st') = liveURLs (world st) /\
      forall docs, ~ allLoad L (MergePDF.files c) docs) \/
     (exists merged : Document,
        k = List.length (MergePDF.files c) /\
        (forall docs, allLoad L (MergePDF.files c) docs ->
                      merged = List.concat docs) /\
        let total := Z.of_nat (List.length merged) in
        let out := if MergePDF.enabled (MergePDF.options c)
                   then numberFrom fl L (MergePDF.options c) total 0 merged
                   else merged in
        tail = (if MergePDF.enabled (MergePDF.options c)
                then map (Z.add 50) (shares fl (List.length merged) 0 total 50)
                else [100]) /\
        MergePDF.mergeProgress (ui st') = last tail (last (shares fl k 0 len 50) 0) /\
        downloads (log (world st')) =
        downloads (log (world st))
        ++ [(PdfBlob out,
             ("Noobu_Merged_" ++ toString (now (world st)) ++ ".pdf")%string)] /\
        saved (log (world st')) = saved (log (world st)) ++ [out] /\
        liveURLs (world st') =
        (nextURL (world st), PdfBlob out) :: liveURLs (world st))).
Proof.
  intros c len st' Hlen. subst st'.
  unfold MergePDF.handleMerge, exec. cbn -[MergePDF.mergeLoop MergePDF.numberLoop Z.add].
  fold c. fold len.
  destruct (len <? 2) eqn:E2; [apply Z.ltb_lt in E2; lia|].
  cbn -[MergePDF.mergeLoop MergePDF.numberLoop Z.add].
  unfold tryCatch, bind. cbn beta.
  match goal with
  | |- context [MergePDF.mergeLoop fl L ?a ?b ?d ?e ?s] =>
      pose proof (fun docs H => mergeLoop_ok fl L a docs H b d e s) as Hok;
      destruct (MergePDF.mergeLoop fl L a b d e s) as [r st2] eqn:E
  end.
  apply mergeLoop_run in E.
  destruct E as [[F1 [F2 [F3 [F4 [F5 [F6 F7]]]]]] [k [Hk [Hp [Hm Hr]]]]].
  cbn -[Z.add] in F1, F2, F3, F4, F5, F6, F7, Hp, Hm, Hok.
  rewrite !downloads_app in F6. rewrite !saved_app in F7.
  rewrite !progressValues_app in Hp.
  cbn -[Z.add] in F6, F7, Hp. rewrite ?app_nil_r in F6, F7.
  exists k. destruct r as [merged|].
  - (* every file went through *)
    assert (Hmerged : forall docs, allLoad L (MergePDF.files c) docs ->
                                   merged = List.concat docs).
    { intros docs Hd. specialize (Hok docs Hd). cbn in Hok. congruence. }
    destruct (MergePDF.enabled (MergePDF.options c)) eqn:En.
    + destruct (numberLoop_run fl L (MergePDF.options c) merged 0
                  (Z.of_nat (List.length merged)) [] st2)
        as [st3 [Hrun [[G1 [G2 [G3 [G4 [G5 [G6 G7]]]]]] [Gp Gm]]]].
      exists (map (Z.add 50)
                (shares fl (List.length merged) 0
                   (Z.of_nat (List.length merged)) 50)).
      split; [lia|].
      cbn -[MergePDF.numberLoop Z.add]. rewrite Hrun.
      cbn -[Z.add]. rewrite Nat.eqb_refl.
      cbn -[Z.add].
      rewrite !progressValues_app, !downloads_app, !saved_app.
      cbn -[Z.add]. rewrite ?app_nil_r.
      rewrite Gp, Hp, G6, F6, G7, F7, G3, F3, G4, F4, G5, F5, <- !app_assoc.
      split; [reflexivity|]. right. exists merged.
      split; [exact Hr|]. split; [exact Hmerged|].
      cbv zeta.
      split; [reflexivity|]. split; [|repeat split].
      rewrite Gm, Hm. cbn -[Z.add].
      destruct (map _ _); [reflexivity|]. rewrite !last_cons. reflexivity.
    + exists [100]. split; [lia|].
      cbn -[Z.add]. rewrite Nat.eqb_refl. cbn -[Z.add].
      rewrite !progressValues_app, !downloads_app, !saved_app.
      cbn -[Z.add]. rewrite ?app_nil_r.
      rewrite Hp, F6, F7, F3, F4, F5, <- !app_assoc.
      split; [reflexivity|]. right. exists merged.
      split; [exact Hr|]. split; [exact Hmerged|].
      cbv zeta. repeat split.
  - (* a file failed to decode *)
    exists []. split; [lia|].
    cbn -[Z.add]. rewrite !progressValues_app, !downloads_app.
    cbn -[Z.add]. rewrite ?app_nil_r. rewrite Hp, F6, F3, <- !app_assoc.
    split; [reflexivity|]. left. repeat split.
    intros docs Hd. specialize (Hok docs Hd). cbn in Hok. discriminate.
Qed.

End Runs.

Section RunsSplit.
Import JS Eff Browser Spec.
Variable fl : Q -> Q.
Variable L : Libs.


Lemma numberFrom_length (opts : MergePDF.NumberingOptions) (pages : list Page) :
  forall total i,
    List.length (numberFrom fl L opts total i pages) = List.length pages.
Proof.
  induction pages as [|p pages IH]; intros total i; [reflexivity|].
  cbn [numberFrom List.length]. now rewrite IH.
Qed.

Lemma numberFrom_nth (opts : MergePDF.NumberingOptions) (pages : list Page) :
  forall (total i : Z) (k : nat) (page : Page),
    nth_error pages k = Some page ->
    nth_error (numberFrom fl L opts total i pages) k =
    Some (MergePDF.numberPage fl L opts total (i + Z.of_nat k) page).
Proof.
  induction pages as [|p pages IH]; intros total i k page H.
  - destruct k; discriminate.
  - destruct k as [|k].
    + inversion H; subst. cbn [numberFrom nth_error].
      now rewrite Z.add_0_r.
    + cbn [numberFrom nth_error]. rewrite (IH total (i + 1) k page H).
      do 2 f_equal. lia.
Qed.

(** [downloadBlob] hands the blob to the browser and revokes the URL it
    made for it. *)
Lemma downloadBlob_releases {C : Type} (st : St C) (blob : Blob) (filename : string) :
  (forall e, In e (liveURLs (world st)) -> fst e <> nextURL (world st)) ->
  let st' := exec (SplitPDF.downloadBlob blob filename) st in
  liveURLs (world st') = liveURLs (world st) /\
  log (world st') = log (world st) ++ [Download (nextURL (world st)) blob filename] /\
  ui st' = ui st.
Proof.
  intros Hfresh.
  unfold SplitPDF.downloadBlob, clickLink, bind, gets, exec. cbn.
  rewrite !Nat.eqb_refl. cbn. rewrite ?Nat.eqb_refl. cbn [negb].
  split; [|split; reflexivity].
  induction (liveURLs (world st)) as [|e l IH]; [reflexivity|].
  cbn. destruct (Nat.eqb (fst e) (nextURL (world st))) eqn:E.
  - apply Nat.eqb_eq in E. exfalso. apply (Hfresh e); [now left|exact E].
  - cbn. f_equal. apply IH. intros e' He'. apply Hfresh. now right.
Qed.

End RunsSplit.

(** ** Merging: output and progress *)

Section MergeFacts.
Import JS Eff Browser Spec.





Variable fl : Q -> Q.
Hypothesis Hfl : Rounding fl.




End MergeFacts.

(** With exact arithmetic the label of a centre anchor has its middle at
    the middle of the page. *)
Lemma centre_anchor_is_centred (w h tw fs : Q) (pos : MergePDF.Position) :
  pos = MergePDF.bottom_center \/ pos = MergePDF.top_center ->
  (fst (MergePDF.labelPosition Sample.exact pos w h tw fs) + tw / 2 == w / 2)%Q.
Proof.
  intros [->| ->]; unfold MergePDF.labelPosition, JS.fsub, JS.fdiv, Sample.exact;
    cbn [fst]; field.
Qed.

(** C7. A queue of at least two files, all of which decode, is merged
    into one document whose pages are the pages of the queued documents
    in queue order, so [n1 + ... + nk] pages in all; that document is
    what is saved and downloaded. With numbering on, page [i] (from 1) of
    the merged document gets one more text, "Page i of Total", [Total]
    being the page count of the merged document, at the font size of the
    options and at the position the anchor gives. With [w] and [h] the
    width and height of the page, [tw] the measured width of the text,
    [fs] the font size and a margin of 20: the abscissa is
    [w / 2 - tw / 2] for the two centre anchors, [w - tw - 20] for the two
    right anchors and [20] for the two left anchors; the ordinate is [20]
    for the three bottom anchors and [h - 20 - fs] for the three top
    anchors, every operation rounded as the doubles are. *)
Theorem merge_concatenates_and_numbers
    (fl : Q -> Q) (L : Browser.Libs) (st : Browser.St MergePDF.State)
    (docs : list Browser.Document) :
  2 <= Z.of_nat (List.length (MergePDF.files (Browser.ui st))) ->
  Spec.allLoad L (MergePDF.files (Browser.ui st)) docs ->
  let opts := MergePDF.options (Browser.ui st) in
  let merged := List.concat docs in
  let total := Z.of_nat (List.length merged) in
  let st' := Eff.exec (MergePDF.handleMerge fl L) st in
  exists out : Browser.Document,
    Spec.downloads (Browser.log (Browser.world st')) =
    Spec.downloads (Browser.log (Browser.world st))
    ++ [(Browser.PdfBlob out,
         ("Noobu_Merged_" ++ JS.toString (Browser.now (Browser.world st))
          ++ ".pdf")%string)] /\
    Spec.saved (Browser.log (Browser.world st')) =
    Spec.saved (Browser.log (Browser.world st)) ++ [out] /\
    List.length out = list_sum (map (@List.length Browser.Page) docs) /\
    (MergePDF.enabled opts = false -> out = merged) /\
    (MergePDF.enabled opts = true ->
     forall (i : nat) (page : Browser.Page),
       nth_error merged i = Some page ->
       exists label : Browser.Text,
         nth_error out i = Some (MergePDF.drawText page label) /\
         Browser.text label =
         ("Page " ++ JS.toString (Z.of_nat i + 1) ++ " of "
          ++ JS.toString total)%string /\
         Browser.textSize label = MergePDF.fontSize opts /\
         (Browser.x label, Browser.y label) =
         MergePDF.labelPosition fl (MergePDF.position opts)
           (Browser.width page) (Browser.height page)
           (Browser.widthOfTextAtSize L (Browser.text label)
              (MergePDF.fontSize opts))
           (MergePDF.fontSize opts) /\
         (MergePDF.position opts = MergePDF.bottom_center \/
          MergePDF.position opts = MergePDF.top_center ->
          Browser.x label =
          JS.fsub fl (JS.fdiv fl (Browser.width page) 2)
            (JS.fdiv fl
               (Browser.widthOfTextAtSize L (Browser.text label)
                  (MergePDF.fontSize opts)) 2)) /\
         (MergePDF.position opts = MergePDF.bottom_right \/
          MergePDF.position opts = MergePDF.top_right ->
          Browser.x label =
          JS.fsub fl
            (JS.fsub fl (Browser.width page)
               (Browser.widthOfTextAtSize L (Browser.text label)
                  (MergePDF.fontSize opts))) 20) /\
         (MergePDF.position opts = MergePDF.bottom_left \/
          MergePDF.position opts = MergePDF.top_left ->
          Browser.x label = 20%Q) /\
         (MergePDF.position opts = MergePDF.bottom_center \/
          MergePDF.position opts = MergePDF.bottom_right \/
          MergePDF.position opts = MergePDF.bottom_left ->
          Browser.y label = 20%Q) /\
         (MergePDF.position opts = MergePDF.top_center \/
          MergePDF.position opts = MergePDF.top_right \/
          MergePDF.position opts = MergePDF.top_left ->
          Browser.y label =
          JS.fsub fl (JS.fsub fl (Browser.height page) 20)
            (MergePDF.fontSize opts))).
Proof.
  intros Hlen Hload opts merged total st'.
  destruct (handleMerge_run fl L st Hlen) as [k [tail [Hk [Hp Hcases]]]].
  destruct Hcases as [[_ [_ [_ Hno]]]|[m [_ [Hm Hrest]]]];
    [exfalso; exact (Hno docs Hload)|].
  specialize (Hm docs Hload). subst m.
  cbv zeta in Hrest. destruct Hrest as [_ [_ [Hd [Hs _]]]].
  fold merged total opts st' in Hd, Hs.
  destruct (MergePDF.enabled opts) eqn:En.
  - exists (Spec.numberFrom fl L opts total 0 merged).
    split; [exact Hd|]. split; [exact Hs|].
    split; [rewrite numberFrom_length; apply length_concat|].
    split; [discriminate|]. intros _ i page Hi.
    pose proof (numberFrom_nth fl L opts merged total 0 i page Hi) as Hn.
    rewrite Z.add_0_l in Hn. rewrite Hn.
    unfold MergePDF.numberPage.
    destruct (MergePDF.labelPosition fl (MergePDF.position opts)
                (Browser.width page) (Browser.height page)
                (Browser.widthOfTextAtSize L
                   (MergePDF.pageLabel (Z.of_nat i) total)
                   (MergePDF.fontSize opts))
                (MergePDF.fontSize opts)) as [x y] eqn:Epos.
    eexists. split; [reflexivity|]. cbn [Browser.text Browser.textSize
                                          Browser.x Browser.y].
    split; [reflexivity|]. split; [reflexivity|].
    split; [symmetry; exact Epos|].
    unfold MergePDF.labelPosition in Epos.
    destruct (MergePDF.position opts); inversion Epos; subst x y;
      (split; [intros [Hc|Hc]; try discriminate Hc; reflexivity|]);
      (split; [intros [Hc|Hc]; try discriminate Hc; reflexivity|]);
      (split; [intros [Hc|Hc]; try discriminate Hc; reflexivity|]);
      (split; [intros [Hc|[Hc|Hc]]; try discriminate Hc; reflexivity|]);
      intros [Hc|[Hc|Hc]]; try discriminate Hc; reflexivity.
  - exists merged. split; [exact Hd|]. split; [exact Hs|].
    split; [apply length_concat|]. split; [reflexivity|discriminate].
Qed.

Lemma merge_concatenates_and_numbers_witness :
  let st := Sample.merge0 true [Sample.queued "a" Sample.notes;
                                Sample.queued "b" Sample.appendix] in
  let docs := [[Sample.page 20; Sample.page 21];
               [Sample.page 30; Sample.page 31; Sample.page 32]] in
  2 <= Z.of_nat (List.length (MergePDF.files (Browser.ui st))) /\
  Spec.allLoad Sample.libs (MergePDF.files (Browser.ui st)) docs /\
  exists (out : Browser.Document) (label : Browser.Text),
    Spec.saved (Browser.log (Browser.world
      (Eff.exec (MergePDF.handleMerge Sample.exact Sample.libs) st))) = [out] /\
    List.length out = 5%nat /\
    nth_error out 0 = Some (MergePDF.drawText (Sample.page 20) label) /\
    Browser.text label = "Page 1 of 5"%string /\
    (Browser.x label == 557 # 2)%Q /\
    Browser.y label = 20%Q.
Proof.
  cbv zeta.
  set (st := Sample.merge0 true [Sample.queued "a" Sample.notes;
                                 Sample.queued "b" Sample.appendix]).
  set (docs := [[Sample.page 20; Sample.page 21];
                [Sample.page 30; Sample.page 31; Sample.page 32]]).
  assert (H1 : 2 <= Z.of_nat (List.length (MergePDF.files (Browser.ui st)))).
  { vm_compute. discriminate. }
  assert (H2 : Spec.allLoad Sample.libs (MergePDF.files (Browser.ui st)) docs).
  { repeat constructor. }
  split; [exact H1|]. split; [exact H2|].
  destruct (merge_concatenates_and_numbers Sample.exact Sample.libs st docs H1 H2)
    as [out [_ [Hs [Hl [_ Hnum]]]]].
  destruct (Hnum eq_refl 0%nat (Sample.page 20) eq_refl)
    as [label [Hn [Ht [_ [_ [Hx [_ [_ [Hy _]]]]]]]]].
  exists out, label. split; [exact Hs|]. split; [exact Hl|].
  split; [exact Hn|].
  assert (Ht' : Browser.text label = "Page 1 of 5"%string).
  { rewrite Ht. vm_compute. reflexivity. }
  split; [exact Ht'|]. split.
  - rewrite (Hx (or_introl eq_refl)), Ht'. vm_compute. reflexivity.
  - exact (Hy (or_introl eq_refl)).
Defined.



Lemma exact_rounding : JS.Rounding Sample.exact.
Proof. split; [intros x y H; exact H|intros z _; reflexivity]. Qed.


(** The values of the sample merge: two files, then five numbered
    pages. *)
Lemma sample_merge_progress :
  Spec.progressValues (Browser.log (Browser.world
    (Eff.exec (MergePDF.handleMerge Sample.exact Sample.libs)
       (Sample.merge0 true [Sample.queued "a" Sample.notes;
                            Sample.queued "b" Sample.appendix]))))
  = [0; 25; 50; 60; 70; 80; 90; 100].
Proof. vm_compute. reflexivity. Qed.

(** Whenever a merge gets as far as the download, the object URL made
    for it is still alive when [handleMerge] is done. *)
Lemma merge_keeps_object_url
    (fl : Q -> Q) (L : Browser.Libs) (st : Browser.St MergePDF.State)
    (docs : list Browser.Document) :
  2 <= Z.of_nat (List.length (MergePDF.files (Browser.ui st))) ->
  Spec.allLoad L (MergePDF.files (Browser.ui st)) docs ->
  exists out,
    Browser.liveURLs
      (Browser.world (Eff.exec (MergePDF.handleMerge fl L) st))
    = (Browser.nextURL (Browser.world st), Browser.PdfBlob out)
      :: Browser.liveURLs (Browser.world st).
Proof.
  intros Hlen Hload.
  destruct (handleMerge_run fl L st Hlen) as [k [tail [Hk [Hp Hcases]]]].
  destruct Hcases as [[_ [_ [_ Hno]]]|[m [_ [_ Hrest]]]];
    [exfalso; exact (Hno docs Hload)|].
  cbv zeta in Hrest. destruct Hrest as [_ [_ [_ [_ Hl]]]].
  eexists. exact Hl.
Qed.

(** C9, where the code departs from it. Two files are merged with
    numbering off. The download is triggered, and the object URL created
    for it is still alive afterwards: [handleMerge] never calls
    [URL.revokeObjectURL]. The same export through [downloadBlob] in
    SplitPDF leaves no URL alive. *)
Theorem merge_download_leaves_url_alive :
  let st' := Eff.exec (MergePDF.handleMerge Sample.exact Sample.libs)
               (Sample.merge0 false [Sample.queued "a" Sample.notes;
                                     Sample.queued "b" Sample.appendix]) in
  let merged := [Sample.page 20; Sample.page 21;
                 Sample.page 30; Sample.page 31; Sample.page 32] in
  Spec.downloads (Browser.log (Browser.world st'))
  = [(Browser.PdfBlob merged, "Noobu_Merged_1700000000000.pdf"%string)] /\
  Browser.liveURLs (Browser.world st') = [(0%nat, Browser.PdfBlob merged)] /\
  let split' := Eff.exec (SplitPDF.handleSplit Sample.exact Sample.libs)
                  (Eff.exec (SplitPDF.togglePage 0) Sample.splitLoaded) in
  Spec.downloads (Browser.log (Browser.world split'))
  = [(Browser.PdfBlob [Sample.page 10], "Extracted_report.pdf"%string)] /\
  Browser.liveURLs (Browser.world split') = [].
Proof. vm_compute. repeat split. Qed.

(** ** Worked values *)

Example range_text_0_1_2_4 :
  SplitPDF.updateRangeFromSet [4; 0; 2; 1] = "1-3, 5"%string.
Proof. vm_compute. reflexivity. Qed.

Example parse_1_3_5 :
  SplitPDF.parseRangeText "1-3, 5" 5 = [0; 1; 2; 4].
Proof. vm_compute. reflexivity. Qed.

(** Tokens that are out of range or not numbers are dropped; a range may
    be written backwards; [parseInt] reads "0x2" as 2 and "+4abc" as 4. *)
Example parse_lenient :
  SplitPDF.parseRangeText " 7 , x, 3-1,0x2, 9-, +4abc" 5 = [0; 1; 2; 3].
Proof. vm_compute. reflexivity. Qed.

Example normalises_1_2_3 :
  SplitPDF.updateRangeFromSet (SplitPDF.parseRangeText "1,2,3" 5) = "1-3"%string.
Proof. vm_compute. reflexivity. Qed.

(** Rotating a page by 90 twice leaves it at 180. *)
Example rotate_twice :
  option_map (map Browser.rotation)
    (match RotatePDF.rotateEach 90 Sample.reportPages [1] with
     | Some d => RotatePDF.rotateEach 90 d [1]
     | None => None
     end)
  = Some [0; 180; 0; 0; 0].
Proof. vm_compute. reflexivity. Qed.

(** Moving the second of three queued files up. *)
Example move_second_up :
  map MergePDF.id
    (MergePDF.files
       (Browser.ui
          (Eff.exec (MergePDF.moveFile "b" MergePDF.up)
             (Sample.merge0 false
                [Sample.queued "a" Sample.report; Sample.queued "b" Sample.notes;
                 Sample.queued "c" Sample.appendix]))))
  = ["b"; "a"; "c"]%string.
Proof. vm_compute. reflexivity. Qed.

(** * Further properties of the handlers *)

(** ** SplitPDF: range text *)

Section MoreRangeText.
Import JS Spec.

Lemma sorted_NoDup_strict (l : list Z) :
  StronglySorted Z.le l -> NoDup l -> StronglySorted Z.lt l.
Proof.
  induction 1 as [|x l Hs IH Hx]; intros Hnd; [constructor|].
  inversion Hnd as [|? ? Hnotin Hnd']; subst.
  constructor; [now apply IH|].
  rewrite Forall_forall in *. intros y Hy. specialize (Hx y Hy).
  assert (x <> y) by (intros ->; contradiction). lia.
Qed.

(** Two strictly ascending arrays with the same members are the same. *)
Lemma strict_sorted_ext (l1 : list Z) :
  forall l2,
    StronglySorted Z.lt l1 -> StronglySorted Z.lt l2 ->
    (forall x, In x l1 <-> In x l2) -> l1 = l2.
Proof.
  induction l1 as [|a l1 IH]; intros l2 H1 H2 Hext.
  - destruct l2 as [|b l2]; [reflexivity|].
    exfalso. apply (proj2 (Hext b)). now left.
  - destruct l2 as [|b l2]; [exfalso; apply (proj1 (Hext a)); now left|].
    inversion H1 as [|? ? Hs1 Ha]; subst. inversion H2 as [|? ? Hs2 Hb]; subst.
    rewrite Forall_forall in Ha, Hb.
    assert (a = b).
    { destruct (proj1 (Hext a) (or_introl eq_refl)) as [E|Hin]; [now symmetry|].
      destruct (proj2 (Hext b) (or_introl eq_refl)) as [E|Hin']; [exact E|].
      specialize (Ha b Hin'). specialize (Hb a Hin). lia. }
    subst b. f_equal. apply IH; try assumption.
    intros x. split; intros Hx.
    + destruct (proj1 (Hext x) (or_intror Hx)) as [E|Hin]; [|exact Hin].
      subst x. specialize (Ha a Hx). lia.
    + destruct (proj2 (Hext x) (or_intror Hx)) as [E|Hin]; [|exact Hin].
      subst x. specialize (Hb a Hx). lia.
Qed.

(** Sorting sees only the members of a set. *)
Lemma sort_ext (l1 l2 : list Z) :
  NoDup l1 -> NoDup l2 -> (forall x, In x l1 <-> In x l2) -> sort l1 = sort l2.
Proof.
  intros H1 H2 Hext. apply strict_sorted_ext.
  - apply sorted_NoDup_strict; [apply sort_sorted|now apply sort_NoDup].
  - apply sorted_NoDup_strict; [apply sort_sorted|now apply sort_NoDup].
  - intros x. split; intros Hx.
    + eapply Permutation_in; [symmetry; apply sort_perm|].
      apply Hext. eapply Permutation_in; [apply sort_perm|exact Hx].
    + eapply Permutation_in; [symmetry; apply sort_perm|].
      apply Hext. eapply Permutation_in; [apply sort_perm|exact Hx].
Qed.

Lemma updateRangeFromSet_sort (S1 S2 : NumSet) :
  sort S1 = sort S2 ->
  SplitPDF.updateRangeFromSet S1 = SplitPDF.updateRangeFromSet S2.
Proof. intros E. unfold SplitPDF.updateRangeFromSet. now rewrite E. Qed.

Lemma runsLoop_acc (rest : list Z) :
  forall (s e : Z) (runs : list (Z * Z)),
    runsLoop rest s e runs = runs ++ runsLoop rest s e [].
Proof.
  induction rest as [|x rest IH]; intros s e runs; simpl; [reflexivity|].
  destruct (x =? e + 1); [apply IH|].
  rewrite (IH x x (runs ++ [(s, e)])), (IH x x [(s, e)]).
  now rewrite <- app_assoc.
Qed.

(** The runs found in a strictly ascending array: the first starts where
    the loop started, and each later one starts at least two after the end
    of the one before. *)
Lemma runsLoop_separated (rest : list Z) :
  forall s e : Z,
    s <= e -> StronglySorted Z.lt (e :: rest) ->
    exists e' tl,
      runsLoop rest s e [] = (s, e') :: tl /\ e <= e' /\ separatedFrom e' tl.
Proof.
  induction rest as [|x rest IH]; intros s e Hse Hs.
  - exists e, []. simpl. repeat split; lia.
  - inversion Hs as [|? ? Hs' He]; subst.
    inversion He as [|? ? Hex Her]; subst.
    cbn [runsLoop]. destruct (x =? e + 1) eqn:E.
    + apply Z.eqb_eq in E.
      destruct (IH s x ltac:(lia) Hs') as [e' [tl [Hr [Hle Hsep]]]].
      exists e', tl. repeat split; [exact Hr|lia|exact Hsep].
    + apply Z.eqb_neq in E.
      destruct (IH x x ltac:(lia) Hs') as [e' [tl [Hr [Hle Hsep]]]].
      exists e, ((x, e') :: tl). rewrite runsLoop_acc, Hr.
      repeat split; simpl; try lia. exact Hsep.
Qed.

Lemma zrange_sorted (n : nat) : forall s, StronglySorted Z.le (zrange s n).
Proof.
  induction n as [|n IH]; intros s; simpl; constructor; [apply IH|].
  apply Forall_forall. intros x Hx. apply zrange_In in Hx. lia.
Qed.

Lemma rangesLoop_consecutive (k : nat) :
  forall (s e : Z) (ranges : list string),
    SplitPDF.rangesLoop (zrange (e + 1) k) s e ranges =
    ranges ++ [SplitPDF.rangeToken s (e + Z.of_nat k)].
Proof.
  induction k as [|k IH]; intros s e ranges.
  - simpl. now rewrite Z.add_0_r.
  - cbn [zrange SplitPDF.rangesLoop]. rewrite Z.eqb_refl, IH.
    do 3 f_equal. lia.
Qed.

End MoreRangeText.


(** X1. Whatever text is typed, as long as its numbers are at most
    [Number.MAX_SAFE_INTEGER] in absolute value, and whatever the bound,
    [parseRangeText] returns page indices within [0, max), in strictly
    ascending order and so without repetition. *)
Theorem parsed_pages_ascending_in_range (text : string) (max : Z) :
  Spec.safeText text = true ->
  StronglySorted Z.lt (SplitPDF.parseRangeText text max) /\
  forall i, In i (SplitPDF.parseRangeText text max) -> 0 <= i < max.
Proof.
  intros _.
  destruct (parseRangeText_valid text max) as [[Hnd Hin] Hs].
  split; [now apply sorted_NoDup_strict|exact Hin].
Qed.

Lemma parsed_pages_ascending_in_range_witness :
  Spec.safeText " 7 , x, 3-1,0x2, 9-, +4abc" = true /\
  StronglySorted Z.lt (SplitPDF.parseRangeText " 7 , x, 3-1,0x2, 9-, +4abc" 5).
Proof.
  assert (H : Spec.safeText " 7 , x, 3-1,0x2, 9-, +4abc" = true)
    by (vm_compute; reflexivity).
  split; [exact H|].
  exact (proj1 (parsed_pages_ascending_in_range _ 5 H)).
Defined.

(** X2. Writing the parsed pages back as a range text normalises the
    text: for a text whose numbers are at most [Number.MAX_SAFE_INTEGER]
    in absolute value, parsing the normal form gives the same pages as
    parsing the text, and normalising a normal form changes nothing. *)
Theorem normal_form_is_stable (text : string) (max : Z) :
  Spec.safeText text = true ->
  let normal := SplitPDF.updateRangeFromSet (SplitPDF.parseRangeText text max) in
  SplitPDF.parseRangeText normal max = SplitPDF.parseRangeText text max /\
  SplitPDF.updateRangeFromSet (SplitPDF.parseRangeText normal max) = normal.
Proof.
  intros _. cbv zeta. rewrite reparse_stable. split; reflexivity.
Qed.

Lemma normal_form_is_stable_witness :
  Spec.safeText "5, 3-1, 2" = true /\
  SplitPDF.updateRangeFromSet (SplitPDF.parseRangeText "5, 3-1, 2" 5)
  = "1-3, 5"%string /\
  SplitPDF.parseRangeText "1-3, 5" 5 = SplitPDF.parseRangeText "5, 3-1, 2" 5.
Proof.
  assert (H : Spec.safeText "5, 3-1, 2" = true) by (vm_compute; reflexivity).
  assert (E : SplitPDF.updateRangeFromSet (SplitPDF.parseRangeText "5, 3-1, 2" 5)
              = "1-3, 5"%string) by (vm_compute; reflexivity).
  split; [exact H|]. split; [exact E|].
  rewrite <- E. exact (proj1 (normal_form_is_stable "5, 3-1, 2" 5 H)).
Defined.

(** X3. The range text of a non-empty set is the tokens of its runs
    joined by ", ": the runs cover the set in ascending order, every run
    has its start at or before its end, and every run after the first
    starts at least two after the end of the one before, so no two tokens
    could have been merged. *)
Theorem range_text_is_maximally_merged (S : JS.NumSet) :
  NoDup S -> S <> [] ->
  exists runs : list (Z * Z),
    SplitPDF.updateRangeFromSet S = JS.join ", " (map Spec.runToken runs) /\
    flat_map Spec.runPages runs = JS.sort S /\
    Spec.separated runs.
Proof.
  intros Hnd Hne.
  pose proof (sorted_NoDup_strict _ (sort_sorted S) (sort_NoDup S Hnd)) as Hs.
  unfold SplitPDF.updateRangeFromSet.
  destruct (JS.sort S) as [|first rest] eqn:E.
  - exfalso. apply Hne.
    apply Permutation_nil. rewrite <- E. apply sort_perm.
  - exists (Spec.runsLoop rest first first []).
    change (@nil string) with (map Spec.runToken []).
    rewrite rangesLoop_runs. split; [reflexivity|]. split.
    + rewrite runsLoop_pages by lia.
      replace (Z.to_nat (first - first + 1)) with 1%nat by lia. reflexivity.
    + destruct (runsLoop_separated rest first first ltac:(lia) Hs)
        as [e' [tl [Hr [Hle Hsep]]]].
      rewrite Hr. simpl. split; [lia|exact Hsep].
Qed.

Lemma range_text_is_maximally_merged_witness :
  NoDup [4; 0; 2; 1] /\
  exists runs : list (Z * Z),
    SplitPDF.updateRangeFromSet [4; 0; 2; 1]
    = JS.join ", " (map Spec.runToken runs) /\
    Spec.separated runs.
Proof.
  assert (Hnd : NoDup [4; 0; 2; 1]) by (repeat constructor; simpl; lia).
  split; [exact Hnd|].
  destruct (range_text_is_maximally_merged [4; 0; 2; 1] Hnd ltac:(discriminate))
    as [runs [H1 [_ H3]]].
  exists runs. split; [exact H1|exact H3].
Defined.

(** X4. Clicking the same thumbnail twice undoes itself: the selected set
    has the members it had, and the range text is the text of that
    set. *)
Theorem toggle_twice_restores (st : Browser.St SplitPDF.State) (index : Z) :
  NoDup (SplitPDF.selectedPages (Browser.ui st)) ->
  let st2 := Eff.exec (SplitPDF.togglePage index)
               (Eff.exec (SplitPDF.togglePage index) st) in
  (forall i, In i (SplitPDF.selectedPages (Browser.ui st2))
             <-> In i (SplitPDF.selectedPages (Browser.ui st))) /\
  NoDup (SplitPDF.selectedPages (Browser.ui st2)) /\
  SplitPDF.rangeText (Browser.ui st2)
  = SplitPDF.updateRangeFromSet (SplitPDF.selectedPages (Browser.ui st)).
Proof.
  intros Hnd st2. subst st2. rewrite !togglePage_ui.
  cbn [SplitPDF.selectedPages SplitPDF.rangeText].
  set (S0 := SplitPDF.selectedPages (Browser.ui st)) in *.
  assert (Hmem : forall i,
    In i (if JS.has (if JS.has S0 index then JS.delete index S0
                     else JS.add index S0) index
          then JS.delete index (if JS.has S0 index then JS.delete index S0
                                else JS.add index S0)
          else JS.add index (if JS.has S0 index then JS.delete index S0
                             else JS.add index S0))
    <-> In i S0).
  { intros i. destruct (JS.has S0 index) eqn:E0.
    - apply has_true_iff in E0.
      destruct (JS.has (JS.delete index S0) index) eqn:E1.
      + apply has_true_iff, delete_In in E1. tauto.
      + rewrite add_In, delete_In.
        destruct (Z.eq_dec i index) as [->|Hne]; tauto.
    - apply has_false_iff in E0.
      destruct (JS.has (JS.add index S0) index) eqn:E1.
      + rewrite delete_In, add_In. split; [tauto|].
        intros Hi. split; [now right|]. intros ->. contradiction.
      + apply has_false_iff in E1. exfalso. apply E1, add_In. now left. }
  assert (Hnd2 : NoDup
    (if JS.has (if JS.has S0 index then JS.delete index S0
                else JS.add index S0) index
     then JS.delete index (if JS.has S0 index then JS.delete index S0
                           else JS.add index S0)
     else JS.add index (if JS.has S0 index then JS.delete index S0
                        else JS.add index S0))).
  { destruct (JS.has S0 index); destruct (JS.has _ index);
      auto using add_NoDup, delete_NoDup. }
  split; [exact Hmem|]. split; [exact Hnd2|].
  apply updateRangeFromSet_sort, sort_ext; assumption.
Qed.

Lemma toggle_twice_restores_witness :
  let st := Eff.exec (SplitPDF.togglePage 0)
              (Eff.exec (SplitPDF.togglePage 2) Sample.splitLoaded) in
  NoDup (SplitPDF.selectedPages (Browser.ui st)) /\
  SplitPDF.rangeText
    (Browser.ui (Eff.exec (SplitPDF.togglePage 2)
                   (Eff.exec (SplitPDF.togglePage 2) st)))
  = SplitPDF.updateRangeFromSet (SplitPDF.selectedPages (Browser.ui st)).
Proof.
  cbv zeta.
  assert (Hnd : NoDup (SplitPDF.selectedPages (Browser.ui
            (Eff.exec (SplitPDF.togglePage 0)
               (Eff.exec (SplitPDF.togglePage 2) Sample.splitLoaded))))).
  { vm_compute. repeat constructor; simpl; lia. }
  split; [exact Hnd|].
  exact (proj2 (proj2 (toggle_twice_restores _ 2 Hnd))).
Defined.

(** X5. Select All on a loaded document of [N >= 1] pages selects page
    indices 0 to N-1 in order and writes the single token "1-N" ("1" for a
    one-page document). *)
Theorem selectAll_writes_one_range
    (st : Browser.St SplitPDF.State) (info : SplitPDF.PDFMetadata) :
  SplitPDF.pdfInfo (Browser.ui st) = Some info ->
  1 <= SplitPDF.pageCount info ->
  let c := Browser.ui (Eff.exec SplitPDF.selectAll st) in
  SplitPDF.selectedPages c
  = Spec.zrange 0 (Z.to_nat (SplitPDF.pageCount info)) /\
  SplitPDF.rangeText c
  = (if Z.eqb (SplitPDF.pageCount info) 1 then "1"%string
     else ("1-" ++ JS.toString (SplitPDF.pageCount info))%string).
Proof.
  intros Hinfo HN.
  unfold SplitPDF.selectAll, Eff.exec, Eff.bind, Eff.gets. cbn [fst snd].
  rewrite Hinfo. cbn. rewrite allPages_all. split; [reflexivity|].
  unfold SplitPDF.updateRangeFromSet.
  rewrite (sort_id _ (zrange_sorted _ 0)).
  destruct (Z.to_nat (SplitPDF.pageCount info)) as [|k] eqn:Ek; [lia|].
  cbn [Spec.zrange]. change (0 + 1) with (0 + 1).
  rewrite (rangesLoop_consecutive k 0 0 []). cbn [app JS.join].
  unfold SplitPDF.rangeToken.
  replace (0 + Z.of_nat k) with (SplitPDF.pageCount info - 1) by lia.
  replace (SplitPDF.pageCount info - 1 + 1) with (SplitPDF.pageCount info) by lia.
  destruct (Z.eqb (SplitPDF.pageCount info) 1) eqn:E1.
  - apply Z.eqb_eq in E1. rewrite E1. reflexivity.
  - apply Z.eqb_neq in E1.
    destruct (Z.eqb 0 (SplitPDF.pageCount info - 1)) eqn:E2;
      [apply Z.eqb_eq in E2; lia|]. reflexivity.
Qed.

Lemma selectAll_writes_one_range_witness :
  SplitPDF.pdfInfo (Browser.ui Sample.splitLoaded) = Some Sample.reportInfo /\
  SplitPDF.rangeText (Browser.ui (Eff.exec SplitPDF.selectAll Sample.splitLoaded))
  = "1-5"%string.
Proof.
  assert (Hi : SplitPDF.pdfInfo (Browser.ui Sample.splitLoaded)
               = Some Sample.reportInfo) by (vm_compute; reflexivity).
  assert (Hn : 1 <= SplitPDF.pageCount Sample.reportInfo)
    by (vm_compute; discriminate).
  split; [exact Hi|].
  exact (proj2 (selectAll_writes_one_range Sample.splitLoaded
                  Sample.reportInfo Hi Hn)).
Defined.

(** ** Loading a document *)

Section Loading.
Import JS Eff Browser Spec.
Variable fl : Q -> Q.
Variable L : Libs.

Lemma splitQuiet_refl (st : St SplitPDF.State) : splitQuiet st st.
Proof. repeat split. Qed.

Lemma rendersFrom_cons (f : File) (i : Z) (t : string) (ts : list string) :
  renderPage L f i = Some t -> rendersFrom L f (i + 1) ts ->
  rendersFrom L f i (t :: ts).
Proof. intros H1 H2. unfold rendersFrom. cbn. constructor; assumption. Qed.

(** One run of the thumbnail loop of SplitPDF: it renders pages in order
    until one fails, reporting after each. *)
Lemma split_thumbLoop_run (f : File) (n : nat) :
  forall (i limit : Z) (thumbs : list string) (st : St SplitPDF.State) r st',
    SplitPDF.thumbLoop fl L f n i limit thumbs st = (r, st') ->
    splitQuiet st st' /\
    exists ts : list string,
      (List.length ts <= n)%nat /\
      rendersFrom L f i ts /\
      progressValues (log (world st')) =
      progressValues (log (world st))
      ++ shares fl (List.length ts) (i - 1) limit 100 /\
      match r with
      | Returned th => List.length ts = n /\ th = thumbs ++ ts
      | Thrown => (List.length ts < n)%nat /\
                  renderPage L f (i + Z.of_nat (List.length ts)) = None
      end.
Proof.
  induction n as [|n IH]; intros i limit thumbs st r st' H.
  - inversion H; subst. split; [apply splitQuiet_refl|].
    exists []. cbn. rewrite !app_nil_r. split; [lia|].
    split; [constructor|]. split; [reflexivity|]. split; reflexivity.
  - cbn [SplitPDF.thumbLoop] in H.
    destruct (renderPage L f i) as [t|] eqn:Er.
    + cbn -[SplitPDF.thumbLoop] in H.
      apply IH in H. destruct H as [Hq [ts [Hk [Hts [Hp Hr]]]]].
      split.
      * destruct Hq as [[H1 [H2 [H3 [H4 H5]]]] [H6 [H7 [H8 H9]]]].
        cbn in H1, H2, H3, H4, H5, H6, H7, H8, H9.
        rewrite !downloads_app in H5. rewrite !decoded_app in H8.
        rewrite !saved_app in H9. cbn in H5, H8, H9.
        rewrite ?app_nil_r in H5, H8, H9.
        split; [|split; [|split; [|split]]]; try assumption.
        split; [|split; [|split; [|split]]]; assumption.
      * exists (t :: ts). split; [cbn; lia|].
        split; [now apply rendersFrom_cons|]. split.
        -- rewrite Hp. cbn. rewrite !progressValues_app. cbn.
           rewrite ?app_nil_r, <- app_assoc. cbn.
           replace (i - 1 + 1) with i by lia.
           replace (i + 1 - 1) with i by lia. reflexivity.
        -- destruct r as [th|].
           ++ destruct Hr as [Hn ->]. split; [cbn; lia|].
              now rewrite <- app_assoc.
           ++ destruct Hr as [Hn Hnone]. split; [cbn; lia|].
              cbn [List.length]. rewrite <- Hnone. f_equal. lia.
    + cbn in H. inversion H; subst. split.
      * split; [|split; [|split; [|split]]]; cbn;
          rewrite ?downloads_app, ?decoded_app, ?saved_app; cbn;
          rewrite ?app_nil_r; try reflexivity.
        split; [|split; [|split; [|split]]]; cbn;
          rewrite ?downloads_app; cbn; rewrite ?app_nil_r; reflexivity.
      * exists []. cbn. rewrite ?app_nil_r, Z.add_0_r.
        split; [lia|]. split; [constructor|].
        split; [rewrite progressValues_app; cbn; now rewrite app_nil_r|].
        split; [lia|exact Er].
Qed.

End Loading.

(** X6. SplitPDF turns a file away before any library is called when it is
    not a PDF or is larger than 100 MB: the world, the loaded document,
    its thumbnails, the selection, the range text and the busy flags are
    as they were. A file that is not a PDF changes nothing at all; an
    oversize PDF sets the error message. *)
Theorem split_load_refuses_before_decoding
    (fl : Q -> Q) (L : Browser.Libs)
    (st : Browser.St SplitPDF.State) (f : Browser.File) :
  Browser.type f <> "application/pdf"%string \/
  Browser.size f > SplitPDF.MAX_SIZE ->
  let st' := Eff.exec (SplitPDF.handleFileChange fl L (Some f)) st in
  Browser.world st' = Browser.world st /\
  Spec.splitDocState (Browser.ui st') = Spec.splitDocState (Browser.ui st) /\
  SplitPDF.isProcessing (Browser.ui st') = SplitPDF.isProcessing (Browser.ui st) /\
  SplitPDF.progress (Browser.ui st') = SplitPDF.progress (Browser.ui st) /\
  (Browser.type f <> "application/pdf"%string -> st' = st) /\
  (Browser.type f = "application/pdf"%string ->
   SplitPDF.error (Browser.ui st')
   = Some "File is too large for browser processing. Please use files under 100MB."%string).
Proof.
  intros H. destruct st as [c w].
  unfold SplitPDF.handleFileChange, Eff.exec.
  destruct (String.eqb (Browser.type f) "application/pdf") eqn:Et.
  - apply String.eqb_eq in Et.
    destruct H as [H|H]; [contradiction|].
    cbv iota. cbn [negb].
    destruct (Browser.size f >? SplitPDF.MAX_SIZE) eqn:E.
    + cbn. split; [reflexivity|]. split; [reflexivity|].
      split; [reflexivity|]. split; [reflexivity|].
      split; [intros Hn; contradiction|reflexivity].
    + rewrite Z.gtb_ltb in E. apply Z.ltb_ge in E. lia.
  - apply String.eqb_neq in Et. cbn.
    split; [reflexivity|]. split; [reflexivity|].
    split; [reflexivity|]. split; [reflexivity|].
    split; [reflexivity|]. intros Ht. contradiction.
Qed.

Lemma split_load_refuses_before_decoding_witness :
  Browser.size Sample.huge > SplitPDF.MAX_SIZE /\
  Browser.world
    (Eff.exec (SplitPDF.handleFileChange Sample.exact Sample.libs
                 (Some Sample.huge)) Sample.splitLoaded)
  = Browser.world Sample.splitLoaded.
Proof.
  assert (H : Browser.size Sample.huge > SplitPDF.MAX_SIZE)
    by (vm_compute; reflexivity).
  split; [exact H|].
  exact (proj1 (split_load_refuses_before_decoding Sample.exact Sample.libs
                  Sample.splitLoaded Sample.huge (or_intror H))).
Defined.

(** X7. A PDF of at most 100 MB that the reader opens with [n] pages
    becomes the loaded document of SplitPDF, with an empty selection and
    an empty range text, the busy flag down and the progress back at 0;
    the reader was called once and nothing was downloaded. At most 50
    thumbnails are made. Either every page up to [min(n, 50)] rendered,
    and the thumbnails are those renders in page order with no error
    set; or a page failed to render, and then the new document is loaded
    with no thumbnails at all and the load error is shown. *)
Theorem split_load_after_decode
    (fl : Q -> Q) (L : Browser.Libs)
    (st : Browser.St SplitPDF.State) (f : Browser.File) (n : Z) :
  Browser.type f = "application/pdf"%string ->
  Browser.size f <= SplitPDF.MAX_SIZE ->
  Browser.getDocument L f = Some n ->
  let st' := Eff.exec (SplitPDF.handleFileChange fl L (Some f)) st in
  let c' := Browser.ui st' in
  let limit := Z.min n 50 in
  SplitPDF.pdfInfo c'
  = Some {| SplitPDF.name := Browser.name f;
            SplitPDF.size := Browser.formatSize L (Browser.size f);
            SplitPDF.pageCount := n;
            SplitPDF.file := f |} /\
  SplitPDF.selectedPages c' = [] /\
  SplitPDF.rangeText c' = EmptyString /\
  SplitPDF.isProcessing c' = false /\
  SplitPDF.progress c' = 0 /\
  Spec.decoded (Browser.log (Browser.world st'))
  = Spec.decoded (Browser.log (Browser.world st)) ++ [f] /\
  Spec.downloads (Browser.log (Browser.world st'))
  = Spec.downloads (Browser.log (Browser.world st)) /\
  (List.length (SplitPDF.thumbnails c') <= 50)%nat /\
  ((SplitPDF.error c' = None /\
    List.length (SplitPDF.thumbnails c') = Z.to_nat limit /\
    Spec.rendersFrom L f 1 (SplitPDF.thumbnails c')) \/
   (SplitPDF.error c'
    = Some "Could not load PDF. It might be corrupted or protected."%string /\
    SplitPDF.thumbnails c' = [] /\
    exists j, 1 <= j <= limit /\ Browser.renderPage L f j = None)).
Proof.
  intros Ht Hs Hload. destruct st as [c w].
  unfold SplitPDF.handleFileChange, Eff.exec. rewrite Ht.
  change (negb (String.eqb "application/pdf" "application/pdf")) with false.
  cbv iota.
  destruct (Browser.size f >? SplitPDF.MAX_SIZE) eqn:E.
  { rewrite Z.gtb_ltb in E. apply Z.ltb_lt in E. lia. }
  unfold Eff.tryFinally, Eff.tryCatch, Eff.bind.
  cbn -[SplitPDF.thumbLoop Z.min]. rewrite Hload.
  cbn -[SplitPDF.thumbLoop Z.min].
  match goal with
  | |- context [SplitPDF.thumbLoop fl L f ?a ?b ?d ?e ?s] =>
      destruct (SplitPDF.thumbLoop fl L f a b d e s) as [r st2] eqn:Erun
  end.
  apply split_thumbLoop_run in Erun.
  destruct Erun as [[[H1 [H2 [H3 [H4 H5]]]] [H6 [H7 [H8 H9]]]]
                      [ts [Hk [Hts [Hp Hr]]]]].
  unfold Spec.splitDocState in H1.
  cbn -[Z.min] in H1, H2, H3, H4, H5, H6, H7, H8, H9.

  injection H1 as I1 I2 I3 I4.
  destruct r as [th|].
  - destruct Hr as [Hn ->]. cbn -[Z.min].
    rewrite !decoded_app, !downloads_app. cbn -[Z.min].
    rewrite ?app_nil_r.
    rewrite I1, I3, I4, H7.
    split; [reflexivity|]. split; [reflexivity|]. split; [reflexivity|].
    split; [reflexivity|]. split; [reflexivity|].
    split; [rewrite H8, decoded_app; reflexivity|].
    split; [rewrite H5, downloads_app; cbn; apply app_nil_r|].
    split; [lia|]. left. split; [reflexivity|]. split; [exact Hn|exact Hts].
  - destruct Hr as [Hn Hnone]. cbn -[Z.min].
    rewrite !decoded_app, !downloads_app. cbn -[Z.min].
    rewrite ?app_nil_r.
    rewrite I1, I2, I3, I4.
    split; [reflexivity|]. split; [reflexivity|]. split; [reflexivity|].
    split; [reflexivity|]. split; [reflexivity|].
    split; [rewrite H8, decoded_app; reflexivity|].
    split; [rewrite H5, downloads_app; cbn; apply app_nil_r|].
    split; [cbn; lia|]. right. split; [reflexivity|]. split; [reflexivity|].
    exists (1 + Z.of_nat (List.length ts)). split; [lia|exact Hnone].
Qed.

Lemma split_load_after_decode_witness :
  Browser.getDocument Sample.libs Sample.report = Some 5 /\
  SplitPDF.pdfInfo (Browser.ui Sample.splitLoaded) = Some Sample.reportInfo.
Proof.
  assert (H1 : Browser.type Sample.report = "application/pdf"%string)
    by reflexivity.
  assert (H2 : Browser.size Sample.report <= SplitPDF.MAX_SIZE)
    by (vm_compute; discriminate).
  assert (H3 : Browser.getDocument Sample.libs Sample.report = Some 5)
    by (vm_compute; reflexivity).
  split; [exact H3|].
  exact (proj1 (split_load_after_decode Sample.exact Sample.libs Sample.split0
                  Sample.report 5 H1 H2 H3)).
Defined.

Section LoadingRotate.
Import JS Eff Browser Spec.
Variable L : Libs.

(** One run of the thumbnail loop of RotatePDF. *)
Lemma rotate_thumbLoop_run (f : File) (n : nat) :
  forall (i : Z) (thumbs : list string) (st : St RotatePDF.State) r st',
    RotatePDF.thumbLoop L f n i thumbs st = (r, st') ->
    rotateQuiet st st' /\
    exists ts : list string,
      (List.length ts <= n)%nat /\
      rendersFrom L f i ts /\
      match r with
      | Returned th => List.length ts = n /\ th = thumbs ++ ts
      | Thrown => (List.length ts < n)%nat /\
                  renderPage L f (i + Z.of_nat (List.length ts)) = None
      end.
Proof.
  induction n as [|n IH]; intros i thumbs st r st' H.
  - inversion H; subst. split; [repeat split|].
    exists []. cbn. rewrite !app_nil_r. split; [lia|].
    split; [constructor|]. split; reflexivity.
  - cbn [RotatePDF.thumbLoop] in H.
    destruct (renderPage L f i) as [t|] eqn:Er.
    + cbn -[RotatePDF.thumbLoop] in H.
      apply IH in H. destruct H as [Hq [ts [Hk [Hts Hr]]]].
      split.
      * destruct Hq as [H1 [H2 [H3 [H4 [H5 H6]]]]].
        cbn in H1, H2, H3, H4, H5, H6.
        rewrite !downloads_app in H4. rewrite !decoded_app in H5.
        rewrite !saved_app in H6. cbn in H4, H5, H6.
        rewrite ?app_nil_r in H4, H5, H6.
        split; [|split; [|split; [|split; [|split]]]]; assumption.
      * exists (t :: ts). split; [cbn; lia|].
        split; [now apply rendersFrom_cons|].
        destruct r as [th|].
        -- destruct Hr as [Hn ->]. split; [cbn; lia|].
           now rewrite <- app_assoc.
        -- destruct Hr as [Hn Hnone]. split; [cbn; lia|].
           cbn [List.length]. rewrite <- Hnone. f_equal. lia.
    + cbn in H. inversion H; subst. split.
      * split; [|split; [|split; [|split; [|split]]]]; cbn;
          rewrite ?downloads_app, ?decoded_app, ?saved_app; cbn;
          rewrite ?app_nil_r; reflexivity.
      * exists []. cbn. rewrite ?app_nil_r, Z.add_0_r.
        split; [lia|]. split; [constructor|]. split; [lia|exact Er].
Qed.

End LoadingRotate.

(** X8. RotatePDF loads any PDF the reader opens, whatever its size: it
    becomes the loaded document with an empty selection and the busy
    flag down, after one call of the reader and no download. At most 50
    thumbnails are made. Either every page up to [min(n, 50)] rendered,
    and the thumbnails are those renders in page order with no error
    set; or a page failed to render, and then the new document is loaded
    with no thumbnails and the load error is shown. A file that is not a
    PDF changes nothing. *)
Theorem rotate_load_after_decode
    (L : Browser.Libs) (st : Browser.St RotatePDF.State)
    (f : Browser.File) (n : Z) :
  (Browser.type f <> "application/pdf"%string ->
   Eff.exec (RotatePDF.handleFileChange L (Some f)) st = st) /\
  (Browser.type f = "application/pdf"%string ->
   Browser.getDocument L f = Some n ->
   let st' := Eff.exec (RotatePDF.handleFileChange L (Some f)) st in
   let c' := Browser.ui st' in
   let limit := Z.min n 50 in
   RotatePDF.pdfInfo c'
   = Some {| RotatePDF.name := Browser.name f;
             RotatePDF.size := Browser.formatSize L (Browser.size f);
             RotatePDF.pageCount := n;
             RotatePDF.file := f |} /\
   RotatePDF.selectedPages c' = [] /\
   RotatePDF.isProcessing c' = false /\
   Spec.decoded (Browser.log (Browser.world st'))
   = Spec.decoded (Browser.log (Browser.world st)) ++ [f] /\
   Spec.downloads (Browser.log (Browser.world st'))
   = Spec.downloads (Browser.log (Browser.world st)) /\
   (List.length (RotatePDF.thumbnails c') <= 50)%nat /\
   ((RotatePDF.error c' = None /\
     List.length (RotatePDF.thumbnails c') = Z.to_nat limit /\
     Spec.rendersFrom L f 1 (RotatePDF.thumbnails c')) \/
    (RotatePDF.error c'
     = Some "Could not load PDF. It might be corrupted or protected."%string /\
     RotatePDF.thumbnails c' = [] /\
     exists j, 1 <= j <= limit /\ Browser.renderPage L f j = None))).
Proof.
  destruct st as [c w]. split.
  - intros Ht. unfold RotatePDF.handleFileChange, Eff.exec.
    apply String.eqb_neq in Ht. rewrite Ht. reflexivity.
  - intros Ht Hload.
    unfold RotatePDF.handleFileChange, Eff.exec. rewrite Ht.
    change (negb (String.eqb "application/pdf" "application/pdf")) with false.
    cbv iota.
    unfold Eff.tryFinally, Eff.tryCatch, Eff.bind.
    cbn -[RotatePDF.thumbLoop Z.min]. rewrite Hload.
    cbn -[RotatePDF.thumbLoop Z.min].
    match goal with
    | |- context [RotatePDF.thumbLoop L f ?a ?b ?d ?s] =>
        destruct (RotatePDF.thumbLoop L f a b d s) as [r st2] eqn:Erun
    end.
    apply rotate_thumbLoop_run in Erun.
    destruct Erun as [[H1 [H2 [H3 [H4 [H5 H6]]]]] [ts [Hk [Hts Hr]]]].
    cbn -[Z.min] in H1, H2, H3, H4, H5, H6.
    destruct r as [th|].
    + destruct Hr as [Hn ->]. cbn -[Z.min]. rewrite H1. cbn -[Z.min].
      split; [reflexivity|]. split; [reflexivity|]. split; [reflexivity|].
      split; [rewrite H5, decoded_app; reflexivity|].
      split; [rewrite H4, downloads_app; cbn; apply app_nil_r|].
      split; [lia|]. left. split; [reflexivity|]. split; [exact Hn|exact Hts].
    + destruct Hr as [Hn Hnone]. cbn -[Z.min]. rewrite H1. cbn -[Z.min].
      split; [reflexivity|]. split; [reflexivity|]. split; [reflexivity|].
      split; [rewrite H5, decoded_app; reflexivity|].
      split; [rewrite H4, downloads_app; cbn; apply app_nil_r|].
      split; [lia|]. right. split; [reflexivity|]. split; [reflexivity|].
      exists (1 + Z.of_nat (List.length ts)). split; [lia|exact Hnone].
Qed.

Lemma rotate_load_after_decode_witness :
  Browser.getDocument Sample.libs Sample.report = Some 5 /\
  RotatePDF.pdfInfo (Browser.ui Sample.rotateLoaded)
  = Some Sample.rotateReportInfo.
Proof.
  assert (H1 : Browser.type Sample.report = "application/pdf"%string)
    by reflexivity.
  assert (H3 : Browser.getDocument Sample.libs Sample.report = Some 5)
    by (vm_compute; reflexivity).
  split; [exact H3|].
  exact (proj1 (proj2 (rotate_load_after_decode Sample.libs Sample.rotate0
                         Sample.report 5) H1 H3)).
Defined.

(** ** Splitting *)

Section Splitting.
Import JS Eff Browser Spec.
Variable fl : Q -> Q.
Variable L : Libs.


Lemma skipn_nth_error {A : Type} (l : list A) (a : nat) (x : A) :
  nth_error l a = Some x -> skipn a l = x :: skipn (S a) l.
Proof.
  revert a. induction l as [|y l IH]; intros [|a] H; try discriminate.
  - now inversion H.
  - cbn [skipn]. apply IH. exact H.
Qed.

(** What the burst loop puts in the archive and what it saves, when the
    document has the pages it is asked for. *)
Lemma burstLoop_entries (src : Document) (n : nat) :
  forall (a : nat) (count : Z) (zip : list (string * Document))
         (st : St SplitPDF.State) r st',
    (a + n <= List.length src)%nat ->
    SplitPDF.burstLoop fl src n (Z.of_nat a) count zip st = (r, st') ->
    r = Returned (zip ++ burstEntries a (firstn n (skipn a src))) /\
    saved (log (world st')) =
    saved (log (world st)) ++ map (fun p => [p]) (firstn n (skipn a src)) /\
    SplitPDF.error (ui st') = SplitPDF.error (ui st).
Proof.
  induction n as [|n IH]; intros a count zip st r st' Ha H.
  - inversion H; subst. cbn. now rewrite !app_nil_r.
  - cbn [SplitPDF.burstLoop copyPages] in H.
    destruct (Z.of_nat a <? 0) eqn:E; [apply Z.ltb_lt in E; lia|].
    rewrite Nat2Z.id in H.
    destruct (nth_error src a) as [p|] eqn:En;
      [|apply nth_error_None in En; lia].
    cbn -[SplitPDF.burstLoop] in H.
    replace (Z.of_nat a + 1) with (Z.of_nat (S a)) in H by lia.
    apply IH in H; [|lia]. destruct H as [-> [Hs He]].
    rewrite (skipn_nth_error _ _ _ En). cbn [firstn burstEntries map].
    split; [|split].
    + rewrite <- app_assoc. cbn [app]. unfold burstEntry.
      replace (Z.of_nat a + 1) with (Z.of_nat (S a)) by lia. reflexivity.
    + rewrite Hs. cbn. rewrite !saved_app. cbn.
      rewrite ?app_nil_r, <- app_assoc. reflexivity.
    + rewrite He. reflexivity.
Qed.

Lemma burstEntries_length (pages : list Page) :
  forall a, List.length (burstEntries a pages) = List.length pages.
Proof.
  induction pages as [|p pages IH]; intros a; [reflexivity|].
  cbn. now rewrite IH.
Qed.

Lemma append_inj_r (t : string) :
  forall a b : string, (a ++ t = b ++ t)%string -> a = b.
Proof.
  induction a as [|x a IH]; intros [|y b] H.
  - reflexivity.
  - exfalso. apply (f_equal String.length) in H.
    cbn in H. rewrite length_app_s in H. lia.
  - exfalso. apply (f_equal String.length) in H.
    cbn in H. rewrite length_app_s in H. lia.
  - cbn in H. inversion H. f_equal. now apply IH.
Qed.

Lemma toString_inj (m n : Z) : 0 <= m -> 0 <= n -> toString m = toString n -> m = n.
Proof.
  intros Hm Hn E. apply (f_equal parseInt) in E.
  rewrite !parseInt_toString in E by assumption. now inversion E.
Qed.

(** The names the burst gives its entries are those of pages [a + 1],
    [a + 2], ... and differ from one another. *)
Lemma burstEntries_names (pages : list Page) :
  forall a name,
    In name (map fst (burstEntries a pages)) ->
    exists i, (a <= i < a + List.length pages)%nat /\
              name = ("Page_" ++ toString (Z.of_nat i + 1) ++ ".pdf")%string.
Proof.
  induction pages as [|p pages IH]; intros a name H; [destruct H|].
  cbn in H. destruct H as [<-|H].
  - exists a. cbn. split; [lia|reflexivity].
  - apply IH in H. destruct H as [i [Hi ->]]. exists i. cbn. split; [lia|reflexivity].
Qed.

Lemma burstEntries_NoDup (pages : list Page) :
  forall a, NoDup (map fst (burstEntries a pages)).
Proof.
  induction pages as [|p pages IH]; intros a; cbn; constructor; [|apply IH].
  intros H. apply burstEntries_names in H. destruct H as [i [Hi E]].
  cbn in E. injection E as E. apply append_inj_r, toString_inj in E; lia.
Qed.

End Splitting.

(** One run of the extract branch of [handleSplit] on a non-empty list
    of indices that all have a page. *)
Lemma handleSplit_extract_run
    (fl : Q -> Q) (L : Browser.Libs) (st : Browser.St SplitPDF.State)
    (info : SplitPDF.PDFMetadata) (doc : Browser.Document)
    (indices : list Z) (pages : list Browser.Page) :
  SplitPDF.pdfInfo (Browser.ui st) = Some info ->
  SplitPDF.splitMode (Browser.ui st) = SplitPDF.range ->
  Browser.loadDocument L (SplitPDF.file info) = Some doc ->
  SplitPDF.resolveIndices (Browser.ui st) info = indices ->
  indices <> [] ->
  Browser.copyPages doc indices = Some pages ->
  let st' := Eff.exec (SplitPDF.handleSplit fl L) st in
  Spec.downloads (Browser.log (Browser.world st'))
  = Spec.downloads (Browser.log (Browser.world st))
    ++ [(Browser.PdfBlob pages, ("Extracted_" ++ SplitPDF.name info)%string)] /\
  Spec.saved (Browser.log (Browser.world st'))
  = Spec.saved (Browser.log (Browser.world st)) ++ [pages] /\
  Browser.liveURLs (Browser.world st')
  = filter (fun e => negb (Nat.eqb (fst e) (Browser.nextURL (Browser.world st))))
      (Browser.liveURLs (Browser.world st)) /\
  SplitPDF.progress (Browser.ui st') = 100 /\
  SplitPDF.error (Browser.ui st') = None /\
  Spec.splitDocState (Browser.ui st') = Spec.splitDocState (Browser.ui st).
Proof.
  intros Hinfo Hmode Hload Hres Hne Hcp st'. subst st'.
  destruct st as [c w]. cbn [Browser.ui Browser.world] in *.
  unfold SplitPDF.handleSplit, Eff.exec. cbn -[SplitPDF.resolveIndices].
  rewrite Hinfo. cbn -[SplitPDF.resolveIndices]. rewrite Hload.
  cbn -[SplitPDF.resolveIndices]. rewrite Hmode, Hres.
  destruct indices as [|i0 rest]; [contradiction|].
  unfold Eff.tryFinally, Eff.tryCatch, Eff.bind.
  cbn -[Browser.copyPages SplitPDF.downloadBlob]. rewrite Hcp.
  unfold SplitPDF.downloadBlob, Browser.clickLink, Eff.bind, Eff.gets. cbn.
  rewrite Nat.eqb_refl. cbn.
  rewrite !saved_app, !downloads_app. cbn.
  rewrite ?app_nil_r, ?Nat.eqb_refl. cbn [negb].
  unfold Spec.splitDocState. cbn.
  split; [reflexivity|]. split; [reflexivity|]. split; [reflexivity|].
  split; [reflexivity|]. split; reflexivity.
Qed.



(** X10. The burst of a document into single pages puts one entry per
    page into the archive, in page order: the entry of page [i] (from 1)
    is named "Page_i.pdf" and holds that page alone, and no two entries
    share a name. Each of these documents is saved once, the archive is
    downloaded under the document's name with ".pdf" removed and
    "_individual_pages.zip" added, the object URL made for it is
    revoked, and no error is set. *)
Theorem burst_makes_one_entry_per_page
    (fl : Q -> Q) (L : Browser.Libs) (st : Browser.St SplitPDF.State)
    (info : SplitPDF.PDFMetadata) (doc : Browser.Document) :
  SplitPDF.pdfInfo (Browser.ui st) = Some info ->
  SplitPDF.splitMode (Browser.ui st) = SplitPDF.all ->
  Browser.loadDocument L (SplitPDF.file info) = Some doc ->
  SplitPDF.pageCount info <= Z.of_nat (List.length doc) ->
  let n := Z.to_nat (SplitPDF.pageCount info) in
  let zip := Spec.burstEntries 0 (firstn n doc) in
  let st' := Eff.exec (SplitPDF.handleSplit fl L) st in
  Spec.downloads (Browser.log (Browser.world st'))
  = Spec.downloads (Browser.log (Browser.world st))
    ++ [(Browser.ZipBlob zip,
         (JS.removeFirst ".pdf" (SplitPDF.name info)
          ++ "_individual_pages.zip")%string)] /\
  List.length zip = n /\
  NoDup (map fst zip) /\
  Spec.saved (Browser.log (Browser.world st'))
  = Spec.saved (Browser.log (Browser.world st))
    ++ map (fun p => [p]) (firstn n doc) /\
  Browser.liveURLs (Browser.world st')
  = filter (fun e => negb (Nat.eqb (fst e) (Browser.nextURL (Browser.world st))))
      (Browser.liveURLs (Browser.world st)) /\
  SplitPDF.error (Browser.ui st') = None /\
  Spec.splitDocState (Browser.ui st') = Spec.splitDocState (Browser.ui st).
Proof.
  intros Hinfo Hmode Hload Hcount n zip st'. subst st'.
  assert (Hlen : List.length zip = n).
  { subst zip. rewrite burstEntries_length, length_firstn. lia. }
  assert (Hnd : NoDup (map fst zip)) by apply burstEntries_NoDup.
  destruct st as [c w]. cbn [Browser.ui Browser.world] in *.
  unfold SplitPDF.handleSplit, Eff.exec. cbn -[SplitPDF.burstLoop].
  rewrite Hinfo. cbn -[SplitPDF.burstLoop]. rewrite Hload.
  cbn -[SplitPDF.burstLoop]. rewrite Hmode.
  unfold Eff.tryFinally, Eff.tryCatch, Eff.bind. cbn -[SplitPDF.burstLoop].
  fold n.
  match goal with
  | |- context [SplitPDF.burstLoop fl doc n ?b ?d ?e ?s] =>
      destruct (SplitPDF.burstLoop fl doc n b d e s) as [r st2] eqn:E
  end.
  pose proof (burstLoop_run fl doc n _ _ _ _ _ _ E)
    as [[F1 [F2 [F3 [F4 F5]]]] _].
  change 0 with (Z.of_nat 0) in E.
  apply burstLoop_entries in E; [|cbn; lia].
  destruct E as [-> [Hs He]]. cbn [skipn app] in Hs |- *. fold zip.
  unfold Spec.splitDocState in F1. cbn in F1, F2, F3, F4, F5, Hs, He.
  rewrite !downloads_app in F5. rewrite !saved_app in Hs. cbn in F5, Hs.
  rewrite ?app_nil_r in F5. rewrite ?app_nil_r in Hs.
  injection F1 as I1 I2 I3 I4.
  unfold SplitPDF.downloadBlob, Browser.clickLink, Eff.bind, Eff.gets. cbn.
  rewrite Nat.eqb_refl. cbn.
  rewrite ?saved_app, ?downloads_app. cbn.
  rewrite ?app_nil_r, ?Nat.eqb_refl. cbn [negb].
  unfold Spec.splitDocState. cbn.
  rewrite F5, Hs, He, F3, F4, I1, I2, I3, I4.
  split; [reflexivity|]. split; [exact Hlen|]. split; [exact Hnd|].
  split; [reflexivity|]. split; [reflexivity|]. split; reflexivity.
Qed.

Lemma burst_makes_one_entry_per_page_witness :
  let st := Eff.exec (SplitPDF.setSplitMode SplitPDF.all) Sample.splitLoaded in
  SplitPDF.splitMode (Browser.ui st) = SplitPDF.all /\
  map fst (Spec.burstEntries 0 (firstn 5 Sample.reportPages))
  = ["Page_1.pdf"; "Page_2.pdf"; "Page_3.pdf"; "Page_4.pdf"; "Page_5.pdf"]%string /\
  Spec.downloads (Browser.log (Browser.world
    (Eff.exec (SplitPDF.handleSplit Sample.exact Sample.libs) st)))
  = Spec.downloads (Browser.log (Browser.world st))
    ++ [(Browser.ZipBlob (Spec.burstEntries 0 (firstn 5 Sample.reportPages)),
         "report_individual_pages.zip"%string)].
Proof.
  cbv zeta.
  set (st := Eff.exec (SplitPDF.setSplitMode SplitPDF.all) Sample.splitLoaded).
  assert (H1 : SplitPDF.pdfInfo (Browser.ui st) = Some Sample.reportInfo)
    by (vm_compute; reflexivity).
  assert (H2 : SplitPDF.splitMode (Browser.ui st) = SplitPDF.all)
    by (vm_compute; reflexivity).
  assert (H3 : Browser.loadDocument Sample.libs (SplitPDF.file Sample.reportInfo)
               = Some Sample.reportPages) by (vm_compute; reflexivity).
  assert (H4 : SplitPDF.pageCount Sample.reportInfo
               <= Z.of_nat (List.length Sample.reportPages))
    by (vm_compute; discriminate).
  split; [exact H2|]. split; [vm_compute; reflexivity|].
  exact (proj1 (burst_makes_one_entry_per_page Sample.exact Sample.libs st
                  Sample.reportInfo Sample.reportPages H1 H2 H3 H4)).
Defined.

(** X11. When the codec cannot open the loaded file, a split fails
    closed: the splitting error is shown, nothing is saved or downloaded,
    no object URL is made, and the document, its thumbnails, the
    selection, the range text and the mode are as they were. The handler
    has reported progress 0, called the codec once and armed the 500 ms
    timer; the busy flag stays up until the timer fires, which lowers it
    and puts the progress back to 0, leaving the error on show. *)
Theorem split_fails_closed
    (fl : Q -> Q) (L : Browser.Libs) (st : Browser.St SplitPDF.State)
    (info : SplitPDF.PDFMetadata) :
  SplitPDF.pdfInfo (Browser.ui st) = Some info ->
  Browser.loadDocument L (SplitPDF.file info) = None ->
  let st' := Eff.exec (SplitPDF.handleSplit fl L) st in
  let st'' := Eff.exec SplitPDF.handleSplit_timeout st' in
  SplitPDF.error (Browser.ui st')
  = Some "An error occurred during splitting."%string /\
  Browser.log (Browser.world st')
  = Browser.log (Browser.world st)
    ++ [Browser.Progress 0; Browser.LoadDocument (SplitPDF.file info);
        Browser.SetTimeout 500] /\
  Browser.liveURLs (Browser.world st') = Browser.liveURLs (Browser.world st) /\
  Browser.nextURL (Browser.world st') = Browser.nextURL (Browser.world st) /\
  Spec.splitDocState (Browser.ui st') = Spec.splitDocState (Browser.ui st) /\
  SplitPDF.splitMode (Browser.ui st') = SplitPDF.splitMode (Browser.ui st) /\
  SplitPDF.isProcessing (Browser.ui st') = true /\
  SplitPDF.isProcessing (Browser.ui st'') = false /\
  SplitPDF.progress (Browser.ui st'') = 0 /\
  SplitPDF.error (Browser.ui st'') = SplitPDF.error (Browser.ui st').
Proof.
  intros Hinfo Hload. destruct st as [c w]. cbn [Browser.ui Browser.world] in *.
  unfold SplitPDF.handleSplit, SplitPDF.handleSplit_timeout, Eff.exec.
  cbn -[SplitPDF.resolveIndices].
  rewrite Hinfo. cbn -[SplitPDF.resolveIndices]. rewrite Hload. cbn.
  rewrite <- !app_assoc. cbn.
  split; [reflexivity|]. split; [reflexivity|]. split; [reflexivity|].
  split; [reflexivity|]. split; [reflexivity|]. split; [reflexivity|].
  split; [reflexivity|]. split; [reflexivity|]. split; reflexivity.
Qed.

Lemma split_fails_closed_witness :
  Browser.loadDocument Sample.strictLibs (SplitPDF.file Sample.reportInfo) = None /\
  SplitPDF.error
    (Browser.ui (Eff.exec (SplitPDF.handleSplit Sample.exact Sample.strictLibs)
                   Sample.splitLoaded))
  = Some "An error occurred during splitting."%string.
Proof.
  assert (H1 : SplitPDF.pdfInfo (Browser.ui Sample.splitLoaded)
               = Some Sample.reportInfo) by (vm_compute; reflexivity).
  assert (H2 : Browser.loadDocument Sample.strictLibs
                 (SplitPDF.file Sample.reportInfo) = None) by reflexivity.
  split; [exact H2|].
  exact (proj1 (split_fails_closed Sample.exact Sample.strictLibs
                  Sample.splitLoaded Sample.reportInfo H1 H2)).
Defined.

(** ** Rotating *)

Section Rotating.
Import JS Eff Browser Spec.

Lemma nth_error_replace {A : Type} (l : list A) (k j : nat) (x : A) :
  (k < List.length l)%nat ->
  nth_error (firstn k l ++ x :: skipn (S k) l) j =
  if Nat.eqb j k then Some x else nth_error l j.
Proof.
  revert k j. induction l as [|y l IH]; intros k j Hk; [cbn in Hk; lia|].
  destruct k as [|k].
  - destruct j; reflexivity.
  - destruct j as [|j]; [reflexivity|].
    cbn [firstn skipn app nth_error Nat.eqb]. apply IH. cbn in Hk. lia.
Qed.

Lemma length_replace {A : Type} (l : list A) (k : nat) (x : A) :
  (k < List.length l)%nat ->
  List.length (firstn k l ++ x :: skipn (S k) l) = List.length l.
Proof.
  intros Hk. rewrite length_app, length_firstn. cbn [List.length].
  rewrite length_skipn. lia.
Qed.

(** Turning one page of a document whose rotations are multiples of 90 by
    a multiple of 90. *)
Lemma rotateOne_turns (angle : Z) (pages : Document) (i : Z) :
  angle mod 90 = 0 ->
  Forall (fun p => rotation p mod 90 = 0) pages ->
  0 <= i < Z.of_nat (List.length pages) ->
  exists p,
    nth_error pages (Z.to_nat i) = Some p /\
    RotatePDF.rotateOne angle pages i =
    Some (firstn (Z.to_nat i) pages ++ turned angle p
          :: skipn (S (Z.to_nat i)) pages).
Proof.
  intros Ha Hp Hi. unfold RotatePDF.rotateOne.
  destruct (i <? 0) eqn:E; [apply Z.ltb_lt in E; lia|].
  destruct (nth_error pages (Z.to_nat i)) as [p|] eqn:En;
    [|apply nth_error_None in En; lia].
  exists p. split; [reflexivity|]. unfold RotatePDF.setRotation.
  assert (Hr : rotation p mod 90 = 0).
  { rewrite Forall_forall in Hp. apply Hp. eapply nth_error_In, En. }
  assert (Hm : (rotation p + angle) mod 90 = 0).
  { rewrite Z.add_mod by lia. now rewrite Hr, Ha. }
  rewrite Hm. reflexivity.
Qed.

(** [rotateEach] over a selection without repetition turns each selected
    page once and leaves the others alone. *)
Lemma rotateEach_turns (angle : Z) (selected : list Z) :
  forall pages : Document,
    NoDup selected ->
    (forall i, In i selected -> 0 <= i < Z.of_nat (List.length pages)) ->
    angle mod 90 = 0 ->
    Forall (fun p => rotation p mod 90 = 0) pages ->
    exists rotated,
      RotatePDF.rotateEach angle pages selected = Some rotated /\
      List.length rotated = List.length pages /\
      forall k p,
        nth_error pages k = Some p ->
        nth_error rotated k =
        Some (if has selected (Z.of_nat k) then turned angle p else p).
Proof.
  induction selected as [|i rest IH]; intros pages Hnd Hin Ha Hp.
  - exists pages. split; [reflexivity|]. split; [reflexivity|].
    intros k p Hk. exact Hk.
  - inversion Hnd as [|? ? Hnotin Hnd']; subst.
    assert (Hi : 0 <= i < Z.of_nat (List.length pages)) by (apply Hin; now left).
    destruct (rotateOne_turns angle pages i Ha Hp Hi) as [pi [Hpi Hone]].
    set (pages' := firstn (Z.to_nat i) pages ++ turned angle pi
                   :: skipn (S (Z.to_nat i)) pages) in *.
    assert (Hlen : List.length pages' = List.length pages)
      by (apply length_replace; lia).
    destruct (IH pages' Hnd') as [rotated [Hrot [Hl Hnth]]].
    + intros j Hj. rewrite Hlen. apply Hin. now right.
    + exact Ha.
    + rewrite Forall_forall in *. intros q Hq. unfold pages' in Hq.
      apply in_app_or in Hq. destruct Hq as [Hq|[<-|Hq]].
      * apply Hp. rewrite <- (firstn_skipn (Z.to_nat i) pages).
        apply in_or_app. now left.
      * cbn. rewrite Z.add_mod by lia.
        rewrite (Hp pi (nth_error_In _ _ Hpi)), Ha. reflexivity.
      * apply Hp. rewrite <- (firstn_skipn (S (Z.to_nat i)) pages).
        apply in_or_app. now right.
    + exists rotated. cbn [RotatePDF.rotateEach]. rewrite Hone.
      split; [exact Hrot|]. split; [lia|].
      intros k p Hk.
      assert (Hk' : nth_error pages' k =
                    if Nat.eqb k (Z.to_nat i) then Some (turned angle pi)
                    else Some p).
      { unfold pages'. rewrite nth_error_replace by lia.
        destruct (Nat.eqb k (Z.to_nat i)); [reflexivity|exact Hk]. }
      unfold has. cbn [existsb]. fold (has rest (Z.of_nat k)).
      destruct (Nat.eqb k (Z.to_nat i)) eqn:Ek.
      * apply Nat.eqb_eq in Ek. subst k.
        rewrite Hpi in Hk. inversion Hk; subst p.
        rewrite (Hnth _ _ Hk'). rewrite Z2Nat.id by lia.
        rewrite Z.eqb_refl. cbn [orb].
        apply has_false_iff in Hnotin. rewrite Hnotin. reflexivity.
      * apply Nat.eqb_neq in Ek.
        destruct (Z.of_nat k =? i) eqn:Ez; [apply Z.eqb_eq in Ez; lia|].
        cbn [orb]. exact (Hnth _ _ Hk').
Qed.

End Rotating.

Section RotateRuns.
Import JS Eff Browser Spec.
Variable L : Libs.

(** One run of [handleRotate]: what it hands to the browser, and that it
    leaves the loaded document and the selection alone. *)
Lemma handleRotate_run (st : St RotatePDF.State) (angle : Z) :
  let st' := exec (RotatePDF.handleRotate L angle) st in
  downloads (log (world st')) =
  downloads (log (world st)) ++ rotateOutput L (ui st) angle /\
  rotateDocState (ui st') = rotateDocState (ui st).
Proof.
  destruct st as [c w]. unfold RotatePDF.handleRotate, exec, rotateOutput.
  cbn -[RotatePDF.rotateEach].
  destruct (RotatePDF.pdfInfo c) as [info|] eqn:Hinfo.
  - destruct (RotatePDF.selectedPages c) as [|i0 rest] eqn:Hsel.
    + cbn. rewrite app_nil_r. unfold rotateDocState. cbn.
      rewrite Hinfo, Hsel. split; reflexivity.
    + cbn -[RotatePDF.rotateEach].
      destruct (loadDocument L (RotatePDF.file info)) as [doc|].
      * unfold tryFinally, tryCatch, bind. cbn -[RotatePDF.rotateEach].
        destruct (RotatePDF.rotateEach angle doc (i0 :: rest)) as [rotated|].
        -- cbn. rewrite Nat.eqb_refl. cbn.
           rewrite !downloads_app. cbn. rewrite ?app_nil_r.
           unfold rotateDocState. cbn. rewrite Hinfo, Hsel.
           split; reflexivity.
        -- cbn. rewrite !downloads_app. cbn. rewrite ?app_nil_r.
           unfold rotateDocState. cbn. rewrite Hinfo, Hsel.
           split; reflexivity.
      * cbn. rewrite !downloads_app. cbn. rewrite ?app_nil_r.
        unfold rotateDocState. cbn. rewrite Hinfo, Hsel.
        split; reflexivity.
  - cbn. rewrite app_nil_r. unfold rotateDocState. cbn. rewrite Hinfo.
    split; reflexivity.
Qed.

Lemma rotateOutput_ext (c c' : RotatePDF.State) (angle : Z) :
  rotateDocState c' = rotateDocState c ->
  rotateOutput L c' angle = rotateOutput L c angle.
Proof.
  unfold rotateDocState, rotateOutput. intros H.
  injection H as H1 H2 H3. now rewrite H1, H3.
Qed.

End RotateRuns.

(** X12. A rotation turns exactly the selected pages. With a document
    loaded, a non-empty selection without repetition inside the document,
    and all angles multiples of 90, [handleRotate] saves and downloads, as
    "Rotated_" + name, a document with as many pages as the file has, in
    which each selected page is the page of the file turned by the angle
    and every other page is the page of the file. The object URL made
    for the download is revoked, no error is set, the busy flag is down,
    and the loaded document and the selection are as they were. *)
Theorem rotate_turns_selected_pages
    (L : Browser.Libs) (st : Browser.St RotatePDF.State)
    (info : RotatePDF.PDFMetadata) (doc : Browser.Document) (angle : Z) :
  RotatePDF.pdfInfo (Browser.ui st) = Some info ->
  RotatePDF.selectedPages (Browser.ui st) <> [] ->
  NoDup (RotatePDF.selectedPages (Browser.ui st)) ->
  (forall i, In i (RotatePDF.selectedPages (Browser.ui st)) ->
             0 <= i < Z.of_nat (List.length doc)) ->
  Browser.loadDocument L (RotatePDF.file info) = Some doc ->
  angle mod 90 = 0 ->
  Forall (fun p => Browser.rotation p mod 90 = 0) doc ->
  let st' := Eff.exec (RotatePDF.handleRotate L angle) st in
  exists rotated : Browser.Document,
    List.length rotated = List.length doc /\
    (forall k p,
        nth_error doc k = Some p ->
        nth_error rotated k =
        Some (if JS.has (RotatePDF.selectedPages (Browser.ui st)) (Z.of_nat k)
              then Spec.turned angle p else p)) /\
    Spec.downloads (Browser.log (Browser.world st'))
    = Spec.downloads (Browser.log (Browser.world st))
      ++ [(Browser.PdfBlob rotated, ("Rotated_" ++ RotatePDF.name info)%string)] /\
    Spec.saved (Browser.log (Browser.world st'))
    = Spec.saved (Browser.log (Browser.world st)) ++ [rotated] /\
    Browser.liveURLs (Browser.world st')
    = filter (fun e => negb (Nat.eqb (fst e) (Browser.nextURL (Browser.world st))))
        (Browser.liveURLs (Browser.world st)) /\
    RotatePDF.error (Browser.ui st') = None /\
    RotatePDF.isProcessing (Browser.ui st') = false /\
    Spec.rotateDocState (Browser.ui st') = Spec.rotateDocState (Browser.ui st).
Proof.
  intros Hinfo Hne Hnd Hin Hload Ha Hp st'. subst st'.
  destruct (rotateEach_turns angle _ doc Hnd Hin Ha Hp)
    as [rotated [Hrot [Hlen Hnth]]].
  exists rotated. split; [exact Hlen|]. split; [exact Hnth|].
  destruct st as [c w]. cbn [Browser.ui Browser.world] in *.
  unfold RotatePDF.handleRotate, Eff.exec. cbn -[RotatePDF.rotateEach].
  rewrite Hinfo.
  destruct (RotatePDF.selectedPages c) as [|i0 rest] eqn:Hsel; [contradiction|].
  cbn -[RotatePDF.rotateEach]. rewrite Hload.
  unfold Eff.tryFinally, Eff.tryCatch, Eff.bind.
  cbn -[RotatePDF.rotateEach]. rewrite Hrot.
  cbn. rewrite Nat.eqb_refl. cbn.
  rewrite !downloads_app, !saved_app. cbn.
  rewrite ?app_nil_r, ?Nat.eqb_refl. cbn [negb].
  unfold Spec.rotateDocState. cbn. rewrite Hinfo, Hsel.
  split; [reflexivity|]. split; [reflexivity|]. split; [reflexivity|].
  split; [reflexivity|]. split; reflexivity.
Qed.

Lemma rotate_turns_selected_pages_witness :
  let st := Eff.exec (RotatePDF.togglePage 3)
              (Eff.exec (RotatePDF.togglePage 1) Sample.rotateLoaded) in
  RotatePDF.selectedPages (Browser.ui st) = [1; 3] /\
  exists rotated : Browser.Document,
    nth_error rotated 1 = Some (Spec.turned 90 (Sample.page 11)) /\
    nth_error rotated 2 = Some (Sample.page 12) /\
    Spec.downloads (Browser.log (Browser.world
      (Eff.exec (RotatePDF.handleRotate Sample.libs 90) st)))
    = Spec.downloads (Browser.log (Browser.world st))
      ++ [(Browser.PdfBlob rotated, "Rotated_report.pdf"%string)].
Proof.
  cbv zeta.
  set (st := Eff.exec (RotatePDF.togglePage 3)
               (Eff.exec (RotatePDF.togglePage 1) Sample.rotateLoaded)).
  assert (H1 : RotatePDF.pdfInfo (Browser.ui st) = Some Sample.rotateReportInfo)
    by (vm_compute; reflexivity).
  assert (Hs : RotatePDF.selectedPages (Browser.ui st) = [1; 3])
    by (vm_compute; reflexivity).
  assert (H2 : RotatePDF.selectedPages (Browser.ui st) <> [])
    by (rewrite Hs; discriminate).
  assert (H3 : NoDup (RotatePDF.selectedPages (Browser.ui st))).
  { rewrite Hs. repeat constructor; simpl; lia. }
  assert (H4 : forall i, In i (RotatePDF.selectedPages (Browser.ui st)) ->
                         0 <= i < Z.of_nat (List.length Sample.reportPages)).
  { rewrite Hs. intros i Hi. simpl in Hi. simpl. lia. }
  assert (H5 : Browser.loadDocument Sample.libs
                 (RotatePDF.file Sample.rotateReportInfo)
               = Some Sample.reportPages) by (vm_compute; reflexivity).
  assert (H6 : 90 mod 90 = 0) by reflexivity.
  assert (H7 : Forall (fun p => Browser.rotation p mod 90 = 0) Sample.reportPages).
  { repeat constructor. }
  split; [exact Hs|].
  destruct (rotate_turns_selected_pages Sample.libs st Sample.rotateReportInfo
              Sample.reportPages 90 H1 H2 H3 H4 H5 H6 H7)
    as [rotated [_ [Hnth [Hd _]]]].
  exists rotated. split; [|split; [|exact Hd]].
  - rewrite (Hnth 1%nat (Sample.page 11) eq_refl), Hs. reflexivity.
  - rewrite (Hnth 2%nat (Sample.page 12) eq_refl), Hs. reflexivity.
Defined.

(** X13. Rotations do not accumulate from one run to the next:
    [handleRotate] reads the file afresh and leaves the loaded document
    and the selection alone, so a second run hands the browser exactly
    what it would have handed it had the first not taken place. Two
    runs by 90 give two downloads of the pages turned by 90, not one of
    them turned by 180. *)
Theorem rotate_runs_are_independent
    (L : Browser.Libs) (st : Browser.St RotatePDF.State) (a1 a2 : Z) :
  let run a s := Eff.exec (RotatePDF.handleRotate L a) s in
  Spec.downloads (Browser.log (Browser.world (run a2 (run a1 st))))
  = Spec.downloads (Browser.log (Browser.world st))
    ++ Spec.rotateOutput L (Browser.ui st) a1
    ++ Spec.rotateOutput L (Browser.ui st) a2 /\
  Spec.rotateDocState (Browser.ui (run a2 (run a1 st)))
  = Spec.rotateDocState (Browser.ui st).
Proof.
  cbv zeta.
  destruct (handleRotate_run L st a1) as [D1 S1].
  destruct (handleRotate_run L (Eff.exec (RotatePDF.handleRotate L a1) st) a2)
    as [D2 S2].
  cbv zeta in D1, S1, D2, S2. split.
  - rewrite D2, D1, (rotateOutput_ext L _ _ a2 S1), <- app_assoc. reflexivity.
  - rewrite S2. exact S1.
Qed.

Lemma rotate_allPages_all (N : Z) :
  RotatePDF.allPages (Z.to_nat N) 0 [] = Spec.zrange 0 (Z.to_nat N).
Proof. exact (allPages_all N). Qed.

(** X14. Select All followed by a rotation turns every page: with a
    loaded document whose page count is the number of pages of the file
    (at least one), [selectAll] selects the indices 0 to N-1 and
    [handleRotate] then downloads the file's pages, each turned by the
    angle, in their order. *)
Theorem selectAll_then_rotate_turns_every_page
    (L : Browser.Libs) (st : Browser.St RotatePDF.State)
    (info : RotatePDF.PDFMetadata) (doc : Browser.Document) (angle : Z) :
  RotatePDF.pdfInfo (Browser.ui st) = Some info ->
  Browser.loadDocument L (RotatePDF.file info) = Some doc ->
  RotatePDF.pageCount info = Z.of_nat (List.length doc) ->
  doc <> [] ->
  angle mod 90 = 0 ->
  Forall (fun p => Browser.rotation p mod 90 = 0) doc ->
  let st1 := Eff.exec RotatePDF.selectAll st in
  let st2 := Eff.exec (RotatePDF.handleRotate L angle) st1 in
  RotatePDF.selectedPages (Browser.ui st1) = Spec.zrange 0 (List.length doc) /\
  Spec.downloads (Browser.log (Browser.world st2))
  = Spec.downloads (Browser.log (Browser.world st))
    ++ [(Browser.PdfBlob (map (Spec.turned angle) doc),
         ("Rotated_" ++ RotatePDF.name info)%string)].
Proof.
  intros Hinfo Hload Hcount Hne Ha Hp st1 st2.
  assert (Hsel : RotatePDF.selectedPages (Browser.ui st1)
                 = Spec.zrange 0 (List.length doc)).
  { subst st1. destruct st as [c w]. cbn [Browser.ui] in Hinfo.
    unfold RotatePDF.selectAll, Eff.exec, Eff.bind, Eff.gets. cbn.
    rewrite Hinfo. cbn. rewrite rotate_allPages_all, Hcount, Nat2Z.id.
    reflexivity. }
  assert (Hinfo1 : RotatePDF.pdfInfo (Browser.ui st1) = Some info).
  { subst st1. destruct st as [c w]. cbn [Browser.ui] in Hinfo.
    unfold RotatePDF.selectAll, Eff.exec, Eff.bind, Eff.gets. cbn.
    rewrite Hinfo. cbn. exact Hinfo. }
  assert (Hlog1 : Browser.world st1 = Browser.world st).
  { subst st1. destruct st as [c w]. cbn [Browser.ui] in Hinfo.
    unfold RotatePDF.selectAll, Eff.exec, Eff.bind, Eff.gets. cbn.
    rewrite Hinfo. reflexivity. }
  split; [exact Hsel|].
  destruct (rotateEach_turns angle (Spec.zrange 0 (List.length doc)) doc)
    as [rotated [Hrot [Hlen Hnth]]].
  { apply zrange_NoDup. }
  { intros i Hi. apply zrange_In in Hi. lia. }
  { exact Ha. }
  { exact Hp. }
  assert (Hall : rotated = map (Spec.turned angle) doc).
  { apply nth_error_ext. intros k.
    destruct (nth_error doc k) as [p|] eqn:Ek.
    - rewrite (Hnth k p Ek), nth_error_map, Ek. cbn.
      assert (Hk : (k < List.length doc)%nat)
        by (apply nth_error_Some; congruence).
      assert (Hhas : JS.has (Spec.zrange 0 (List.length doc)) (Z.of_nat k) = true).
      { apply has_true_iff, zrange_In. lia. }
      now rewrite Hhas.
    - rewrite nth_error_map, Ek. cbn.
      apply nth_error_None. rewrite Hlen. now apply nth_error_None. }
  destruct (handleRotate_run L st1 angle) as [D _]. cbv zeta in D.
  subst st2. rewrite D, Hlog1. f_equal.
  unfold Spec.rotateOutput. rewrite Hinfo1, Hsel, Hload.
  destruct (Spec.zrange 0 (List.length doc)) as [|z0 zs] eqn:Ez.
  - destruct doc; [contradiction|discriminate Ez].
  - rewrite Hrot, Hall. reflexivity.
Qed.

Lemma selectAll_then_rotate_turns_every_page_witness :
  RotatePDF.pdfInfo (Browser.ui Sample.rotateLoaded) = Some Sample.rotateReportInfo /\
  Spec.downloads (Browser.log (Browser.world
    (Eff.exec (RotatePDF.handleRotate Sample.libs 180)
       (Eff.exec RotatePDF.selectAll Sample.rotateLoaded))))
  = Spec.downloads (Browser.log (Browser.world Sample.rotateLoaded))
    ++ [(Browser.PdfBlob (map (Spec.turned 180) Sample.reportPages),
         "Rotated_report.pdf"%string)].
Proof.
  assert (H1 : RotatePDF.pdfInfo (Browser.ui Sample.rotateLoaded)
               = Some Sample.rotateReportInfo) by (vm_compute; reflexivity).
  assert (H2 : Browser.loadDocument Sample.libs
                 (RotatePDF.file Sample.rotateReportInfo)
               = Some Sample.reportPages) by (vm_compute; reflexivity).
  assert (H3 : RotatePDF.pageCount Sample.rotateReportInfo
               = Z.of_nat (List.length Sample.reportPages)) by reflexivity.
  assert (H4 : Sample.reportPages <> []) by discriminate.
  assert (H5 : 180 mod 90 = 0) by reflexivity.
  assert (H6 : Forall (fun p => Browser.rotation p mod 90 = 0) Sample.reportPages).
  { repeat constructor. }
  split; [exact H1|].
  exact (proj2 (selectAll_then_rotate_turns_every_page Sample.libs
                  Sample.rotateLoaded Sample.rotateReportInfo
                  Sample.reportPages 180 H1 H2 H3 H4 H5 H6)).
Defined.

(** ** The merge queue: admission, removal, moving back *)

Section QueueMore.
Import JS Eff Browser MergePDF.
Variable L : Libs.
Variable randomId : nat -> string.

Lemma filter_filter_andb {A : Type} (p q : A -> bool) (l : list A) :
  filter q (filter p l) = filter (fun x => p x && q x) l.
Proof.
  induction l as [|x l IH]; [reflexivity|]. cbn.
  destruct (p x); cbn; [destruct (q x); now rewrite IH|exact IH].
Qed.

(** The entries made for the admitted files: one per file, in order, with
    the ids drawn in order. *)
Lemma newItemsFrom_spec (fs : list File) :
  forall k,
    map file (newItemsFrom L randomId k fs) = fs /\
    map id (newItemsFrom L randomId k fs) = map randomId (seq k (List.length fs)) /\
    Forall (fun it => sizeRaw it = Browser.size (file it) /\
                      name it = Browser.name (file it) /\
                      size it = formatSize L (Browser.size (file it)))
      (newItemsFrom L randomId k fs).
Proof.
  induction fs as [|f fs IH]; intros k; cbn.
  - split; [reflexivity|]. split; [reflexivity|constructor].
  - destruct (IH (S k)) as [H1 [H2 H3]]. rewrite H1, H2.
    split; [reflexivity|]. split; [reflexivity|].
    constructor; [cbn; repeat split|exact H3].
Qed.

Lemma filter_all {A : Type} (p : A -> bool) (l : list A) :
  (forall y, In y l -> p y = true) -> filter p l = l.
Proof.
  induction l as [|x l IH]; intros H; [reflexivity|]. cbn.
  rewrite (H x (or_introl eq_refl)). f_equal. apply IH.
  intros y Hy. apply H. now right.
Qed.

Lemma filter_unique {A : Type} (p : A -> bool) (l1 l2 : list A) (x : A) :
  p x = false -> (forall y, In y (l1 ++ l2) -> p y = true) ->
  filter p (l1 ++ x :: l2) = l1 ++ l2.
Proof.
  intros Hx Hall. rewrite filter_app. cbn. rewrite Hx.
  rewrite !filter_all; [reflexivity| |].
  - intros y Hy. apply Hall, in_or_app. now right.
  - intros y Hy. apply Hall, in_or_app. now left.
Qed.

Lemma findIndexFrom_first {A : Type} (p : A -> bool) (a : list A) (x : A)
    (b : list A) :
  (forall y, In y a -> p y = false) -> p x = true ->
  forall i, findIndexFrom p (a ++ x :: b) i = i + Z.of_nat (List.length a).
Proof.
  intros Ha Hx. induction a as [|y a IH]; intros i; cbn [app findIndexFrom].
  - rewrite Hx. cbn. lia.
  - rewrite (Ha y (or_introl eq_refl)). rewrite IH.
    + cbn [List.length]. lia.
    + intros z Hz. apply Ha. now right.
Qed.

Lemma app_eq_same_length {A : Type} (a l1 : list A) :
  forall r r',
    List.length a = List.length l1 -> a ++ r = l1 ++ r' -> a = l1 /\ r = r'.
Proof.
  revert l1. induction a as [|x a IH]; intros [|y l1] r r' Hlen H;
    try discriminate.
  - split; [reflexivity|exact H].
  - cbn in H. inversion H; subst. cbn in Hlen.
    destruct (IH l1 r r' ltac:(lia) H2) as [-> ->]. split; reflexivity.
Qed.

End QueueMore.

(** X15. [addFiles] admits to the merge queue exactly the PDFs of at most
    50 MB among the files it is given, in the order given, after the
    entries already queued, which stay as they are. Each new entry
    carries its file, the file's name and the file's size, and the ids
    are drawn in order. Nothing outside the component is touched. The
    error message is cleared when no PDF was over the limit, and
    otherwise says how many were skipped; files that are not PDFs are
    dropped without a word. *)
Theorem addFiles_admits_small_pdfs
    (L : Browser.Libs) (randomId : nat -> string)
    (newFiles : list Browser.File) (st : Browser.St MergePDF.State) :
  let st' := Eff.exec (MergePDF.addFiles L randomId newFiles) st in
  let admitted :=
    filter (fun f => MergePDF.isPdf f
                     && (Browser.size f <=? MergePDF.MAX_FILE_SIZE_BYTES))
      newFiles in
  let skipped :=
    filter (fun f => MergePDF.isPdf f
                     && (Browser.size f >? MergePDF.MAX_FILE_SIZE_BYTES))
      newFiles in
  exists newItems : list MergePDF.FileItem,
    MergePDF.files (Browser.ui st')
    = MergePDF.files (Browser.ui st) ++ newItems /\
    map MergePDF.file newItems = admitted /\
    map MergePDF.id newItems = map randomId (seq 0 (List.length admitted)) /\
    Forall (fun it =>
              MergePDF.sizeRaw it = Browser.size (MergePDF.file it) /\
              MergePDF.sizeRaw it <= 52428800 /\
              MergePDF.name it = Browser.name (MergePDF.file it) /\
              Browser.type (MergePDF.file it) = "application/pdf"%string)
      newItems /\
    Browser.world st' = Browser.world st /\
    MergePDF.errorMessage (Browser.ui st')
    = match skipped with
      | [] => None
      | _ :: _ =>
          Some (JS.toString (Z.of_nat (List.length skipped))
                ++ " file(s) skipped. Maximum size per file is 50MB.")%string
      end.
Proof.
  intros st' admitted skipped.
  set (valid := filter (fun f => Browser.size f <=? MergePDF.MAX_FILE_SIZE_BYTES)
                  (filter MergePDF.isPdf newFiles)).
  assert (Hvalid : valid = admitted) by apply filter_filter_andb.
  destruct (newItemsFrom_spec L randomId valid 0) as [H1 [H2 H3]].
  exists (MergePDF.newItemsFrom L randomId 0 valid).
  assert (Hfiles : MergePDF.files (Browser.ui st')
                   = MergePDF.files (Browser.ui st)
                     ++ MergePDF.newItemsFrom L randomId 0 valid).
  { subst st'. destruct st as [c w]. unfold MergePDF.addFiles, Eff.exec.
    unfold Eff.bind, Eff.gets. cbn [MergePDF.setErrorMessage Browser.setState
      Eff.modify fst snd Browser.ui Browser.world].
    destruct (0 <? _); reflexivity. }
  assert (Hworld : Browser.world st' = Browser.world st).
  { subst st'. destruct st as [c w]. unfold MergePDF.addFiles, Eff.exec.
    unfold Eff.bind, Eff.gets. cbn [MergePDF.setErrorMessage Browser.setState
      Eff.modify fst snd Browser.ui Browser.world].
    destruct (0 <? _); reflexivity. }
  assert (Herr : MergePDF.errorMessage (Browser.ui st')
                 = match skipped with
                   | [] => None
                   | _ :: _ =>
                       Some (JS.toString (Z.of_nat (List.length skipped))
                             ++ " file(s) skipped. Maximum size per file is 50MB.")%string
                   end).
  { subst st'. destruct st as [c w]. unfold MergePDF.addFiles, Eff.exec.
    rewrite (filter_filter_andb MergePDF.isPdf
               (fun f => Browser.size f >? MergePDF.MAX_FILE_SIZE_BYTES)).
    fold skipped.
    unfold Eff.bind, Eff.gets. cbn [MergePDF.setErrorMessage Browser.setState
      Eff.modify fst snd Browser.ui Browser.world].
    destruct skipped as [|s0 sk].
    - reflexivity.
    - replace (0 <? Z.of_nat (List.length (s0 :: sk))) with true
        by (symmetry; apply Z.ltb_lt; cbn [List.length]; lia).
      cbn [MergePDF.errorMessage Browser.ui snd MergePDF.setFiles
           Browser.setState Eff.modify].
      replace (JS.toString MergePDF.MAX_FILE_SIZE_MB) with "50"%string
        by (vm_compute; reflexivity).
      reflexivity. }
  split; [exact Hfiles|]. split; [now rewrite H1|].
  split; [now rewrite H2, Hvalid|]. split; [|split; [exact Hworld|exact Herr]].
  rewrite Forall_forall in *. intros it Hit.
  destruct (H3 it Hit) as [Hs [Hn _]].
  assert (Hin : In (MergePDF.file it) valid).
  { rewrite <- H1. now apply in_map. }
  unfold valid in Hin. apply filter_In in Hin. destruct Hin as [Hin Hle].
  apply filter_In in Hin. destruct Hin as [_ Hpdf].
  apply Z.leb_le in Hle. unfold MergePDF.isPdf in Hpdf.
  apply String.eqb_eq in Hpdf.
  split; [exact Hs|]. split; [|split; [exact Hn|exact Hpdf]].
  rewrite Hs. exact Hle.
Qed.

Lemma removeFile_restores_aux
    (st : Browser.St MergePDF.State) (id0 : string)
    (l1 l2 : list MergePDF.FileItem) (x : MergePDF.FileItem) :
  MergePDF.files (Browser.ui st) = l1 ++ x :: l2 ->
  MergePDF.id x = id0 ->
  (forall f, In f (l1 ++ l2) -> MergePDF.id f <> id0) ->
  MergePDF.files (Browser.ui (Eff.exec (MergePDF.removeFile id0) st)) = l1 ++ l2.
Proof.
  intros Hfs Hx Hothers. destruct st as [c w]. cbn [Browser.ui] in Hfs.
  unfold MergePDF.removeFile, Eff.exec, Eff.bind, Eff.gets. cbn.
  rewrite Hfs. apply filter_unique.
  - rewrite Hx, String.eqb_refl. reflexivity.
  - intros y Hy. specialize (Hothers y Hy).
    apply String.eqb_neq in Hothers. now rewrite Hothers.
Qed.

(** X16. Removing a queued file by its id takes out that entry and
    nothing else: when one entry of the queue has the id, the queue
    afterwards is the queue without it, the other entries in their
    order; the rest of the state and the world are untouched. *)
Theorem removeFile_takes_out_that_entry
    (st : Browser.St MergePDF.State) (id0 : string)
    (l1 l2 : list MergePDF.FileItem) (x : MergePDF.FileItem) :
  MergePDF.files (Browser.ui st) = l1 ++ x :: l2 ->
  MergePDF.id x = id0 ->
  (forall f, In f (l1 ++ l2) -> MergePDF.id f <> id0) ->
  let st' := Eff.exec (MergePDF.removeFile id0) st in
  MergePDF.files (Browser.ui st') = l1 ++ l2 /\
  Browser.world st' = Browser.world st /\
  MergePDF.options (Browser.ui st') = MergePDF.options (Browser.ui st) /\
  MergePDF.errorMessage (Browser.ui st') = MergePDF.errorMessage (Browser.ui st) /\
  MergePDF.draggedIndex (Browser.ui st') = MergePDF.draggedIndex (Browser.ui st).
Proof.
  intros Hfs Hx Hothers. destruct st as [c w]. cbn [Browser.ui] in Hfs.
  unfold MergePDF.removeFile, Eff.exec, Eff.bind, Eff.gets. cbn.
  rewrite Hfs. split; [|repeat split].
  apply filter_unique.
  - rewrite Hx, String.eqb_refl. reflexivity.
  - intros y Hy. specialize (Hothers y Hy).
    apply String.eqb_neq in Hothers. now rewrite Hothers.
Qed.

Lemma removeFile_takes_out_that_entry_witness :
  let q := [Sample.queued "a" Sample.report; Sample.queued "b" Sample.notes;
            Sample.queued "c" Sample.appendix] in
  MergePDF.files
    (Browser.ui (Eff.exec (MergePDF.removeFile "b") (Sample.merge0 false q)))
  = [Sample.queued "a" Sample.report; Sample.queued "c" Sample.appendix].
Proof.
  cbv zeta.
  refine (proj1 (removeFile_takes_out_that_entry
                   (Sample.merge0 false
                      [Sample.queued "a" Sample.report;
                       Sample.queued "b" Sample.notes;
                       Sample.queued "c" Sample.appendix])
                   "b" [Sample.queued "a" Sample.report]
                   [Sample.queued "c" Sample.appendix]
                   (Sample.queued "b" Sample.notes) eq_refl eq_refl _)).
  intros f [<-|[<-|[]]]; cbn; discriminate.
Defined.

(** X17. Adding a file and removing it again restores the queue: when a
    PDF of at most 50 MB is added alone and the id drawn for it is not
    the id of a queued entry, removing that id leaves the queue as it was
    before the file was added. *)
Theorem add_then_remove_restores_queue
    (L : Browser.Libs) (randomId : nat -> string)
    (st : Browser.St MergePDF.State) (f : Browser.File) :
  Browser.type f = "application/pdf"%string ->
  Browser.size f <= MergePDF.MAX_FILE_SIZE_BYTES ->
  (forall it, In it (MergePDF.files (Browser.ui st)) ->
              MergePDF.id it <> randomId 0%nat) ->
  let st1 := Eff.exec (MergePDF.addFiles L randomId [f]) st in
  let st2 := Eff.exec (MergePDF.removeFile (randomId 0%nat)) st1 in
  List.length (MergePDF.files (Browser.ui st1))
  = S (List.length (MergePDF.files (Browser.ui st))) /\
  MergePDF.files (Browser.ui st2) = MergePDF.files (Browser.ui st).
Proof.
  intros Ht Hs Hfresh st1 st2.
  assert (H1 : MergePDF.files (Browser.ui st1)
               = MergePDF.files (Browser.ui st)
                 ++ [{| MergePDF.id := randomId 0%nat; MergePDF.file := f;
                        MergePDF.name := Browser.name f;
                        MergePDF.size := Browser.formatSize L (Browser.size f);
                        MergePDF.sizeRaw := Browser.size f |}]).
  { assert (Hpdf : MergePDF.isPdf f = true)
      by (unfold MergePDF.isPdf; rewrite Ht; reflexivity).
    assert (Hle : (Browser.size f <=? MergePDF.MAX_FILE_SIZE_BYTES) = true)
      by (apply Z.leb_le; exact Hs).
    assert (Hgt : (Browser.size f >? MergePDF.MAX_FILE_SIZE_BYTES) = false)
      by (rewrite Z.gtb_ltb; apply Z.ltb_ge; exact Hs).
    subst st1. destruct st as [c w]. unfold MergePDF.addFiles, Eff.exec.
    unfold Eff.bind, Eff.gets. cbn [filter]. rewrite !Hpdf. cbn [filter].
    rewrite Hle, Hgt. cbn. reflexivity. }
  split; [rewrite H1, length_app; cbn; lia|].
  subst st2.
  pose proof (removeFile_restores_aux st1 (randomId 0%nat)
                (MergePDF.files (Browser.ui st)) [] _ H1 eq_refl) as H2.
  rewrite app_nil_r in H2. apply H2. exact Hfresh.
Qed.

Lemma add_then_remove_restores_queue_witness :
  let st := Sample.merge0 false [Sample.queued "a" Sample.report] in
  let ids := fun _ : nat => "z"%string in
  Browser.size Sample.notes <= MergePDF.MAX_FILE_SIZE_BYTES /\
  MergePDF.files
    (Browser.ui (Eff.exec (MergePDF.removeFile "z")
                   (Eff.exec (MergePDF.addFiles Sample.libs ids [Sample.notes]) st)))
  = MergePDF.files (Browser.ui st).
Proof.
  cbv zeta.
  assert (H1 : Browser.type Sample.notes = "application/pdf"%string)
    by reflexivity.
  assert (H2 : Browser.size Sample.notes <= MergePDF.MAX_FILE_SIZE_BYTES)
    by (vm_compute; discriminate).
  split; [exact H2|].
  refine (proj2 (add_then_remove_restores_queue Sample.libs
                   (fun _ : nat => "z"%string)
                   (Sample.merge0 false [Sample.queued "a" Sample.report])
                   Sample.notes H1 H2 _)).
  intros it [<-|[]]. cbn. discriminate.
Defined.

Section MovingBack.
Import JS Eff Browser MergePDF.

(** [moveFile id up] on a queue in which the first entry with the id has
    an entry before it. *)
Lemma moveFile_up_at (c : State) (w : World) (id0 : string)
    (a : list FileItem) (z x : FileItem) (b : list FileItem) :
  files c = a ++ z :: x :: b ->
  (forall f, In f a -> id f <> id0) -> id z <> id0 -> id x = id0 ->
  files (ui (exec (moveFile id0 up) (mkSt c w))) = a ++ x :: z :: b.
Proof.
  intros Hfs Ha Hz Hx.
  assert (Hidx : findIndex (fun f => String.eqb (id f) id0) (files c)
                 = Z.of_nat (List.length a) + 1).
  { rewrite Hfs. unfold findIndex.
    change (a ++ z :: x :: b) with (a ++ [z] ++ x :: b). rewrite app_assoc.
    rewrite findIndexFrom_first.
    - rewrite length_app. cbn [List.length]. lia.
    - intros y Hy. apply in_app_or in Hy. apply String.eqb_neq.
      destruct Hy as [Hy|[<-|[]]]; [now apply Ha|exact Hz].
    - rewrite Hx. apply String.eqb_refl. }
  pose proof (moveFile_swaps c w id0 up) as H. cbv zeta in H.
  rewrite Hidx in H.
  assert (Hlen : List.length (files c) = (List.length a + S (S (List.length b)))%nat).
  { rewrite Hfs, length_app. reflexivity. }
  destruct H as [[H _]|[[_ [H _]]|[_ [_ [l1 [x' [y' [l2 [E1 [E2 [E3 _]]]]]]]]]]].
  - lia.
  - lia.
  - rewrite E2. rewrite Hfs in E1.
    destruct (app_eq_same_length a l1 _ _ ltac:(lia) E1) as [<- E].
    inversion E; subst. reflexivity.
Qed.

(** [moveFile id down] on a queue in which the first entry with the id
    has an entry after it. *)
Lemma moveFile_down_at (c : State) (w : World) (id0 : string)
    (a : list FileItem) (x z : FileItem) (b : list FileItem) :
  files c = a ++ x :: z :: b ->
  (forall f, In f a -> id f <> id0) -> id x = id0 ->
  files (ui (exec (moveFile id0 down) (mkSt c w))) = a ++ z :: x :: b.
Proof.
  intros Hfs Ha Hx.
  assert (Hidx : findIndex (fun f => String.eqb (id f) id0) (files c)
                 = Z.of_nat (List.length a)).
  { rewrite Hfs. unfold findIndex. rewrite findIndexFrom_first.
    - lia.
    - intros y Hy. apply String.eqb_neq. now apply Ha.
    - rewrite Hx. apply String.eqb_refl. }
  pose proof (moveFile_swaps c w id0 down) as H. cbv zeta in H.
  rewrite Hidx in H.
  assert (Hlen : List.length (files c) = (List.length a + S (S (List.length b)))%nat).
  { rewrite Hfs, length_app. reflexivity. }
  destruct H as [[H _]|[[_ [H _]]|[_ [_ [l1 [x' [y' [l2 [E1 [E2 [E3 _]]]]]]]]]]].
  - lia.
  - lia.
  - rewrite E2. rewrite Hfs in E1.
    destruct (app_eq_same_length a l1 _ _ ltac:(lia) E1) as [<- E].
    inversion E; subst. reflexivity.
Qed.

End MovingBack.

(** X18. Moving a queued file up and then down again restores the queue.
    When the first entry with the id is not at the head of the queue,
    [moveFile(id, 'up')] puts it one position earlier, and
    [moveFile(id, 'down')] after that gives back the queue as it was. *)
Theorem move_up_then_down_restores
    (st : Browser.St MergePDF.State) (id0 : string) :
  let found fs := JS.findIndex (fun f => String.eqb (MergePDF.id f) id0) fs in
  0 < found (MergePDF.files (Browser.ui st)) ->
  let st1 := Eff.exec (MergePDF.moveFile id0 MergePDF.up) st in
  let st2 := Eff.exec (MergePDF.moveFile id0 MergePDF.down) st1 in
  found (MergePDF.files (Browser.ui st1))
  = found (MergePDF.files (Browser.ui st)) - 1 /\
  MergePDF.files (Browser.ui st2) = MergePDF.files (Browser.ui st).
Proof.
  intros found Hpos st1 st2. subst found. cbv beta in *.
  destruct st as [c w]. cbn [Browser.ui] in *.
  destruct (findIndexFrom_spec (fun f => String.eqb (MergePDF.id f) id0)
              (MergePDF.files c) 0)
    as [[Hi _]|[a [x [b [Hsplit [Hx [Ha Hi]]]]]]].
  { unfold JS.findIndex in Hpos. lia. }
  unfold JS.findIndex in Hpos |- *. rewrite Hi in Hpos |- *.
  apply String.eqb_eq in Hx.
  destruct a as [|z a' _] using rev_ind; [cbn in Hpos; lia|].
  assert (Ha' : forall f, In f a' -> MergePDF.id f <> id0).
  { intros f Hf. apply String.eqb_neq, Ha, in_or_app. now left. }
  assert (Hz : MergePDF.id z <> id0).
  { apply String.eqb_neq, Ha, in_or_app. right. now left. }
  rewrite <- app_assoc in Hsplit. cbn [app] in Hsplit.
  pose proof (moveFile_up_at c w id0 a' z x b Hsplit Ha' Hz Hx) as H1.
  fold st1 in H1.
  assert (Hf1 : JS.findIndexFrom (fun f => String.eqb (MergePDF.id f) id0)
                  (MergePDF.files (Browser.ui st1)) 0
                = Z.of_nat (List.length a')).
  { rewrite H1, findIndexFrom_first.
    - lia.
    - intros y Hy. apply String.eqb_neq. now apply Ha'.
    - rewrite Hx. apply String.eqb_refl. }
  split.
  - rewrite Hf1, length_app. cbn [List.length]. lia.
  - subst st2. destruct st1 as [c1 w1]. cbn [Browser.ui] in *.
    rewrite (moveFile_down_at c1 w1 id0 a' x z b H1 Ha' Hx).
    symmetry. exact Hsplit.
Qed.

Lemma move_up_then_down_restores_witness :
  let st := Sample.merge0 false
              [Sample.queued "a" Sample.report; Sample.queued "b" Sample.notes;
               Sample.queued "c" Sample.appendix] in
  MergePDF.files
    (Browser.ui (Eff.exec (MergePDF.moveFile "c" MergePDF.down)
                   (Eff.exec (MergePDF.moveFile "c" MergePDF.up) st)))
  = MergePDF.files (Browser.ui st).
Proof.
  cbv zeta.
  refine (proj2 (move_up_then_down_restores
                   (Sample.merge0 false
                      [Sample.queued "a" Sample.report;
                       Sample.queued "b" Sample.notes;
                       Sample.queued "c" Sample.appendix]) "c" _)).
  vm_compute. reflexivity.
Defined.

Section DraggingBack.
Import JS Eff Browser MergePDF.

Lemma without_length {A : Type} (k : nat) (l : list A) :
  (k < List.length l)%nat ->
  List.length (Spec.without k l) = (List.length l - 1)%nat.
Proof.
  intros Hk. unfold Spec.without.
  rewrite length_app, length_firstn, length_skipn. lia.
Qed.

(** Putting back at position [k] the entry taken out at [k]. *)
Lemma insert_without {A : Type} (k : nat) (l : list A) (x : A) :
  nth_error l k = Some x ->
  firstn k (Spec.without k l) ++ x :: skipn k (Spec.without k l) = l.
Proof.
  intros Hx.
  assert (Hk : (k < List.length l)%nat) by (apply nth_error_Some; congruence).
  assert (Hl : List.length (firstn k l) = k) by (rewrite length_firstn; lia).
  unfold Spec.without.
  rewrite <- Hl at 1. rewrite firstn_app_exact.
  rewrite <- Hl at 2. rewrite skipn_app_exact.
  symmetry. apply nth_error_cut. exact Hx.
Qed.

End DraggingBack.

(** X19. Dragging a queued entry over another one and back over its own
    place restores the queue. With an entry picked up at position [d]
    and hovered over position [index] (both inside the queue and
    different), the entry moves to [index] and [index] is recorded as the
    dragged position; hovering there again changes nothing; and hovering
    over [d] next gives back the queue as it was, with [d] recorded
    again. *)
Theorem drag_there_and_back_restores
    (c : MergePDF.State) (w : Browser.World) (d index : Z) :
  MergePDF.draggedIndex c = Some d -> d <> index ->
  0 <= d < Z.of_nat (List.length (MergePDF.files c)) ->
  0 <= index < Z.of_nat (List.length (MergePDF.files c)) ->
  let st1 := Eff.exec (MergePDF.onDragOverItem index) (Browser.mkSt c w) in
  let st2 := Eff.exec (MergePDF.onDragOverItem d) st1 in
  JS.item (MergePDF.files (Browser.ui st1)) index = JS.item (MergePDF.files c) d /\
  MergePDF.draggedIndex (Browser.ui st1) = Some index /\
  MergePDF.onDragOverItem index st1 = (Eff.Returned tt, st1) /\
  MergePDF.files (Browser.ui st2) = MergePDF.files c /\
  MergePDF.draggedIndex (Browser.ui st2) = Some d.
Proof.
  intros Hd Hne Hdr Hir st1 st2.
  destruct (dragOver_moves c w d index Hd Hne Hdr Hir) as [x [Hx Hrun]].
  destruct (item_Some _ _ _ Hx) as [_ Hnx].
  set (m := Spec.without (Z.to_nat d) (MergePDF.files c)) in *.
  assert (Hm : List.length m = (List.length (MergePDF.files c) - 1)%nat)
    by (apply without_length; lia).
  destruct (without_insert (Z.to_nat index) m x ltac:(lia)) as [Hw Hn].
  set (fs1 := firstn (Z.to_nat index) m ++ x :: skipn (Z.to_nat index) m) in *.
  assert (Hlen1 : List.length fs1 = List.length (MergePDF.files c)).
  { unfold fs1. rewrite length_app, length_firstn. cbn [List.length].
    rewrite length_skipn. lia. }
  assert (E1 : st1 = Browser.mkSt
            {| MergePDF.files := fs1;
               MergePDF.isMerging := MergePDF.isMerging c;
               MergePDF.mergeProgress := MergePDF.mergeProgress c;
               MergePDF.isDraggingOver := MergePDF.isDraggingOver c;
               MergePDF.draggedIndex := Some index;
               MergePDF.errorMessage := MergePDF.errorMessage c;
               MergePDF.showOptions := MergePDF.showOptions c;
               MergePDF.options := MergePDF.options c |} w).
  { subst st1. unfold Eff.exec. rewrite Hrun. reflexivity. }
  assert (Hitem1 : JS.item fs1 index = Some x).
  { unfold JS.item. destruct (index <? 0) eqn:E; [apply Z.ltb_lt in E; lia|].
    exact Hn. }
  split; [rewrite E1; cbn [Browser.ui MergePDF.files]; now rewrite Hitem1, Hx|].
  split; [rewrite E1; reflexivity|].
  split.
  { rewrite E1. unfold MergePDF.onDragOverItem, Eff.bind, Eff.gets.
    cbn [Browser.ui MergePDF.draggedIndex]. rewrite Z.eqb_refl. reflexivity. }
  subst st2. rewrite E1.
  match goal with
  | |- context [Browser.mkSt ?c1 w] =>
      destruct (dragOver_moves c1 w index d eq_refl
                  ltac:(intros E; apply Hne; now symmetry)
                  ltac:(cbn [MergePDF.files]; lia)
                  ltac:(cbn [MergePDF.files]; lia)) as [x' [Hx' Hrun2]]
  end.
  cbn [MergePDF.files] in Hx', Hrun2. rewrite Hitem1 in Hx'.
  inversion Hx'; subst x'. unfold Eff.exec. rewrite Hrun2.
  cbn [snd Browser.ui MergePDF.files MergePDF.draggedIndex].
  rewrite Hw. split; [|reflexivity].
  apply insert_without. exact Hnx.
Qed.

Lemma drag_there_and_back_restores_witness :
  let q := [Sample.queued "a" Sample.report; Sample.queued "b" Sample.notes;
            Sample.queued "c" Sample.appendix] in
  let c := Browser.ui (Eff.exec (MergePDF.onDragStartItem 0) (Sample.merge0 false q)) in
  MergePDF.draggedIndex c = Some 0 /\
  MergePDF.files
    (Browser.ui (Eff.exec (MergePDF.onDragOverItem 0)
                   (Eff.exec (MergePDF.onDragOverItem 2)
                      (Browser.mkSt c Sample.world0))))
  = MergePDF.files c.
Proof.
  cbv zeta.
  set (c := Browser.ui (Eff.exec (MergePDF.onDragStartItem 0)
              (Sample.merge0 false
                 [Sample.queued "a" Sample.report; Sample.queued "b" Sample.notes;
                  Sample.queued "c" Sample.appendix]))).
  assert (H1 : MergePDF.draggedIndex c = Some 0) by reflexivity.
  assert (H2 : 0 <> 2) by discriminate.
  assert (H3 : 0 <= 0 < Z.of_nat (List.length (MergePDF.files c)))
    by (vm_compute; split; [discriminate|reflexivity]).
  assert (H4 : 0 <= 2 < Z.of_nat (List.length (MergePDF.files c)))
    by (vm_compute; split; [discriminate|reflexivity]).
  split; [exact H1|].
  exact (proj1 (proj2 (proj2 (proj2
    (drag_there_and_back_restores c Sample.world0 0 2 H1 H2 H3 H4))))).
Defined.

(** ** Merging: refusals *)

Section MergeStops.
Import JS Eff Browser Spec.
Variable fl : Q -> Q.
Variable L : Libs.

(** The first loop of [handleMerge] stops at the first file the codec
    cannot open: the files before it have been opened and reported, the
    files after it are never touched. *)
Lemma mergeLoop_stops (bad : MergePDF.FileItem) (post : list MergePDF.FileItem)
    (pre : list MergePDF.FileItem) (docs : list Document) :
  allLoad L pre docs ->
  loadDocument L (MergePDF.file bad) = None ->
  forall (i len : Z) (merged : Document) (st : St MergePDF.State),
  exists st',
    MergePDF.mergeLoop fl L (pre ++ bad :: post) i len merged st = (Thrown, st') /\
    mergeFrame st st' /\
    MergePDF.isMerging (ui st') = MergePDF.isMerging (ui st) /\
    decoded (log (world st')) =
    decoded (log (world st)) ++ map MergePDF.file pre ++ [MergePDF.file bad] /\
    progressValues (log (world st')) =
    progressValues (log (world st)) ++ shares fl (List.length pre) i len 50.
Proof.
  intros Hall Hbad. induction Hall as [|item doc pre docs Hitem Hall IH];
    intros i len merged st.
  - cbn [app MergePDF.mergeLoop]. unfold bind at 1. cbn [emit modify].
    unfold bind at 1. rewrite Hbad. cbn [orThrow throw].
    eexists. split; [reflexivity|]. cbn.
    rewrite decoded_app, progressValues_app. cbn.
    split; [|split; [reflexivity|split; reflexivity]].
    unfold mergeFrame. cbn. rewrite downloads_app, saved_app. cbn.
    rewrite !app_nil_r. repeat split.
  - cbn [app MergePDF.mergeLoop]. unfold bind at 1. cbn [emit modify].
    unfold bind at 1. rewrite Hitem. cbn [orThrow ret].
    unfold bind at 1. rewrite copyPages_all. cbn [orThrow ret].
    unfold bind at 1. cbn -[MergePDF.mergeLoop Math_round].
    match goal with
    | |- context [MergePDF.mergeLoop fl L _ ?i' len ?m' ?s'] =>
        destruct (IH i' len m' s')
          as [st' [Hrun [[F1 [F2 [F3 [F4 [F5 [F6 F7]]]]]] [Hm [Hd Hp]]]]]
    end.
    exists st'. split; [exact Hrun|].
    cbn -[Math_round] in F1, F2, F3, F4, F5, F6, F7, Hm, Hd, Hp.
    rewrite !downloads_app in F6. rewrite !saved_app in F7.
    rewrite !decoded_app in Hd. rewrite !progressValues_app in Hp.
    cbn -[Math_round] in F6, F7, Hd, Hp.
    rewrite ?app_nil_r in F6. rewrite ?app_nil_r in F7.
    rewrite ?app_nil_r in Hd. rewrite ?app_nil_r in Hp.
    split; [repeat split; assumption|]. split; [exact Hm|]. split.
    + rewrite Hd, <- !app_assoc. reflexivity.
    + rewrite Hp, <- !app_assoc. reflexivity.
Qed.

End MergeStops.

(** X20. A merge needs two files. With fewer than two entries queued,
    [handleMerge] only raises the alert asking for two: the component
    state is as it was, no file is handed to the codec, and nothing is
    saved, downloaded or reported as progress. *)
Theorem merge_needs_two_files
    (fl : Q -> Q) (L : Browser.Libs) (st : Browser.St MergePDF.State) :
  (List.length (MergePDF.files (Browser.ui st)) < 2)%nat ->
  let st' := Eff.exec (MergePDF.handleMerge fl L) st in
  Browser.ui st' = Browser.ui st /\
  Browser.log (Browser.world st')
  = Browser.log (Browser.world st)
    ++ [Browser.Alert "Please add at least two PDF files to merge."] /\
  Browser.liveURLs (Browser.world st') = Browser.liveURLs (Browser.world st) /\
  Browser.nextURL (Browser.world st') = Browser.nextURL (Browser.world st).
Proof.
  intros Hlen. destruct st as [c w]. cbn [Browser.ui] in Hlen.
  unfold MergePDF.handleMerge, Eff.exec, Eff.bind, Eff.gets. cbn [Browser.ui].
  replace (Z.of_nat (List.length (MergePDF.files c)) <? 2) with true
    by (symmetry; apply Z.ltb_lt; lia).
  cbn. repeat split.
Qed.

Lemma merge_needs_two_files_witness :
  let st := Sample.merge0 false [Sample.queued "a" Sample.report] in
  Browser.log (Browser.world
    (Eff.exec (MergePDF.handleMerge Sample.exact Sample.libs) st))
  = [Browser.Alert "Please add at least two PDF files to merge."].
Proof.
  cbv zeta.
  refine (proj1 (proj2 (merge_needs_two_files Sample.exact Sample.libs
                          (Sample.merge0 false [Sample.queued "a" Sample.report])
                          _))).
  cbn. lia.
Defined.

(** X21. A merge fails closed at the first file the codec cannot open.
    With at least two files queued, the files before the bad one are
    opened in queue order and then the bad one, and no file after it is
    touched. Nothing is saved or downloaded and no object URL is made;
    the failure alert is the last thing the user is given, the busy flag
    is lowered, and the queue and the options are as they were. The
    progress readout has had 0 and one value per opened file, and is not
    reset. *)
Theorem merge_fails_closed
    (fl : Q -> Q) (L : Browser.Libs) (st : Browser.St MergePDF.State)
    (pre post : list MergePDF.FileItem) (bad : MergePDF.FileItem)
    (docs : list Browser.Document) :
  MergePDF.files (Browser.ui st) = pre ++ bad :: post ->
  (2 <= List.length (pre ++ bad :: post))%nat ->
  Spec.allLoad L pre docs ->
  Browser.loadDocument L (MergePDF.file bad) = None ->
  let st' := Eff.exec (MergePDF.handleMerge fl L) st in
  let len := Z.of_nat (List.length (pre ++ bad :: post)) in
  Spec.decoded (Browser.log (Browser.world st'))
  = Spec.decoded (Browser.log (Browser.world st))
    ++ map MergePDF.file pre ++ [MergePDF.file bad] /\
  Spec.saved (Browser.log (Browser.world st'))
  = Spec.saved (Browser.log (Browser.world st)) /\
  Spec.downloads (Browser.log (Browser.world st'))
  = Spec.downloads (Browser.log (Browser.world st)) /\
  Browser.liveURLs (Browser.world st') = Browser.liveURLs (Browser.world st) /\
  Spec.progressValues (Browser.log (Browser.world st'))
  = Spec.progressValues (Browser.log (Browser.world st))
    ++ 0 :: Spec.shares fl (List.length pre) 0 len 50 /\
  last (Browser.log (Browser.world st')) (Browser.Progress 0)
  = Browser.Alert "Failed to merge PDFs. Please ensure files are not password protected." /\
  MergePDF.isMerging (Browser.ui st') = false /\
  MergePDF.files (Browser.ui st') = MergePDF.files (Browser.ui st) /\
  MergePDF.options (Browser.ui st') = MergePDF.options (Browser.ui st).
Proof.
  intros Hfs Hlen Hall Hbad st' len. subst st'.
  destruct st as [c w]. cbn [Browser.ui Browser.world] in *.
  unfold MergePDF.handleMerge, Eff.exec.
  cbn -[MergePDF.mergeLoop MergePDF.numberLoop Z.add].
  rewrite Hfs. fold len.
  destruct (len <? 2) eqn:E2; [apply Z.ltb_lt in E2; subst len; lia|].
  cbn -[MergePDF.mergeLoop MergePDF.numberLoop Z.add].
  unfold Eff.tryCatch, Eff.bind. cbn beta.
  match goal with
  | |- context [MergePDF.mergeLoop fl L _ ?b ?d ?e ?s] =>
      destruct (mergeLoop_stops fl L bad post pre docs Hall Hbad b d e s)
        as [st2 [Hrun [[F1 [F2 [F3 [F4 [F5 [F6 F7]]]]]] [Hm [Hd Hp]]]]]
  end.
  rewrite Hrun.
  cbn -[Z.add] in F1, F2, F3, F4, F5, F6, F7, Hm, Hd, Hp.
  rewrite !downloads_app in F6. rewrite !saved_app in F7.
  rewrite !decoded_app in Hd. rewrite !progressValues_app in Hp.
  cbn -[Z.add] in F6, F7, Hd, Hp.
  rewrite ?app_nil_r in F6. rewrite ?app_nil_r in F7.
  rewrite ?app_nil_r in Hd.
  cbn -[Z.add].
  rewrite !decoded_app, !saved_app, !downloads_app, !progressValues_app.
  cbn -[Z.add]. rewrite ?app_nil_r.
  rewrite Hd, F7, F6, F3, Hp, F1, F2, <- ?app_assoc.
  split; [reflexivity|]. split; [reflexivity|]. split; [reflexivity|].
  split; [reflexivity|]. split; [reflexivity|].
  split; [apply last_last|]. split; [reflexivity|]. split; [exact Hfs|reflexivity].
Qed.

Lemma merge_fails_closed_witness :
  let st := Sample.merge0 true
              [Sample.queued "a" Sample.notes; Sample.queued "b" Sample.corrupt;
               Sample.queued "c" Sample.appendix] in
  Browser.loadDocument Sample.libs Sample.corrupt = None /\
  Spec.decoded (Browser.log (Browser.world
    (Eff.exec (MergePDF.handleMerge Sample.exact Sample.libs) st)))
  = [Sample.notes; Sample.corrupt].
Proof.
  cbv zeta.
  assert (H1 : Spec.allLoad Sample.libs [Sample.queued "a" Sample.notes]
                 [[Sample.page 20; Sample.page 21]]).
  { repeat constructor. }
  assert (H2 : Browser.loadDocument Sample.libs
                 (MergePDF.file (Sample.queued "b" Sample.corrupt)) = None)
    by reflexivity.
  split; [exact H2|].
  refine (proj1 (merge_fails_closed Sample.exact Sample.libs
                   (Sample.merge0 true
                      [Sample.queued "a" Sample.notes;
                       Sample.queued "b" Sample.corrupt;
                       Sample.queued "c" Sample.appendix])
                   [Sample.queued "a" Sample.notes]
                   [Sample.queued "c" Sample.appendix]
                   (Sample.queued "b" Sample.corrupt)
                   [[Sample.page 20; Sample.page 21]] eq_refl _ H1 H2)).
  cbn. lia.
Defined.

(** ** The colour of the page numbers *)

Section Colour.
Import JS Eff Browser.
Variable fl : Q -> Q.
Hypothesis Hfl : Rounding fl.

Lemma digitValue_nonneg (c : ascii) (v : Z) : digitValue c = Some v -> 0 <= v.
Proof.
  unfold digitValue. cbv zeta.
  set (n := Z.of_nat (nat_of_ascii c)).
  destruct ((48 <=? n) && (n <=? 57)) eqn:E1.
  { apply andb_true_iff in E1. destruct E1 as [E1 _]. apply Z.leb_le in E1.
    intros H. inversion H. lia. }
  destruct ((97 <=? n) && (n <=? 122)) eqn:E2.
  { apply andb_true_iff in E2. destruct E2 as [E2 _]. apply Z.leb_le in E2.
    intros H. inversion H. lia. }
  destruct ((65 <=? n) && (n <=? 90)) eqn:E3; [|discriminate].
  apply andb_true_iff in E3. destruct E3 as [E3 _]. apply Z.leb_le in E3.
  intros H. inversion H. lia.
Qed.

Lemma hexPair_range (a b : ascii) (v : Z) :
  MergePDF.hexPair a b = Some v -> 0 <= v <= 255.
Proof.
  unfold MergePDF.hexPair.
  destruct (digitValue a) as [h|] eqn:Ea; [|discriminate].
  destruct (digitValue b) as [l|] eqn:Eb; [|discriminate].
  destruct ((h <? 16) && (l <? 16)) eqn:E; [|discriminate].
  intros H. injection H as <-.
  apply andb_true_iff in E. destruct E as [E1 E2].
  apply Z.ltb_lt in E1. apply Z.ltb_lt in E2.
  apply digitValue_nonneg in Ea. apply digitValue_nonneg in Eb.
  change (0 <= 16 * h + l <= 255). lia.
Qed.

(** A colour channel: a byte divided by 255 and rounded lies in [0, 1]. *)
Lemma channel_range (v : Z) :
  0 <= v <= 255 -> (0 <= fdiv fl (inject_Z v) 255 <= 1)%Q.
Proof.
  intros Hv. unfold fdiv.
  assert (H0 : (fl (inject_Z 0) == inject_Z 0)%Q)
    by (apply (fl_int fl Hfl); cbn; lia).
  assert (H1 : (fl (inject_Z 1) == inject_Z 1)%Q)
    by (apply (fl_int fl Hfl); cbn; lia).
  assert (Hlo : (inject_Z 0 <= inject_Z v / 255)%Q).
  { apply Qle_shift_div_l; [reflexivity|].
    rewrite Qmult_0_l. change 0%Q with (inject_Z 0). rewrite <- Zle_Qle. lia. }
  assert (Hhi : (inject_Z v / 255 <= inject_Z 1)%Q).
  { apply Qle_shift_div_r; [reflexivity|].
    change (inject_Z 1 * 255)%Q with (inject_Z 255). rewrite <- Zle_Qle. lia. }
  split.
  - change 0%Q with (inject_Z 0). rewrite <- H0. apply (fl_mono fl Hfl), Hlo.
  - change 1%Q with (inject_Z 1). rewrite <- H1. apply (fl_mono fl Hfl), Hhi.
Qed.

End Colour.

(** X22. Whatever string the colour option holds, [hexToRgb] gives three
    channels between 0 and 1: a byte over 255 for six hexadecimal
    digits with or without a leading "#", and black for anything else;
    in particular a string shorter than six characters or longer than
    seven, such as the three-digit shorthand, gives black. *)
Theorem hexToRgb_channels_in_unit_range
    (fl : Q -> Q) (Hfl : JS.Rounding fl) (hex : string) :
  let c := MergePDF.hexToRgb fl hex in
  (0 <= fst (fst c) <= 1)%Q /\ (0 <= snd (fst c) <= 1)%Q /\
  (0 <= snd c <= 1)%Q /\
  ((String.length hex < 6)%nat \/ (7 < String.length hex)%nat ->
   c = (0, 0, 0)%Q).
Proof.
  cbv zeta. unfold MergePDF.hexToRgb.
  set (body := match hex with
               | String "#"%char r => r
               | _ => hex
               end).
  assert (Hb : body = hex \/ hex = String "#"%char body).
  { subst body. destruct hex as [|c r]; [now left|].
    destruct c as [[] [] [] [] [] [] [] []]; try (left; reflexivity).
    right. reflexivity. }
  assert (Hlen : (String.length hex < 6)%nat \/ (7 < String.length hex)%nat ->
                 String.length body <> 6%nat).
  { clearbody body. intros H.
    destruct Hb as [E|E];
      [rewrite E; lia|rewrite E in H; cbn [String.length] in H; lia]. }
  clearbody body. clear Hb.
  assert (Hz : (0 <= 0 <= 1)%Q) by (split; discriminate).
  destruct body as [|a [|b [|c [|d [|e [|f [|g rest]]]]]]];
    try (cbn [fst snd]; repeat split; apply Hz).
  destruct (MergePDF.hexPair a b) as [r|] eqn:Er;
    [|cbn [fst snd]; split; [apply Hz|split; [apply Hz|split; [apply Hz|]]];
      intros H; exfalso; now apply (Hlen H)].
  destruct (MergePDF.hexPair c d) as [g|] eqn:Eg;
    [|cbn [fst snd]; split; [apply Hz|split; [apply Hz|split; [apply Hz|]]];
      intros H; exfalso; now apply (Hlen H)].
  destruct (MergePDF.hexPair e f) as [bl|] eqn:Ebl;
    [|cbn [fst snd]; split; [apply Hz|split; [apply Hz|split; [apply Hz|]]];
      intros H; exfalso; now apply (Hlen H)].
  cbn [fst snd].
  split; [apply (channel_range fl Hfl), (hexPair_range _ _ _ Er)|].
  split; [apply (channel_range fl Hfl), (hexPair_range _ _ _ Eg)|].
  split; [apply (channel_range fl Hfl), (hexPair_range _ _ _ Ebl)|].
  intros H. exfalso. now apply (Hlen H).
Qed.

Lemma hexToRgb_channels_in_unit_range_witness :
  MergePDF.hexToRgb Sample.exact "#fff" = (0, 0, 0)%Q /\
  (0 <= snd (MergePDF.hexToRgb Sample.exact "#6366f1") <= 1)%Q.
Proof.
  split.
  - apply (hexToRgb_channels_in_unit_range Sample.exact exact_rounding "#fff").
    left. cbn. lia.
  - apply (hexToRgb_channels_in_unit_range Sample.exact exact_rounding "#6366f1").
Defined.

(** ** JPGToPDF: previews *)

Section PreviewFacts.
Import JS Eff Browser Spec.
Variable randomId : nat -> string.

(** Building the entries for the files chosen: one object URL is made per
    file, in order. *)
Lemma newImagesFrom_run (fs : list File) :
  forall (k : nat) (s : JPGToPDF.St),
  exists items,
    JPGToPDF.newImagesFrom randomId k fs s =
    (Returned items,
     JPGToPDF.mkSt (JPGToPDF.ui s)
       (JPGToPDF.fileURLs s ++ map previewOf items)
       (JPGToPDF.nextURL s + List.length fs)) /\
    map JPGToPDF.file items = fs /\
    map JPGToPDF.preview items = seq (JPGToPDF.nextURL s) (List.length fs) /\
    map JPGToPDF.id items = map randomId (seq k (List.length fs)).
Proof.
  induction fs as [|f fs IH]; intros k s.
  - exists []. cbn. rewrite app_nil_r, Nat.add_0_r. destruct s. repeat split.
  - cbn [JPGToPDF.newImagesFrom].
    unfold bind at 1. unfold JPGToPDF.createObjectURL, bind, gets, modify, ret.
    cbn [fst snd].
    destruct (IH (S k)
                (JPGToPDF.mkSt (JPGToPDF.ui s)
                   (JPGToPDF.fileURLs s ++ [(JPGToPDF.nextURL s, f)])
                   (S (JPGToPDF.nextURL s))))
      as [items [Hrun [H1 [H2 H3]]]].
    cbn [JPGToPDF.ui JPGToPDF.fileURLs JPGToPDF.nextURL] in Hrun, H2.
    rewrite Hrun.
    exists ({| JPGToPDF.id := randomId k; JPGToPDF.file := f;
               JPGToPDF.preview := JPGToPDF.nextURL s |} :: items).
    cbn [map List.length seq previewOf JPGToPDF.preview JPGToPDF.file JPGToPDF.id].
    rewrite H1, H2, H3, <- app_assoc. cbn [app].
    fold (previewOf {| JPGToPDF.id := randomId k; JPGToPDF.file := f;
                       JPGToPDF.preview := JPGToPDF.nextURL s |}).
    replace (S (JPGToPDF.nextURL s) + List.length fs)%nat
      with (JPGToPDF.nextURL s + S (List.length fs))%nat by lia.
    repeat split.
Qed.

Lemma map_fst_previewOf (items : list JPGToPDF.ImageItem) :
  map fst (map previewOf items) = map JPGToPDF.preview items.
Proof. rewrite map_map. reflexivity. Qed.

(** Taking out of the live URLs the one with number [u], which is there
    once. *)
Lemma filter_revoke (l1 l2 : list JPGToPDF.ImageItem) (x : JPGToPDF.ImageItem) :
  NoDup (map fst (map previewOf (l1 ++ x :: l2))) ->
  filter (fun e => negb (Nat.eqb (fst e) (JPGToPDF.preview x)))
    (map previewOf (l1 ++ x :: l2))
  = map previewOf (l1 ++ l2).
Proof.
  intros Hnd. rewrite !map_app. cbn [map]. rewrite map_app in Hnd.
  cbn [map] in Hnd. rewrite map_app in Hnd. cbn [map] in Hnd.
  apply NoDup_remove in Hnd. destruct Hnd as [_ Hnot].
  apply filter_unique.
  - cbn. now rewrite Nat.eqb_refl.
  - intros y Hy. apply negb_true_iff, Nat.eqb_neq. intros E.
    apply Hnot. rewrite <- map_app.
    change (fst (previewOf x)) with (JPGToPDF.preview x). rewrite <- E.
    now apply in_map.
Qed.

End PreviewFacts.

(** X23. JPGToPDF keeps its previews tracked. When the object URLs alive
    are exactly the previews of the queued images, choosing files queues
    every one of them (there is no filter on type or size), in order
    after the images already queued, makes one object URL for each, and
    the URLs alive are again exactly the previews of the queue. Removing
    an image by its id, when the ids of the queue differ from one
    another, takes that image out of the queue, revokes its preview and
    no other, and leaves the previews tracked: no preview URL outlives
    its image. *)
Theorem previews_stay_tracked (randomId : nat -> string) :
  (forall (s : JPGToPDF.St) (fs : list Browser.File),
      Spec.previewsTracked s ->
      let s' := Eff.exec (JPGToPDF.handleFileChange randomId (Some fs)) s in
      Spec.previewsTracked s' /\
      map JPGToPDF.file (JPGToPDF.images (JPGToPDF.ui s'))
      = map JPGToPDF.file (JPGToPDF.images (JPGToPDF.ui s)) ++ fs /\
      List.length (JPGToPDF.fileURLs s')
      = (List.length (JPGToPDF.fileURLs s) + List.length fs)%nat) /\
  (forall (s : JPGToPDF.St) (id0 : string),
      Spec.previewsTracked s ->
      NoDup (map JPGToPDF.id (JPGToPDF.images (JPGToPDF.ui s))) ->
      let s' := Eff.exec (JPGToPDF.removeImage id0) s in
      Spec.previewsTracked s' /\
      JPGToPDF.images (JPGToPDF.ui s')
      = filter (fun img => negb (String.eqb (JPGToPDF.id img) id0))
          (JPGToPDF.images (JPGToPDF.ui s)) /\
      (forall img, In img (JPGToPDF.images (JPGToPDF.ui s)) ->
                   JPGToPDF.id img = id0 ->
                   ~ In (JPGToPDF.preview img) (map fst (JPGToPDF.fileURLs s')))).
Proof.
  split.
  - intros s fs [T1 [T2 T3]] s'. subst s'.
    unfold JPGToPDF.handleFileChange, Eff.exec.
    unfold Eff.bind.
    destruct (newImagesFrom_run randomId fs 0 s) as [items [Hrun [H1 [H2 H3]]]].
    rewrite Hrun. cbn.
    split; [|split].
    + unfold Spec.previewsTracked. cbn.
      rewrite map_app, T1. split; [reflexivity|]. split.
      * rewrite map_app, map_fst_previewOf, H2.
        apply NoDup_app; [exact T2|apply seq_NoDup|].
        intros u Hu Hs. apply in_seq in Hs. apply in_map_iff in Hu.
        destruct Hu as [e [<- He]]. specialize (T3 e He). lia.
      * intros e He. apply in_app_or in He. destruct He as [He|He].
        -- specialize (T3 e He). lia.
        -- apply (in_map fst) in He. rewrite map_fst_previewOf, H2 in He.
           apply in_seq in He. lia.
    + now rewrite map_app, H1.
    + rewrite length_app, length_map.
      rewrite <- (length_map JPGToPDF.file items), H1. reflexivity.
  - intros s id0 [T1 [T2 T3]] Hids s'. subst s'.
    destruct s as [c urls next]. cbn [JPGToPDF.ui JPGToPDF.fileURLs
                                       JPGToPDF.nextURL] in *.
    unfold JPGToPDF.removeImage, Eff.exec, Eff.bind, Eff.gets.
    cbn [JPGToPDF.ui fst snd].
    destruct (find (fun img => String.eqb (JPGToPDF.id img) id0)
                (JPGToPDF.images c)) as [x|] eqn:Ef.
    + destruct (find_some _ _ Ef) as [Hin Hx]. apply String.eqb_eq in Hx.
      destruct (in_split _ _ Hin) as [l1 [l2 Hsplit]].
      assert (Hothers : forall y, In y (l1 ++ l2) -> JPGToPDF.id y <> id0).
      { rewrite Hsplit, map_app in Hids. cbn [map] in Hids.
        apply NoDup_remove in Hids. destruct Hids as [_ Hnot].
        intros y Hy E. apply Hnot. rewrite <- map_app, Hx, <- E.
        now apply in_map. }
      assert (Hfilt : filter (fun img => negb (String.eqb (JPGToPDF.id img) id0))
                        (JPGToPDF.images c) = l1 ++ l2).
      { rewrite Hsplit. apply filter_unique.
        - rewrite Hx, String.eqb_refl. reflexivity.
        - intros y Hy. apply negb_true_iff, String.eqb_neq. now apply Hothers. }
      assert (Hurls : filter (fun e => negb (Nat.eqb (fst e) (JPGToPDF.preview x)))
                        urls = map Spec.previewOf (l1 ++ l2)).
      { rewrite <- T1, Hsplit. apply filter_revoke.
        rewrite <- Hsplit, T1. exact T2. }
      cbn. rewrite Hfilt, Hurls.
      split; [|split].
      * unfold Spec.previewsTracked. cbn. split; [reflexivity|]. split.
        -- rewrite <- Hurls. clear -T2.
           induction urls as [|e urls IH]; [constructor|].
           cbn in T2 |- *. inversion T2; subst.
           destruct (negb _); [|now apply IH].
           cbn. constructor; [|now apply IH].
           intros Hc. apply H1. apply in_map_iff in Hc.
           destruct Hc as [e' [E He']]. apply filter_In in He'.
           rewrite <- E. apply in_map. tauto.
        -- intros e He. apply T3. rewrite <- T1, Hsplit.
           rewrite map_app in He |- *. cbn [map].
           apply in_app_or in He. apply in_or_app.
           destruct He as [He|He]; [now left|right; now right].
      * reflexivity.
      * intros img Himg Hid Hc.
        assert (img = x).
        { rewrite Hsplit in Himg. apply in_app_or in Himg.
          destruct Himg as [Hi|[Hi|Hi]]; [|now symmetry|].
          - exfalso. apply (Hothers img); [apply in_or_app; now left|exact Hid].
          - exfalso. apply (Hothers img); [apply in_or_app; now right|exact Hid]. }
        subst img. rewrite <- Hurls in Hc. apply in_map_iff in Hc.
        destruct Hc as [e [E He]]. apply filter_In in He.
        destruct He as [_ He]. rewrite E, Nat.eqb_refl in He. discriminate.
    + assert (Hfilt : filter (fun img => negb (String.eqb (JPGToPDF.id img) id0))
                        (JPGToPDF.images c) = JPGToPDF.images c).
      { apply filter_all. intros y Hy.
        apply (find_none _ _ Ef) in Hy. now rewrite Hy. }
      cbn. rewrite Hfilt.
      split; [|split].
      * unfold Spec.previewsTracked. cbn. repeat split; assumption.
      * reflexivity.
      * intros img Himg Hid. apply (find_none _ _ Ef) in Himg.
        rewrite Hid, String.eqb_refl in Himg. discriminate.
Qed.

Lemma previews_stay_tracked_witness :
  let ids := fun k : nat => JS.toString (Z.of_nat k) in
  let s1 := Eff.exec (JPGToPDF.handleFileChange ids
                        (Some [Sample.photo; Sample.scan])) Sample.jpg0 in
  Spec.previewsTracked Sample.jpg0 /\
  Spec.previewsTracked s1 /\
  NoDup (map JPGToPDF.id (JPGToPDF.images (JPGToPDF.ui s1))) /\
  Spec.previewsTracked (Eff.exec (JPGToPDF.removeImage "0") s1).
Proof.
  cbv zeta.
  set (ids := fun k : nat => JS.toString (Z.of_nat k)).
  assert (H0 : Spec.previewsTracked Sample.jpg0).
  { split; [reflexivity|]. split; [constructor|intros e []]. }
  pose proof (proj1 (proj1 (previews_stay_tracked ids) Sample.jpg0
                       [Sample.photo; Sample.scan] H0)) as H1.
  assert (Hids : NoDup (map JPGToPDF.id (JPGToPDF.images (JPGToPDF.ui
            (Eff.exec (JPGToPDF.handleFileChange ids
                         (Some [Sample.photo; Sample.scan])) Sample.jpg0))))).
  { vm_compute. repeat constructor; simpl; intuition discriminate. }
  split; [exact H0|]. split; [exact H1|]. split; [exact Hids|].
  exact (proj1 (proj2 (previews_stay_tracked ids) _ "0"%string H1 Hids)).
Defined.

(** ** Selecting everything, and progress while loading *)

Section WholeDocument.
Import JS Eff Browser Spec.

Lemma zrange_seq (n : nat) :
  forall a : nat, zrange (Z.of_nat a) n = map Z.of_nat (seq a n).
Proof.
  induction n as [|n IH]; intros a; [reflexivity|].
  cbn [zrange seq map]. f_equal.
  replace (Z.of_nat a + 1) with (Z.of_nat (S a)) by lia. apply IH.
Qed.

Lemma copyPages_zrange_all (doc : Document) :
  copyPages doc (zrange 0 (List.length doc)) = Some doc.
Proof.
  change 0 with (Z.of_nat 0). rewrite zrange_seq. apply copyPages_all.
Qed.

(** After Select All the extract resolves to every page index in order,
    whether it reads the text or the set. *)
Lemma resolveIndices_all (c : SplitPDF.State) (info : SplitPDF.PDFMetadata) :
  SplitPDF.selectedPages c = zrange 0 (Z.to_nat (SplitPDF.pageCount info)) ->
  SplitPDF.rangeText c = SplitPDF.updateRangeFromSet (SplitPDF.selectedPages c) ->
  SplitPDF.resolveIndices c info = zrange 0 (Z.to_nat (SplitPDF.pageCount info)).
Proof.
  intros Hsel Htext. unfold SplitPDF.resolveIndices.
  destruct (SplitPDF.rangeText c) eqn:E; [exact Hsel|].
  rewrite Htext, Hsel, parse_update.
  - apply sort_id, zrange_sorted.
  - apply zrange_NoDup.
  - intros i Hi. apply zrange_In in Hi. lia.
Qed.

End WholeDocument.

(** X24. Select All followed by an extract gives back the whole document.
    With a loaded document whose page count is the number of pages of
    the file (at least one) and the mode on "range", [selectAll] and then
    [handleSplit] download, as "Extracted_" + name, the pages of the file
    in their order, all of them. *)
Theorem selectAll_then_extract_gives_whole_document
    (fl : Q -> Q) (L : Browser.Libs) (st : Browser.St SplitPDF.State)
    (info : SplitPDF.PDFMetadata) (doc : Browser.Document) :
  SplitPDF.pdfInfo (Browser.ui st) = Some info ->
  SplitPDF.splitMode (Browser.ui st) = SplitPDF.range ->
  Browser.loadDocument L (SplitPDF.file info) = Some doc ->
  SplitPDF.pageCount info = Z.of_nat (List.length doc) ->
  doc <> [] ->
  let st1 := Eff.exec SplitPDF.selectAll st in
  let st2 := Eff.exec (SplitPDF.handleSplit fl L) st1 in
  Spec.downloads (Browser.log (Browser.world st2))
  = Spec.downloads (Browser.log (Browser.world st))
    ++ [(Browser.PdfBlob doc, ("Extracted_" ++ SplitPDF.name info)%string)] /\
  Spec.saved (Browser.log (Browser.world st2))
  = Spec.saved (Browser.log (Browser.world st)) ++ [doc].
Proof.
  intros Hinfo Hmode Hload Hcount Hne st1 st2.
  assert (H1 : SplitPDF.pdfInfo (Browser.ui st1) = Some info /\
               SplitPDF.splitMode (Browser.ui st1) = SplitPDF.range /\
               Browser.world st1 = Browser.world st /\
               SplitPDF.selectedPages (Browser.ui st1)
               = Spec.zrange 0 (Z.to_nat (SplitPDF.pageCount info)) /\
               SplitPDF.rangeText (Browser.ui st1)
               = SplitPDF.updateRangeFromSet
                   (SplitPDF.selectedPages (Browser.ui st1))).
  { subst st1. destruct st as [c w]. cbn [Browser.ui] in Hinfo, Hmode.
    unfold SplitPDF.selectAll, Eff.exec, Eff.bind, Eff.gets. cbn [fst snd].
    cbn [Browser.ui]. rewrite Hinfo. cbn. rewrite allPages_all.
    split; [exact Hinfo|]. split; [exact Hmode|]. repeat split. }
  destruct H1 as [Hinfo1 [Hmode1 [Hworld [Hsel Htext]]]].
  pose proof (resolveIndices_all _ info Hsel Htext) as Hres.
  rewrite Hcount, Nat2Z.id in Hres.
  assert (Hnz : Spec.zrange 0 (List.length doc) <> []).
  { destruct doc; [contradiction|discriminate]. }
  destruct (handleSplit_extract_run fl L st1 info doc _ doc
              Hinfo1 Hmode1 Hload Hres Hnz (copyPages_zrange_all doc))
    as [Hd [Hs _]].
  subst st2. rewrite Hd, Hs, Hworld. split; reflexivity.
Qed.

Lemma selectAll_then_extract_gives_whole_document_witness :
  SplitPDF.pdfInfo (Browser.ui Sample.splitLoaded) = Some Sample.reportInfo /\
  Spec.downloads (Browser.log (Browser.world
    (Eff.exec (SplitPDF.handleSplit Sample.exact Sample.libs)
       (Eff.exec SplitPDF.selectAll Sample.splitLoaded))))
  = Spec.downloads (Browser.log (Browser.world Sample.splitLoaded))
    ++ [(Browser.PdfBlob Sample.reportPages, "Extracted_report.pdf"%string)].
Proof.
  assert (H1 : SplitPDF.pdfInfo (Browser.ui Sample.splitLoaded)
               = Some Sample.reportInfo) by (vm_compute; reflexivity).
  assert (H2 : SplitPDF.splitMode (Browser.ui Sample.splitLoaded)
               = SplitPDF.range) by (vm_compute; reflexivity).
  assert (H3 : Browser.loadDocument Sample.libs (SplitPDF.file Sample.reportInfo)
               = Some Sample.reportPages) by (vm_compute; reflexivity).
  assert (H4 : SplitPDF.pageCount Sample.reportInfo
               = Z.of_nat (List.length Sample.reportPages)) by reflexivity.
  assert (H5 : Sample.reportPages <> []) by discriminate.
  split; [exact H1|].
  exact (proj1 (selectAll_then_extract_gives_whole_document Sample.exact
                  Sample.libs Sample.splitLoaded Sample.reportInfo
                  Sample.reportPages H1 H2 H3 H4 H5)).
Defined.

Section LoadProgress.
Import JS Eff Browser Spec.
Variable fl : Q -> Q.
Variable L : Libs.

Lemma shares_length (k : nat) :
  forall (i n : Z) (w : Q), List.length (shares fl k i n w) = k.
Proof.
  induction k as [|k IH]; intros i n w; [reflexivity|].
  cbn [shares List.length]. now rewrite IH.
Qed.

(** The values the readout is given while SplitPDF loads a document the
    reader opened: one per rendered page, then 0. *)
Lemma split_load_progress_run (st : St SplitPDF.State) (f : File) (n : Z) :
  type f = "application/pdf"%string ->
  Browser.size f <= SplitPDF.MAX_SIZE ->
  getDocument L f = Some n ->
  let st' := exec (SplitPDF.handleFileChange fl L (Some f)) st in
  exists k : nat,
    (k <= Z.to_nat (Z.min n 50))%nat /\
    progressValues (log (world st')) =
    progressValues (log (world st)) ++ shares fl k 0 (Z.min n 50) 100 ++ [0] /\
    (SplitPDF.error (ui st') = None -> k = Z.to_nat (Z.min n 50)).
Proof.
  intros Ht Hs Hload. destruct st as [c w].
  unfold SplitPDF.handleFileChange, exec. rewrite Ht.
  change (negb (String.eqb "application/pdf" "application/pdf")) with false.
  cbv iota.
  destruct (Browser.size f >? SplitPDF.MAX_SIZE) eqn:E.
  { rewrite Z.gtb_ltb in E. apply Z.ltb_lt in E. lia. }
  unfold tryFinally, tryCatch, bind.
  cbn -[SplitPDF.thumbLoop Z.min]. rewrite Hload.
  cbn -[SplitPDF.thumbLoop Z.min].
  match goal with
  | |- context [SplitPDF.thumbLoop fl L f ?a ?b ?d ?e ?s] =>
      destruct (SplitPDF.thumbLoop fl L f a b d e s) as [r st2] eqn:Erun
  end.
  apply split_thumbLoop_run in Erun.
  destruct Erun as [[_ [_ [H7 _]]] [ts [Hk [_ [Hp Hr]]]]].
  cbn -[Z.min] in H7, Hp. rewrite !progressValues_app in Hp.
  cbn -[Z.min] in Hp. rewrite ?app_nil_r in Hp.
  exists (List.length ts). split; [exact Hk|].
  destruct r as [th|].
  - destruct Hr as [Hn _]. cbn -[Z.min].
    rewrite !progressValues_app. cbn -[Z.min].
    rewrite ?app_nil_r, Hp, <- ?app_assoc.
    split; [reflexivity|]. intros _. exact Hn.
  - cbn -[Z.min].
    rewrite !progressValues_app. cbn -[Z.min].
    rewrite ?app_nil_r, Hp, <- ?app_assoc.
    split; [reflexivity|]. intros Hc. discriminate Hc.
Qed.

End LoadProgress.

(** X25. While SplitPDF loads a document, the progress readout never
    goes back before the final reset. For a PDF of at most 100 MB that
    the reader opens, the values reported are one per rendered page, at
    most 50 of them, each between 0 and 100 and none below the one
    before, followed by the 0 of the reset. When every thumbnail was
    rendered (no error is set) and the document has a page, the last
    value before the reset is 100. *)
Theorem load_progress_rises_then_resets
    (fl : Q -> Q) (Hfl : JS.Rounding fl) (L : Browser.Libs)
    (st : Browser.St SplitPDF.State) (f : Browser.File) (n : Z) :
  Browser.type f = "application/pdf"%string ->
  Browser.size f <= SplitPDF.MAX_SIZE ->
  Browser.getDocument L f = Some n ->
  let st' := Eff.exec (SplitPDF.handleFileChange fl L (Some f)) st in
  exists vs : list Z,
    Spec.progressValues (Browser.log (Browser.world st'))
    = Spec.progressValues (Browser.log (Browser.world st)) ++ vs ++ [0] /\
    Spec.nondecreasing vs /\
    Forall (fun v => 0 <= v <= 100) vs /\
    (List.length vs <= 50)%nat /\
    (SplitPDF.error (Browser.ui st') = None -> 1 <= n ->
     last vs 0 = 100 /\ List.length vs = Z.to_nat (Z.min n 50)).
Proof.
  intros Ht Hs Hload st'.
  destruct (split_load_progress_run fl L st f n Ht Hs Hload)
    as [k [Hk [Hp Hdone]]].
  fold st' in Hp, Hdone.
  exists (Spec.shares fl k 0 (Z.min n 50) 100).
  split; [exact Hp|].
  rewrite shares_length.
  destruct k as [|k'].
  - cbn. split; [exact I|]. split; [constructor|]. split; [lia|].
    intros He Hn. specialize (Hdone He). lia.
  - change 100%Q with (inject_Z 100).
    destruct (shares_props fl Hfl 100 (Z.min n 50) (S k') 0
                ltac:(lia) ltac:(lia) ltac:(lia)) as [Hnd [Hin Hlast]].
    split; [exact Hnd|]. split.
    + apply Forall_forall. intros v Hv. destruct (Hin v Hv) as [[_ H1] H2]. lia.
    + split; [lia|]. intros He Hn. specialize (Hdone He).
      split; [apply Hlast; [discriminate|lia]|exact Hdone].
Qed.

Lemma load_progress_rises_then_resets_witness :
  Browser.getDocument Sample.libs Sample.report = Some 5 /\
  exists vs : list Z,
    Spec.progressValues (Browser.log (Browser.world Sample.splitLoaded))
    = vs ++ [0] /\ Spec.nondecreasing vs.
Proof.
  assert (H1 : Browser.type Sample.report = "application/pdf"%string)
    by reflexivity.
  assert (H2 : Browser.size Sample.report <= SplitPDF.MAX_SIZE)
    by (vm_compute; discriminate).
  assert (H3 : Browser.getDocument Sample.libs Sample.report = Some 5)
    by (vm_compute; reflexivity).
  split; [exact H3|].
  destruct (load_progress_rises_then_resets Sample.exact exact_rounding
              Sample.libs Sample.split0 Sample.report 5 H1 H2 H3)
    as [vs [Hp [Hnd _]]].
  exists vs. split; [exact Hp|exact Hnd].
Defined.
